(** * Outreach mailer: a shallow embedding of [outreach.py]

    The development follows the script top to bottom: the Python string
    primitives it relies on, the ElementTree view of the workbook, the
    workbook reader ([read_cell_value], [iter_sheet_rows]), the recipient
    builder ([build_context], [load_recipients]), the template engine
    ([safe_substitute] of [string.Template]) and the sender
    ([send_one], [send_messages]).

    Modelling conventions.
    - Python [str] is [string], read as ASCII text: the case mappings, the
      white space class and the digit classes are those of Python on
      characters below 128, and a character above 127 counts as a symbol
      without case that is neither blank nor a digit.  Statements that
      would not hold of Python on other text say [is_ascii].
    - A Python [dict] is an association list with CPython's insertion-order
      behaviour (module [Dict]); the [seen] set is a [gset string].
    - An exception is a value of type [exn]; code that may raise returns a
      [result].  The generator [iter_sheet_rows] returns the rows it yielded
      together with the exception that ended the iteration, if any.
    - A workbook is what [zipfile] and [ET.fromstring] make of the file:
      the two element trees, or the exception they raise.
    - A [float] ([--pause], [--retry-delay]) is a rational, an infinity or
      not a number; arithmetic on the finite ones is exact.
    - The mail server, [time.sleep], [mimetypes.guess_type] and the header
      check of [email.message] are parameters of the model. *)

From Stdlib Require Import ZArith List String Ascii Bool Lia QArith DecimalString.
From stdpp Require Import base option list strings sorting gmap sets.

Import ListNotations.
Local Open Scope string_scope.
Local Open Scope Z_scope.

(** ** Exceptions and results *)

(** [OSError] stands for that class and its subclasses other than
    [FileNotFoundError] ([PermissionError], [IsADirectoryError], ...);
    [BadZipFile] and [ParseError] are the exceptions of [zipfile] and of
    [xml.etree.ElementTree]. *)
Inductive exn : Type :=
| FileNotFoundError (msg : string)
| RuntimeError (msg : string)
| ValueError (msg : string)
| KeyError (key : string)
| SMTPError (reason : string)
| OverflowError (msg : string)
| OSError (msg : string)
| BadZipFile (msg : string)
| ParseError (msg : string).

(** [str(exc)]: the message for every class but [KeyError], whose [str] is
    the [repr] of the key (quoted). *)
Definition exn_str (e : exn) : string :=
  match e with
  | FileNotFoundError m | RuntimeError m | ValueError m | SMTPError m
  | OverflowError m | OSError m | BadZipFile m | ParseError m => m
  | KeyError k => "'" ++ k ++ "'"
  end.

Inductive result (A : Type) : Type :=
| Ok (a : A)
| Raise (e : exn).
Arguments Ok {A} a.
Arguments Raise {A} e.

#[global] Instance result_ret : MRet result := fun A a => Ok a.
#[global] Instance result_bind : MBind result := fun A B k r =>
  match r with
  | Ok a => k a
  | Raise e => Raise e
  end.

Definition is_ok {A} (r : result A) : bool :=
  match r with Ok _ => true | Raise _ => false end.

(** ** Python string primitives (ASCII) *)

Module Py.

Definition ord (c : ascii) : Z := Z.of_N (N_of_ascii c).
Definition chr (n : Z) : ascii := ascii_of_N (Z.to_N n).

Definition in_range (lo hi : Z) (c : ascii) : bool :=
  (lo <=? ord c) && (ord c <=? hi).

Definition is_upper : ascii -> bool := in_range 65 90.
Definition is_lower : ascii -> bool := in_range 97 122.
Definition is_digit : ascii -> bool := in_range 48 57.

(** [str.isspace] on ASCII: TAB, LF, VT, FF, CR, FS, GS, RS, US, space. *)
Definition is_space (c : ascii) : bool :=
  in_range 9 13 c || in_range 28 32 c.

Definition lower_char (c : ascii) : ascii :=
  if is_upper c then chr (ord c + 32) else c.
Definition upper_char (c : ascii) : ascii :=
  if is_lower c then chr (ord c - 32) else c.

Fixpoint map_chars (f : ascii -> ascii) (s : string) : string :=
  match s with
  | EmptyString => EmptyString
  | String c r => String (f c) (map_chars f r)
  end.

Definition lower : string -> string := map_chars lower_char.

Fixpoint lstrip_with (p : ascii -> bool) (s : string) : string :=
  match s with
  | EmptyString => EmptyString
  | String c r => if p c then lstrip_with p r else s
  end.

Fixpoint rstrip_with (p : ascii -> bool) (s : string) : string :=
  match s with
  | EmptyString => EmptyString
  | String c r =>
      match rstrip_with p r with
      | EmptyString => if p c then EmptyString else String c EmptyString
      | r' => String c r'
      end
  end.

Definition strip_with (p : ascii -> bool) (s : string) : string :=
  rstrip_with p (lstrip_with p s).

(** [s.strip()] *)
Definition strip : string -> string := strip_with is_space.

(** [c in s] for a one-character [c] *)
Fixpoint contains_char (c : ascii) (s : string) : bool :=
  match s with
  | EmptyString => false
  | String d r => if Ascii.eqb c d then true else contains_char c r
  end.

(** truth value of a [str] *)
Definition truthy (s : string) : bool :=
  match s with EmptyString => false | _ => true end.

(** [x or y] where [x] is [None] or a [str] and [y] is a [str] *)
Definition or_str (x : option string) (y : string) : string :=
  match x with
  | Some s => if truthy s then s else y
  | None => y
  end.

(** [x or y] where both can be [None] *)
Definition or_opt (x y : option string) : option string :=
  match x with
  | Some s => if truthy s then x else y
  | None => y
  end.

(** [''.join(parts)] *)
Fixpoint join (parts : list string) : string :=
  match parts with
  | [] => EmptyString
  | p :: ps => p ++ join ps
  end.

(** The white space [int] passes over at both ends of an ASCII text: TAB,
    LF, VT, FF, CR and space (the class of C's [isspace]). *)
Definition is_c_space (c : ascii) : bool :=
  in_range 9 13 c || (ord c =? 32).

(** The scan of [int] over the run of digits and underscores at the start
    of [s]: [None] when two underscores meet or the run ends with one,
    otherwise the value of the digits, their number and the text after the
    run. [after_underscore] tells whether the previous character was an
    underscore. *)
Fixpoint int_scan (acc digits : Z) (after_underscore : bool) (s : string)
  : option (Z * Z * string) :=
  match s with
  | String c r =>
      if is_digit c then int_scan (acc * 10 + (ord c - 48)) (digits + 1) false r
      else if Ascii.eqb c "_" then
        if after_underscore then None else int_scan acc digits true r
      else if after_underscore then None else Some (acc, digits, s)
  | EmptyString => if after_underscore then None else Some (acc, digits, s)
  end.

(** The default of [sys.get_int_max_str_digits()]. *)
Definition int_max_str_digits : Z := 4300.

(** What [int(s)] comes to in base 10: a value, the refusal of a literal
    of more than [int_max_str_digits] digits, or the refusal of a text that
    is no literal. *)
Inductive int_outcome : Type :=
| IntValue (z : Z)
| IntTooLong (digits : Z)
| IntInvalid.

Definition int_parse (s : string) : int_outcome :=
  let t := lstrip_with is_c_space s in
  let '(sign, u) :=
    match t with
    | String "+" r => (1, r)
    | String "-" r => (-1, r)
    | _ => (1, t)
    end in
  match u with
  | String "_" _ => IntInvalid
  | _ =>
      match int_scan 0 0 false u with
      | None => IntInvalid
      | Some (value, digits, rest) =>
          if int_max_str_digits <? digits then IntTooLong digits
          else if digits =? 0 then IntInvalid
          else
            match lstrip_with is_c_space rest with
            | EmptyString => IntValue (sign * value)
            | _ => IntInvalid
            end
      end
  end.

(** [int(s)] in base 10; [None] stands for [ValueError]. *)
Definition int (s : string) : option Z :=
  match int_parse s with
  | IntValue z => Some z
  | _ => None
  end.

(** [str(n)] for a natural number. *)
Definition str_of_Z (n : Z) : string :=
  NilZero.string_of_uint (N.to_uint (Z.to_N n)).

Definition hex_digit (n : Z) : ascii :=
  if n <? 10 then chr (48 + n) else chr (87 + n).

(** One character of [repr(s)]: the quote in use and the backslash are
    escaped, TAB, LF and CR have their letters, and a character that is not
    printable is written with its two hexadecimal digits. *)
Definition repr_char (quote c : ascii) : string :=
  let n := ord c in
  if Ascii.eqb c quote || (n =? 92) then String (chr 92) (String c EmptyString)
  else if n =? 9 then String (chr 92) "t"
  else if n =? 10 then String (chr 92) "n"
  else if n =? 13 then String (chr 92) "r"
  else if (n <? 32) || ((127 <=? n) && (n <=? 160)) || (n =? 173)
  then String (chr 92)
         (String "x" (String (hex_digit (n / 16)) (String (hex_digit (n mod 16)) "")))
  else String c EmptyString.

Fixpoint repr_chars (quote : ascii) (s : string) : string :=
  match s with
  | EmptyString => EmptyString
  | String c r => repr_char quote c ++ repr_chars quote r
  end.

(** [repr(s)]: in single quotes, unless [s] has a single quote and no
    double quote. *)
Definition repr (s : string) : string :=
  let quote :=
    if contains_char (chr 39) s && negb (contains_char (chr 34) s)
    then chr 34 else chr 39 in
  String quote (repr_chars quote s ++ String quote EmptyString).

(** The first [n] characters of a text. *)
Fixpoint prefix (n : nat) (s : string) : string :=
  match n, s with
  | S k, String c r => String c (prefix k r)
  | _, _ => EmptyString
  end.

End Py.

(** ** ElementTree *)

#[warnings="-register-all"]
Inductive Element : Type :=
| Elem (tag : string) (attrib : list (string * string))
       (text tail : option string) (children : list Element).

Definition tag (e : Element) : string := let 'Elem t _ _ _ _ := e in t.
Definition attrib (e : Element) := let 'Elem _ a _ _ _ := e in a.
Definition text (e : Element) : option string := let 'Elem _ _ x _ _ := e in x.
Definition tail (e : Element) : option string := let 'Elem _ _ _ x _ := e in x.
Definition children (e : Element) : list Element := let 'Elem _ _ _ _ c := e in c.

Definition NS : string := "{http://schemas.openxmlformats.org/spreadsheetml/2006/main}".

(** [elem.get(key)] *)
Fixpoint attr_get (key : string) (a : list (string * string)) : option string :=
  match a with
  | [] => None
  | (k, v) :: a' => if String.eqb k key then Some v else attr_get key a'
  end.
Definition get (e : Element) (key : string) : option string :=
  attr_get key (attrib e).

(** [elem.findall(tag)]: the direct children with that tag, in order. *)
Definition findall (e : Element) (t : string) : list Element :=
  List.filter (fun c => String.eqb (tag c) t) (children e).

(** [elem.find(tag)]: the first of them. *)
Definition find (e : Element) (t : string) : option Element :=
  head (findall e t).

(** A [str] that is [None] or empty is not yielded by [itertext]. *)
Definition text_part (t : option string) : list string :=
  match t with
  | Some s => if Py.truthy s then [s] else []
  | None => []
  end.

(** [elem.itertext()] *)
Fixpoint itertext (e : Element) : list string :=
  match e with
  | Elem _ _ txt _ cs =>
      (text_part txt ++
       (fix inner (l : list Element) : list string :=
          match l with
          | [] => []
          | c :: l' => itertext c ++ text_part (tail c) ++ inner l'
          end) cs)%list
  end.

(** [elem.findtext(tag, default)] *)
Definition findtext (e : Element) (t : string) (default : string) : string :=
  match find e t with
  | Some c => Py.or_str (text c) ""
  | None => default
  end.

(** ** Workbook reader: cell values *)

(** The [ValueError] of [int(t)] for a text it refuses: the literal is
    quoted as [repr] does, cut after 200 characters. *)
Definition int_error (t : string) : exn :=
  match Py.int_parse t with
  | Py.IntTooLong digits =>
      ValueError
        ("Exceeds the limit (4300 digits) for integer string conversion: value has "
         ++ Py.str_of_Z digits
         ++ " digits; use sys.set_int_max_str_digits() to increase the limit")
  | _ =>
      ValueError
        ("invalid literal for int() with base 10: " ++ Py.prefix 200 (Py.repr t))
  end.

(** [shared_strings[idx] if 0 <= idx < len(shared_strings) else ""] *)
Definition shared_at (shared_strings : list string) (idx : Z) : string :=
  if (0 <=? idx) && (idx <? Z.of_nat (length shared_strings))
  then nth (Z.to_nat idx) shared_strings ""
  else "".

Definition read_cell_value (cell : Element) (shared_strings : list string)
  : result string :=
  let cell_type := get cell "t" in
  if decide (cell_type = Some "s") then
    match find cell (NS ++ "v") with
    | None => Ok ""
    | Some v =>
        match text v with
        | None => Ok ""
        | Some t =>
            match Py.int t with
            | None => Raise (int_error t)
            | Some idx => Ok (shared_at shared_strings idx)
            end
        end
    end
  else if decide (cell_type = Some "inlineStr") then
    match find cell (NS ++ "is") with
    | None => Ok ""
    | Some inline => Ok (Py.join (itertext inline))
    end
  else if decide (cell_type = Some "b") then
    match find cell (NS ++ "v") with
    | Some v => if decide (text v = Some "1") then Ok "TRUE" else Ok "FALSE"
    | None => Ok "FALSE"
    end
  else
    match find cell (NS ++ "v") with
    | Some (Elem _ _ (Some t) _ _) => Ok t
    | _ => Ok (Py.or_str (Some (findtext cell (NS ++ "t") "")) "")
    end.

(** ** Python dictionaries

    Insertion-ordered: assigning to a key that is present replaces its
    value in place, assigning to a new key appends it. *)

Module Dict.
Section Dict.
Context {K V : Type} `{EqDecision K}.

Fixpoint get (d : list (K * V)) (k : K) : option V :=
  match d with
  | [] => None
  | (k', v) :: d' => if decide (k' = k) then Some v else get d' k
  end.

(** [d.get(k, default)] *)
Definition get_default (d : list (K * V)) (k : K) (default : V) : V :=
  match get d k with Some v => v | None => default end.

(** [k in d] *)
Definition mem (d : list (K * V)) (k : K) : bool :=
  match get d k with Some _ => true | None => false end.

(** [d[k] = v] *)
Fixpoint set (d : list (K * V)) (k : K) (v : V) : list (K * V) :=
  match d with
  | [] => [(k, v)]
  | (k', v') :: d' =>
      if decide (k' = k) then (k', v) :: d' else (k', v') :: set d' k v
  end.

(** [{k: v for (k, v) in items}], continuing from [d] *)
Definition update (d : list (K * V)) (items : list (K * V)) : list (K * V) :=
  fold_left (fun acc kv => set acc kv.1 kv.2) items d.

Definition of_items (items : list (K * V)) : list (K * V) := update [] items.

Definition keys (d : list (K * V)) : list K := d.*1.

(** truth value of a dict *)
Definition truthy (d : list (K * V)) : bool :=
  match d with [] => false | _ => true end.
End Dict.
End Dict.

Abbreviation dict K V := (list (K * V)) (only parsing).

(** ** Workbook reader: rows *)

Fixpoint column_loop (index : Z) (letters : string) : Z :=
  match letters with
  | EmptyString => index
  | String char r =>
      column_loop (index * 26 + (Py.ord (Py.upper_char char) - 64)) r
  end.

(** Convert an Excel column label (e.g., 'AA') into a zero-based index. *)
Definition column_letters_to_index (letters : string) : Z :=
  column_loop 0 letters - 1.

(** The longest prefix of capital letters, and what follows it. *)
Fixpoint span_upper (s : string) : string * string :=
  match s with
  | EmptyString => (EmptyString, EmptyString)
  | String c r =>
      if Py.is_upper c
      then let '(u, rest) := span_upper r in (String c u, rest)
      else (EmptyString, s)
  end.

(** [CELL_REF_PATTERN.match(ref)], returning [match.group(1)]: one or more
    capital letters followed by at least one digit, anchored at the start.
    The letters are ['A'] to ['Z']; the digit class is the one of the
    pattern on ASCII text, ['0'] to ['9']. *)
Definition cell_ref_match (ref : string) : option string :=
  match span_upper ref with
  | (String c u, String d _) =>
      if Py.is_digit d then Some (String c u) else None
  | _ => None
  end.

(** The inner loop of [iter_sheet_rows]: the [cells] of one physical row. *)
Fixpoint read_cells (shared : list string) (cs : list Element)
    (cells : dict Z string) : result (dict Z string) :=
  match cs with
  | [] => Ok cells
  | cell :: cs' =>
      match get cell "r" with
      | None => read_cells shared cs' cells
      | Some ref =>
          if negb (Py.truthy ref) then read_cells shared cs' cells
          else
            match cell_ref_match ref with
            | None => read_cells shared cs' cells
            | Some letters =>
                let col_index := column_letters_to_index letters in
                v ← read_cell_value cell shared;
                read_cells shared cs' (Dict.set cells col_index (Py.strip v))
            end
      end
  end.

(** [sorted(cells)] *)
Definition sorted_keys (cells : dict Z string) : list Z :=
  merge_sort Z.le (Dict.keys cells).

(** [{idx: cells.get(idx, "") for idx in sorted(cells)}] *)
Definition make_header_map (cells : dict Z string) : dict Z string :=
  Dict.of_items
    (List.map (fun idx => (idx, Dict.get_default cells idx "")) (sorted_keys cells)).

(** [{header_map[idx]: cells.get(idx, "").strip() for idx in header_map
      if header_map[idx]}] *)
Definition make_row_dict (header_map cells : dict Z string) : dict string string :=
  Dict.of_items
    (List.map (fun ih => (ih.2, Py.strip (Dict.get_default cells ih.1 "")))
       (List.filter (fun ih => Py.truthy ih.2) header_map)).

Definition row_cells (shared : list string) (row : Element)
  : result (dict Z string) :=
  read_cells shared (findall row (NS ++ "c")) [].

(** The loop over the physical rows. The result is the list of rows yielded
    and the exception that stopped the generator, if one was raised. *)
Fixpoint iter_rows (shared : list string) (rows : list Element)
    (header_map : option (dict Z string))
  : list (dict string string) * option exn :=
  match rows with
  | [] => ([], None)
  | row :: rows' =>
      match row_cells shared row with
      | Raise e => ([], Some e)
      | Ok cells =>
          if negb (Dict.truthy cells) then iter_rows shared rows' header_map
          else
            match header_map with
            | None => iter_rows shared rows' (Some (make_header_map cells))
            | Some hm =>
                let row_dict := make_row_dict hm cells in
                let '(ys, e) := iter_rows shared rows' header_map in
                if Dict.truthy row_dict then (row_dict :: ys, e) else (ys, e)
            end
      end
  end.

(** What [zipfile] and [ET.fromstring] give for a path: no file; a file
    on which checking the path, opening the archive, or reading or parsing
    one of the two entries raises [e] (a file that is no zip archive, XML
    that is not well formed); or the parsed [xl/sharedStrings.xml] and
    [xl/worksheets/sheet1.xml] entries ([None] when the archive has no such
    entry, which [zf.read] reports with [KeyError]). *)
Inductive Workbook : Type :=
| NoSuchFile (path : string)
| Unreadable (e : exn)
| Archive (shared_xml sheet_xml : option Element).

Definition load_shared_strings (shared_xml : option Element) : list string :=
  match shared_xml with
  | None => []
  | Some root =>
      List.map (fun si => Py.join (itertext si)) (findall root (NS ++ "si"))
  end.

Definition iter_sheet_rows (workbook : Workbook)
  : list (dict string string) * option exn :=
  match workbook with
  | NoSuchFile path =>
      ([], Some (FileNotFoundError ("Workbook " ++ path ++ " does not exist.")))
  | Unreadable e => ([], Some e)
  | Archive shared_xml sheet_xml =>
      let shared := load_shared_strings shared_xml in
      match sheet_xml with
      | None =>
          ([], Some (RuntimeError
                 "Could not load the first worksheet from the Excel file."))
      | Some sheet_root =>
          match find sheet_root (NS ++ "sheetData") with
          | None => ([], None)
          | Some sheet_data =>
              iter_rows shared (findall sheet_data (NS ++ "row")) None
          end
      end
  end.

(** ** Recipient builder *)

Definition slug_char (c : ascii) : bool := Py.is_lower c || Py.is_digit c.

(** [re.sub(r"[^a-z0-9]+", "_", s)]: [in_run] tells whether the previous
    character already belonged to the run being replaced. *)
Fixpoint collapse_runs (in_run : bool) (s : string) : string :=
  match s with
  | EmptyString => EmptyString
  | String c r =>
      if slug_char c then String c (collapse_runs false r)
      else if in_run then collapse_runs true r
      else String "_" (collapse_runs true r)
  end.

Definition slugify (text : string) : string :=
  Py.strip_with (fun c => Ascii.eqb c "_") (collapse_runs false (Py.lower text)).

(** [(row.get(h) or "").strip()] *)
Definition field1 (row : dict string string) (h : string) : string :=
  Py.strip (Py.or_str (Dict.get row h) "").

(** [(row.get(h1) or row.get(h2) or "").strip()] *)
Definition field2 (row : dict string string) (h1 h2 : string) : string :=
  Py.strip (Py.or_str (Py.or_opt (Dict.get row h1) (Dict.get row h2)) "").

Definition fixed_context (row : dict string string) : dict string string :=
  [ ("hospital", field1 row "Rumah Sakit");
    ("province", field1 row "Provinsi");
    ("city", field1 row "Kab/Kota");
    ("address", field2 row "Alamat (List)" "Alamat (Profile)");
    ("phone", field2 row "Telepon (List)" "Telepon (Profile)");
    ("owner", field2 row "Pemilik (List)" "Kepemilikan");
    ("director", field1 row "Direktur");
    ("email", field1 row "Email Perusahaan") ].

(** The [for key, value in row.items()] loop of [build_context]. *)
Fixpoint add_slugs (items : list (string * string)) (context : dict string string)
  : dict string string :=
  match items with
  | [] => context
  | (key, value) :: items' =>
      let slug := slugify key in
      if Py.truthy slug && negb (Dict.mem context slug)
      then add_slugs items' (Dict.set context slug (Py.strip (Py.or_str (Some value) "")))
      else add_slugs items' context
  end.

Definition build_context (row : dict string string) : dict string string :=
  add_slugs row (fixed_context row).

Definition row_email (row : dict string string) : string :=
  field1 row "Email Perusahaan".

Definition usable_email (email : string) : bool :=
  Py.truthy email && Py.contains_char "@" email.

(** The loop of [load_recipients] over the rows the reader yields. *)
Fixpoint recipients_loop (rows : list (dict string string)) (seen : gset string)
    (recipients : list (dict string string)) : list (dict string string) :=
  match rows with
  | [] => recipients
  | row :: rows' =>
      let email := row_email row in
      if negb (Py.truthy email) || negb (Py.contains_char "@" email)
      then recipients_loop rows' seen recipients
      else
        let key := Py.lower email in
        if decide (key ∈ seen) then recipients_loop rows' seen recipients
        else recipients_loop rows' ({[key]} ∪ seen)
               (recipients ++ [build_context row])%list
  end.

Definition load_recipients (workbook : Workbook)
  : result (list (dict string string)) :=
  match iter_sheet_rows workbook with
  | (rows, None) => Ok (recipients_loop rows ∅ [])
  | (_, Some e) => Raise e
  end.

(** ** Template engine: [string.Template.safe_substitute]

    The source renders with [Template(text).safe_substitute(recipient)]
    (lines 209, 210, 236 and 239).  The class [string.Template] belongs to
    Python's standard library and is not among the sources: the definitions
    of this part follow the contract the specification gives for rendering
    (a placeholder naming a present key is replaced with its value, one
    naming an absent key is left as written, ill-formed placeholder syntax
    raises nothing and is passed through unchanged), with the placeholder
    syntax of the library.  At every delimiter the class pattern tries, in
    this order: a second delimiter (escape), an identifier, an identifier in
    braces, and the empty alternative (ill-formed).  An identifier is an
    ASCII letter or underscore followed by ASCII letters, digits and
    underscores, in either case ([re.IGNORECASE]). *)

Definition id_start (c : ascii) : bool :=
  Ascii.eqb c "_" || Py.is_lower c || Py.is_upper c.
Definition id_char (c : ascii) : bool := id_start c || Py.is_digit c.

(** The longest run of identifier characters, and what follows it. *)
Fixpoint span_id (s : string) : string * string :=
  match s with
  | EmptyString => (EmptyString, EmptyString)
  | String c r =>
      if id_char c
      then let '(n, rest) := span_id r in (String c n, rest)
      else (EmptyString, s)
  end.

(** Modelled from the spec: [string.Template] is not among the sources.
    What the pattern matches at a delimiter. *)
Inductive placeholder : Type :=
| Escaped
| Named (name : string)
| Braced (name : string)
| Invalid.

(** Modelled from the spec: [string.Template] is not among the sources.
    [match_after r] is the alternative that matches when [r] is the text
    right after a [$]. The alternatives are tried in the pattern's order. *)
Definition match_after (r : string) : placeholder :=
  match r with
  | EmptyString => Invalid
  | String c r1 =>
      if Ascii.eqb c "$" then Escaped
      else if id_start c then Named (span_id r).1
      else if Ascii.eqb c "{" then
        match r1 with
        | String c1 _ =>
            if id_start c1 then
              match span_id r1 with
              | (n, String d _) => if Ascii.eqb d "}" then Braced n else Invalid
              | _ => Invalid
              end
            else Invalid
        | EmptyString => Invalid
        end
      else Invalid
  end.

(** [mo.group()]: the matched text. *)
Definition group (p : placeholder) : string :=
  match p with
  | Escaped => "$$"
  | Named n => "$" ++ n
  | Braced n => "${" ++ n ++ "}"
  | Invalid => "$"
  end.

(** Modelled from the spec: [string.Template] is not among the sources.
    The [convert] helper of [safe_substitute]: a placeholder naming a
    present key gives its value, one naming an absent key and an ill-formed
    one give the matched text back, and an escape gives one delimiter. *)
Definition convert (mapping : dict string string) (p : placeholder) : string :=
  match p with
  | Named n | Braced n =>
      match Dict.get mapping n with
      | Some v => v
      | None => group p
      end
  | Escaped => "$"
  | Invalid => group p
  end.

(** Modelled from the spec: [string.Template] is not among the sources.
    [pattern.sub(convert, template)]: [skip] counts the characters of the
    current match that are still to be passed over. *)
Fixpoint sub (mapping : dict string string) (skip : nat) (s : string) : string :=
  match s with
  | EmptyString => EmptyString
  | String c r =>
      match skip with
      | S k => sub mapping k r
      | O =>
          if Ascii.eqb c "$" then
            let p := match_after r in
            convert mapping p ++ sub mapping (String.length (group p) - 1) r
          else String c (sub mapping 0 r)
      end
  end.

(** Modelled from the spec: [string.Template] is not among the sources.
    [Template(template).safe_substitute(mapping)]: safe substitution of a
    recipient context into a template string. *)
Definition safe_substitute (template : string) (mapping : dict string string)
  : string :=
  sub mapping 0 template.

(** [recipients[:count]] *)
Definition slice_to {A} (l : list A) (count : Z) : list A :=
  if 0 <=? count then take (Z.to_nat count) l
  else take (Z.to_nat (Z.of_nat (length l) + count)) l.

(** What [preview_messages] prints for one recipient. *)
Record preview : Type := Preview {
  pv_index : nat;
  pv_to : string;
  pv_subject : string;
  pv_body : string
}.

Fixpoint preview_loop (idx : nat) (sample : list (dict string string))
    (subject_template body_template : string) : result (list preview) :=
  match sample with
  | [] => Ok []
  | recipient :: sample' =>
      let subject := safe_substitute subject_template recipient in
      let body := safe_substitute body_template recipient in
      match Dict.get recipient "email" with
      | None => Raise (KeyError "email")
      | Some email =>
          rest ← preview_loop (S idx) sample' subject_template body_template;
          Ok (Preview idx email subject body :: rest)
      end
  end.

Definition preview_messages (recipients : list (dict string string))
    (subject_template body_template : string) (count : Z)
  : result (list preview) :=
  preview_loop 1 (slice_to recipients count) subject_template body_template.

(** ** Sender *)

(** A Python [float]: a rational for a finite value (the arithmetic of
    the model is exact), the two infinities, and not-a-number. *)
Inductive pyfloat : Type :=
| Finite (q : Q)
| PosInf
| NegInf
| NaN.

(** The truth value of a float: false for zero only. *)
Definition float_truthy (x : pyfloat) : bool :=
  match x with
  | Finite q => negb (Qeq_bool q 0)
  | _ => true
  end.

(** [x * n] for an [int] [n]. *)
Definition float_times (x : pyfloat) (n : Z) : pyfloat :=
  match x with
  | Finite q => Finite (q * inject_Z n)
  | PosInf => if 0 <? n then PosInf else if n <? 0 then NegInf else NaN
  | NegInf => if 0 <? n then NegInf else if n <? 0 then PosInf else NaN
  | NaN => NaN
  end.

Record Args : Type := {
  smtp_user : string;
  smtp_password : string;
  smtp_host : string;
  smtp_port : Z;
  implicit_tls : bool;
  from_name : option string;
  reply_to : option string;
  pause : pyfloat;
  retries : Z;
  retry_delay : pyfloat;
  timeout : Z
}.

Record Attachment : Type := {
  att_filename : string;
  att_data : string;
  att_maintype : string;
  att_subtype : string
}.

Record Message : Type := {
  msg_from : string;
  msg_to : string;
  msg_subject : string;
  msg_reply_to : option string;
  msg_content : string;
  msg_attachments : list Attachment
}.

(** What the run does to the outside: SMTP sessions, sleeps and the lines
    it prints. *)
Inductive event : Type :=
| Session (m : Message)
| Sleep (seconds : pyfloat)
| Retrying (email reason : string) (backoff : pyfloat)
| Sent (idx total : nat) (email : string)
| Failed (idx total : nat) (email reason : string)
| Done (successes failed : nat)
| FailureLine (email reason : string).

Definition format_sender_address (username : string) (display_name : option string)
  : string :=
  match display_name with
  | Some d => if Py.truthy d then d ++ " <" ++ username ++ ">" else username
  | None => username
  end.

(** [time.sleep(d)], where [time_sleep d] tells whether the call returns
    ([None]) or raises. *)
Definition sleep (time_sleep : pyfloat -> option exn) (d : pyfloat)
    (log : list event) : list event * result unit :=
  match time_sleep d with
  | None => ((log ++ [Sleep d])%list, Ok ())
  | Some e => (log, Raise e)
  end.

(** The final tally of [send_messages]. *)
Record Tally : Type := {
  successes : nat;
  failures : list (string * string)
}.

Section Sender.
(** The mail server and the network: [smtp_session args msg w] stands for
    one [with connection_cls(...) as client] block (connect, STARTTLS
    unless implicit TLS, login, [send_message], quit) and answers [None]
    when the block completes and [Some exc] when it raises. *)
Context {World : Type}.
Variable smtp_session : Args -> Message -> World -> World * option exn.
(** The clock: [time_sleep d] is [None] when [time.sleep(d)] returns and
    [Some exc] when it raises, as it does for a length that is negative,
    not a number, or beyond what the clock can hold. *)
Variable time_sleep : pyfloat -> option exn.
(** The header check of the message policy ([msg[name] = value]). *)
Variable header_ok : string -> bool.

Variable args : Args.
Variables subject_template body_template : string.
Variable attachments : list Attachment.

Definition set_header (value : string) : result unit :=
  if header_ok value then Ok ()
  else Raise (ValueError
    "Header values may not contain linefeed or carriage return characters").

(** The first part of [send_one]: the message is built once. *)
Definition compose (recipient : dict string string) : result Message :=
  let sender := format_sender_address (smtp_user args) (from_name args) in
  _ ← set_header sender;
  match Dict.get recipient "email" with
  | None => Raise (KeyError "email")
  | Some to =>
      _ ← set_header to;
      let subject := safe_substitute subject_template recipient in
      _ ← set_header subject;
      reply ← match reply_to args with
              | Some r =>
                  if Py.truthy r then (_ ← set_header r; Ok (Some r))
                  else Ok None
              | None => Ok None
              end;
      Ok {| msg_from := sender;
            msg_to := to;
            msg_subject := subject;
            msg_reply_to := reply;
            msg_content := safe_substitute body_template recipient;
            msg_attachments := attachments |}
  end.

(** The [while True] loop of [send_one]. [attempt] is the counter before
    the increment; [fuel] bounds the number of iterations the model may
    unfold ([None] when it is used up). *)
Fixpoint attempt_loop (fuel : nat) (recipient : dict string string)
    (msg : Message) (attempt : Z) (w : World) (log : list event)
  : option (World * list event * result unit) :=
  match fuel with
  | O => None
  | S fuel' =>
      let attempt := attempt + 1 in
      let '(w1, r) := smtp_session args msg w in
      let log1 := (log ++ [Session msg])%list in
      match r with
      | None => Some (w1, log1, Ok ())
      | Some exc =>
          if attempt >? retries args then Some (w1, log1, Raise exc)
          else
            let backoff := float_times (retry_delay args) attempt in
            match Dict.get recipient "email" with
            | None => Some (w1, log1, Raise (KeyError "email"))
            | Some email =>
                let log2 := (log1 ++ [Retrying email (exn_str exc) backoff])%list in
                match sleep time_sleep backoff log2 with
                | (log3, Raise e) => Some (w1, log3, Raise e)
                | (log3, Ok _) => attempt_loop fuel' recipient msg attempt w1 log3
                end
            end
      end
  end.

(** Iterations that are enough for any run of the loop: one attempt and
    one more per permitted retry. *)
Definition enough_fuel : nat := S (Z.to_nat (retries args)).

Definition send_one (recipient : dict string string) (w : World) (log : list event)
  : option (World * list event * result unit) :=
  match compose recipient with
  | Raise e => Some (w, log, Raise e)
  | Ok msg => attempt_loop enough_fuel recipient msg 0 w log
  end.

(** The [for idx, recipient in enumerate(recipients, start=1)] loop.
    A [Raise] in the result is an exception that leaves [send_messages]. *)
Fixpoint recipients_pass (recipients : list (dict string string)) (idx total : nat)
    (w : World) (log : list event) (t : Tally)
  : option (World * list event * result Tally) :=
  match recipients with
  | [] => Some (w, log, Ok t)
  | recipient :: rest =>
      match send_one recipient w log with
      | None => None
      | Some (w1, log1, r) =>
          let after :=
            match r with
            | Ok _ =>
                match Dict.get recipient "email" with
                | None => (log1, Raise (KeyError "email"))
                | Some email =>
                    ((log1 ++ [Sent idx total email])%list,
                     Ok {| successes := S (successes t); failures := failures t |})
                end
            | Raise exc =>
                let reason := exn_str exc in
                match Dict.get recipient "email" with
                | None => (log1, Raise (KeyError "email"))
                | Some email =>
                    ((log1 ++ [Failed idx total email reason])%list,
                     Ok {| successes := successes t;
                           failures := (failures t ++ [(email, reason)])%list |})
                end
            end in
          match after with
          | (log2, Raise e) => Some (w1, log2, Raise e)
          | (log2, Ok t') =>
              let paced :=
                if float_truthy (pause args) && (idx <? total)%nat
                then sleep time_sleep (pause args) log2
                else (log2, Ok ()) in
              match paced with
              | (log3, Raise e) => Some (w1, log3, Raise e)
              | (log3, Ok _) => recipients_pass rest (S idx) total w1 log3 t'
              end
          end
      end
  end.

Definition summary (t : Tally) : list event :=
  Done (successes t) (length (failures t))
    :: List.map (fun f => FailureLine f.1 f.2) (failures t).

Definition send_messages (recipients : list (dict string string)) (w : World)
  : option (World * list event * result Tally) :=
  match recipients_pass recipients 1 (length recipients) w []
          {| successes := 0; failures := [] |} with
  | None => None
  | Some (w', log, Ok t) => Some (w', (log ++ summary t)%list, Ok t)
  | Some (w', log, Raise e) => Some (w', log, Raise e)
  end.
End Sender.

(** ** Specification vocabulary *)

(** The text of the cell's value element, when the element is there and
    holds text. *)
Definition value_text (cell : Element) : option string :=
  v ← find cell (NS ++ "v"); text v.

(** The text of the cell's plain text element, under the same conditions. *)
Definition plain_text (cell : Element) : option string :=
  t ← find cell (NS ++ "t"); text t.

(** The column label read as a number in base 26 whose digits are
    ['A'] = 1, ..., ['Z'] = 26. *)
Fixpoint base26 (letters : string) : Z :=
  match letters with
  | EmptyString => 0
  | String c r => (Py.ord c - 64) * 26 ^ Z.of_nat (String.length r) + base26 r
  end.

(** The number of labels shorter than [n] letters: 26 + 26^2 + ... , that
    is, the first index of the labels of [n] letters. *)
Fixpoint labels_below (n : nat) : Z :=
  match n with
  | O => 0
  | S k => 26 * labels_below k + 1
  end.

Fixpoint all_chars (p : ascii -> bool) (s : string) : bool :=
  match s with
  | EmptyString => true
  | String c r => p c && all_chars p r
  end.

(** A text of ASCII characters only. *)
Definition is_ascii (s : string) : bool :=
  all_chars (fun c => Py.ord c <? 128) s.

(** The column a cell is stored under, when its reference is usable. *)
Definition cell_column (cell : Element) : option Z :=
  match get cell "r" with
  | Some ref =>
      if Py.truthy ref
      then column_letters_to_index <$> cell_ref_match ref
      else None
  | None => None
  end.

(** The last cell of a row that is stored under column [idx]. *)
Fixpoint cell_at (cs : list Element) (idx : Z) : option Element :=
  match cs with
  | [] => None
  | c :: cs' =>
      match cell_at cs' idx with
      | Some c' => Some c'
      | None => if decide (cell_column c = Some idx) then Some c else None
      end
  end.

(** A physical row that has at least one cell with a usable reference. *)
Definition has_cells (row : Element) : bool :=
  existsb (fun c => bool_decide (is_Some (cell_column c))) (findall row (NS ++ "c")).

Definition cells_of (shared : list string) (row : Element) : dict Z string :=
  match row_cells shared row with
  | Ok cells => cells
  | Raise _ => []
  end.

(** A physical row in which some cell resolves to a non-blank text. *)
Definition has_text (shared : list string) (row : Element) : bool :=
  existsb (fun v => Py.truthy v) (cells_of shared row).*2.

Definition workbook_shared (workbook : Workbook) : list string :=
  match workbook with
  | Archive shared_xml _ => load_shared_strings shared_xml
  | _ => []
  end.

(** The physical rows of the first sheet. *)
Definition sheet_rows (workbook : Workbook) : list Element :=
  match workbook with
  | Archive _ (Some sheet_root) =>
      match find sheet_root (NS ++ "sheetData") with
      | Some sheet_data => findall sheet_data (NS ++ "row")
      | None => []
      end
  | _ => []
  end.

Definition nonempty_rows (workbook : Workbook) : list Element :=
  List.filter has_cells (sheet_rows workbook).

(** The cell texts of the header row (the first non-empty row). *)
Definition header_names (workbook : Workbook) : list string :=
  match nonempty_rows workbook with
  | hdr :: _ => (cells_of (workbook_shared workbook) hdr).*2
  | [] => []
  end.

(** ** Sample data *)

Definition xml_value (t : string) : Element :=
  Elem (NS ++ "v") [] (Some t) None [].

(** [<c r="ref"><v>t</v></c>] *)
Definition xml_cell (ref t : string) : Element :=
  Elem (NS ++ "c") [("r", ref)] None None [xml_value t].

(** [<c r="ref" t="ty"><v>t</v></c>] *)
Definition xml_typed_cell (ref ty t : string) : Element :=
  Elem (NS ++ "c") [("r", ref); ("t", ty)] None None [xml_value t].

(** [<c r="ref"/>] *)
Definition xml_blank_cell (ref : string) : Element :=
  Elem (NS ++ "c") [("r", ref)] None None [].

Definition xml_row (cells : list Element) : Element :=
  Elem (NS ++ "row") [] None None cells.

Definition xml_sheet (rows : list Element) : Element :=
  Elem (NS ++ "worksheet") [] None None
    [Elem (NS ++ "sheetData") [] None None rows].

(** A sheet whose first row has one cell with no text, followed by two
    rows of data. *)
Definition blank_header_book : Workbook :=
  Archive None
    (Some (xml_sheet [ xml_row [xml_blank_cell "A1"];
                       xml_row [xml_cell "A2" "x"];
                       xml_row [xml_cell "A3" "y"] ])).

(** Three headed columns; the data row has no cell for column B. *)
Definition gap_book : Workbook :=
  Archive None
    (Some (xml_sheet
       [ xml_row [xml_cell "A1" "Rumah Sakit"; xml_cell "B1" "Kab/Kota";
                  xml_cell "C1" "Email Perusahaan"];
         xml_row [];
         xml_row [xml_cell "A2" "RS A"; xml_cell "C2" "a@rs.id"] ])).

(** Proof scripts over small concrete lists. *)
Ltac in_list := apply list_elem_of_In; simpl; tauto.
Ltac only_in_list H :=
  apply list_elem_of_In in H; simpl in H; intuition congruence.

(** The first candidate that is a non-empty text, else the empty string. *)
Fixpoint first_nonempty (candidates : list (option string)) : string :=
  match candidates with
  | [] => ""
  | Some s :: rest => if Py.truthy s then s else first_nonempty rest
  | None :: rest => first_nonempty rest
  end.

(** The fixed keys of a context and the headers each is read from, in the
    order they are tried. *)
Definition fixed_sources : list (string * list string) :=
  [ ("hospital", ["Rumah Sakit"]);
    ("province", ["Provinsi"]);
    ("city", ["Kab/Kota"]);
    ("address", ["Alamat (List)"; "Alamat (Profile)"]);
    ("phone", ["Telepon (List)"; "Telepon (Profile)"]);
    ("owner", ["Pemilik (List)"; "Kepemilikan"]);
    ("director", ["Direktur"]);
    ("email", ["Email Perusahaan"]) ].

(** The deduplication key of a row. *)
Definition email_key (row : dict string string) : string :=
  Py.lower (row_email row).

(** The rows [recipients_loop] keeps, as rows. *)
Fixpoint kept_rows (rows : list (dict string string)) (seen : gset string)
  : list (dict string string) :=
  match rows with
  | [] => []
  | row :: rows' =>
      if usable_email (row_email row) then
        if decide (email_key row ∈ seen) then kept_rows rows' seen
        else row :: kept_rows rows' ({[email_key row]} ∪ seen)
      else kept_rows rows' seen
  end.

(** The positions, counted from 0, of the rows [recipients_loop] keeps. *)
Fixpoint kept_positions (rows : list (dict string string)) (seen : gset string)
  : list nat :=
  match rows with
  | [] => []
  | row :: rows' =>
      if usable_email (row_email row) then
        if decide (email_key row ∈ seen) then S <$> kept_positions rows' seen
        else 0%nat :: (S <$> kept_positions rows' ({[email_key row]} ∪ seen))
      else S <$> kept_positions rows' seen
  end.

(** The first item of a row whose header has the slug [slug]. *)
Definition first_with_slug (slug : string) (row : dict string string)
  : option (string * string) :=
  List.find (fun kv => bool_decide (slugify kv.1 = slug)) row.

(** A well-formed placeholder name. *)
Definition identifier (name : string) : bool :=
  match name with
  | String c r => id_start c && all_chars id_char r
  | EmptyString => false
  end.

(** The text after a [$name] placeholder may not continue the name. *)
Definition name_ends (rest : string) : bool :=
  match rest with
  | String c _ => negb (id_char c)
  | EmptyString => true
  end.

(** Removing the first [n] characters. *)
Fixpoint string_drop (n : nat) (s : string) : string :=
  match n, s with
  | S k, String _ r => string_drop k r
  | _, _ => s
  end.

(** A text with no escape sequence in it. *)
Fixpoint no_escape (s : string) : bool :=
  match s with
  | String c r =>
      negb (Ascii.eqb c "$" &&
            match r with String d _ => Ascii.eqb d "$" | EmptyString => false end)
      && no_escape r
  | EmptyString => true
  end.

(** [Template.get_identifiers], with repetitions: the names of the
    well-formed placeholders of a template; [skip] is as in [sub]. *)
Fixpoint placeholders (skip : nat) (s : string) : list string :=
  match s with
  | EmptyString => []
  | String c r =>
      match skip with
      | S k => placeholders k r
      | O =>
          if Ascii.eqb c "$" then
            let p := match_after r in
            match p with
            | Named n | Braced n => [n]
            | _ => []
            end ++ placeholders (String.length (group p) - 1) r
          else placeholders 0 r
      end
  end.

(** The progress lines of a log: for each [Sent] or [Failed] line, the
    position it reports and whether it reports a success. *)
Fixpoint outcomes (log : list event) : list (nat * bool) :=
  match log with
  | [] => []
  | Sent idx _ _ :: log' => (idx, true) :: outcomes log'
  | Failed idx _ _ _ :: log' => (idx, false) :: outcomes log'
  | _ :: log' => outcomes log'
  end.


(** The lengths of the sleeps of a log, in order. *)
Fixpoint sleeps (log : list event) : list pyfloat :=
  match log with
  | [] => []
  | Sleep d :: log' => d :: sleeps log'
  | _ :: log' => sleeps log'
  end.



(** A server that refuses the first two sessions it is offered and accepts
    every later one; the world is the number of sessions so far. *)
Definition flaky_server (_ : Args) (_ : Message) (n : nat) : nat * option exn :=
  (S n, if (n <? 2)%nat then Some (SMTPError "timed out") else None).

Definition any_header (_ : string) : bool := true.

(** The defaults of the command line, for a given pause and retry delay. *)
Definition sample_args_with (seconds delay : pyfloat) : Args :=
  {| smtp_user := "outreach@example.org";
     smtp_password := "secret";
     smtp_host := "mail.postale.io";
     smtp_port := 587;
     implicit_tls := false;
     from_name := Some "Outreach";
     reply_to := None;
     pause := seconds;
     retries := 2;
     retry_delay := delay;
     timeout := 30 |}.

(** The same with the default pause of 15 seconds. *)
Definition sample_args (delay : Q) : Args :=
  sample_args_with (Finite 15) (Finite delay).

(** A sample clock with the argument checks of CPython's [time.sleep]:
    not a number and a negative length are refused with [ValueError], and
    a length that does not fit the signed 64-bit count of nanoseconds of
    the clock with [OverflowError]; every other length is slept.  It is
    used below at lengths far from that limit, where the conversion of
    CPython rounds. *)
Definition checked_sleep (d : pyfloat) : option exn :=
  match d with
  | NaN => Some (ValueError "Invalid value NaN (not a number)")
  | PosInf | NegInf =>
      Some (OverflowError "timestamp too large to convert to C _PyTime_t")
  | Finite q =>
      let ns := (q * inject_Z 1000000000)%Q in
      if negb (Qle_bool ns (inject_Z (2 ^ 63 - 1)))
         || negb (Qle_bool (inject_Z (- 2 ^ 63)) ns)
      then Some (OverflowError "timestamp too large to convert to C _PyTime_t")
      else if negb (Qle_bool 0 q)
      then Some (ValueError "sleep length must be non-negative")
      else None
  end.

Definition sample_recipient : dict string string :=
  build_context [("Rumah Sakit", "RS A"); ("Kab/Kota", "Jakarta");
                 ("Email Perusahaan", "a@rs.id")].

(** A server that refuses every session. *)
Definition dead_server (_ : Args) (_ : Message) (n : nat) : nat * option exn :=
  (S n, Some (SMTPError "connection refused")).

Definition sample_subject : string := "Kerja sama dengan $hospital".
Definition sample_body : string := "Yth. ${hospital} di $city".

(** The message [compose] builds for [sample_recipient]. *)
Definition sample_message : Message :=
  {| msg_from := "Outreach <outreach@example.org>";
     msg_to := "a@rs.id";
     msg_subject := "Kerja sama dengan RS A";
     msg_reply_to := None;
     msg_content := "Yth. RS A di Jakarta";
     msg_attachments := [] |}.

(** ** Shapes of strings *)

Definition is_underscore (c : ascii) : bool := Ascii.eqb c "_".

Definition starts_with (p : ascii -> bool) (s : string) : bool :=
  match s with
  | String c _ => p c
  | EmptyString => false
  end.

Fixpoint ends_with (p : ascii -> bool) (s : string) : bool :=
  match s with
  | EmptyString => false
  | String c EmptyString => p c
  | String _ r => ends_with p r
  end.

(** Two neighbouring characters that both satisfy [p]. *)
Fixpoint has_pair (p : ascii -> bool) (s : string) : bool :=
  match s with
  | String c (String d _ as r) => (p c && p d) || has_pair p r
  | _ => false
  end.

Fixpoint any_char (p : ascii -> bool) (s : string) : bool :=
  match s with
  | EmptyString => false
  | String c r => p c || any_char p r
  end.

(** A slug as [slugify] writes them: lower-case letters, digits and single
    underscores, the underscores only between other characters. *)
Definition slug_shaped (s : string) : bool :=
  all_chars (fun c => slug_char c || is_underscore c) s
  && negb (has_pair is_underscore s)
  && negb (starts_with is_underscore s)
  && negb (ends_with is_underscore s).

(** A character that [slugify] keeps, as a letter or digit. *)
Definition alnum (c : ascii) : bool := slug_char (Py.lower_char c).

(** ** Shapes of rows *)

(** The order in which a dict comes to hold the keys assigned to it in
    turn: each key stands where it was first assigned. *)
Definition insertion_order {K} `{EqDecision K} (ks : list K) : list K :=
  fold_left (fun acc k => if decide (k ∈ acc) then acc else (acc ++ [k])%list) ks [].

(** The header map of a workbook: the cells of its header row by column. *)
Definition header_columns (workbook : Workbook) : dict Z string :=
  match nonempty_rows workbook with
  | hdr :: _ => make_header_map (cells_of (workbook_shared workbook) hdr)
  | [] => []
  end.

(** The keys of the rows a workbook yields: its non-empty header texts in
    column order, a repeated text standing where it first occurs. *)
Definition row_keys (workbook : Workbook) : list string :=
  insertion_order (List.filter Py.truthy (header_columns workbook).*2).

(** A cell that is read: one with a usable reference. *)
Definition referenced (cell : Element) : bool :=
  bool_decide (is_Some (cell_column cell)).

(** A text that [strip] leaves as it is. *)
Definition trimmed (s : string) : Prop := Py.strip s = s.

(** The fixed keys of a context, in the order [build_context] writes them. *)
Definition fixed_keys : list string :=
  ["hospital"; "province"; "city"; "address"; "phone"; "owner"; "director";
   "email"].

(** ** Environment file *)

(** The line boundaries of [str.splitlines] on ASCII text: LF, VT, FF, CR,
    FS, GS and RS. *)
Definition is_linebreak (c : ascii) : bool :=
  Py.in_range 10 13 c || Py.in_range 28 30 c.

(** [s.splitlines()]: CR LF counts as one boundary, and a boundary at the
    very end opens no further line. *)
Fixpoint splitlines (s : string) : list string :=
  match s with
  | EmptyString => []
  | String c r =>
      if is_linebreak c then
        EmptyString ::
          (if Py.ord c =? 13 then
             match r with
             | String d r' => if Py.ord d =? 10 then splitlines r' else splitlines r
             | EmptyString => []
             end
           else splitlines r)
      else
        match splitlines r with
        | [] => [String c EmptyString]
        | l :: ls => String c l :: ls
        end
  end.

(** [s.split(sep, 1)] for a separator that occurs in [s]. *)
Fixpoint split_once (sep : ascii) (s : string) : string * string :=
  match s with
  | EmptyString => (EmptyString, EmptyString)
  | String c r =>
      if Ascii.eqb c sep then (EmptyString, r)
      else let '(a, b) := split_once sep r in (String c a, b)
  end.

(** The characters of the second [strip] of a value: the two quotes. *)
Definition is_quote (c : ascii) : bool :=
  (Py.ord c =? 39) || (Py.ord c =? 34).

Definition has_nul (s : string) : bool := any_char (fun c => Py.ord c =? 0) s.

(** The body of the loop of [load_env_file] for one line. The assignment
    [os.environ[key] = value] refuses a NUL character with [ValueError]. *)
Definition env_line (raw_line : string) (environ : dict string string)
  : dict string string * option exn :=
  let line := Py.strip raw_line in
  if negb (Py.truthy line) || starts_with (fun c => Ascii.eqb c "#") line
     || negb (Py.contains_char "=" line)
  then (environ, None)
  else
    let '(key, value) := split_once "=" line in
    let key := Py.strip key in
    if negb (Py.truthy key) || Dict.mem environ key then (environ, None)
    else
      let value := Py.strip_with is_quote (Py.strip value) in
      if has_nul key || has_nul value
      then (environ, Some (ValueError "embedded null byte"))
      else (Dict.set environ key value, None).

Fixpoint env_lines (lines : list string) (environ : dict string string)
  : dict string string * option exn :=
  match lines with
  | [] => (environ, None)
  | raw_line :: lines' =>
      match env_line raw_line environ with
      | (environ', None) => env_lines lines' environ'
      | stopped => stopped
      end
  end.

(** Populate os.environ with key=value pairs from a .env file if present.
    [content] is the text of the file, [None] when there is no file; the
    result is the environment afterwards and the exception raised, if any. *)
Definition load_env_file (content : option string) (environ : dict string string)
  : dict string string * option exn :=
  match content with
  | None => (environ, None)
  | Some text => env_lines (splitlines text) environ
  end.

(** The assignment a line asks for: [None] for a blank line, a comment, a
    line without [=] and a line with nothing before the [=]. *)
Definition env_binding (raw_line : string) : option (string * string) :=
  let line := Py.strip raw_line in
  if negb (Py.truthy line) || starts_with (fun c => Ascii.eqb c "#") line
     || negb (Py.contains_char "=" line)
  then None
  else
    let key := Py.strip (split_once "=" line).1 in
    if Py.truthy key
    then Some (key, Py.strip_with is_quote (Py.strip (split_once "=" line).2))
    else None.

(** The assignments of a file, line by line. *)
Definition file_bindings (content : option string) : list (string * string) :=
  match content with
  | None => []
  | Some text => omap env_binding (splitlines text)
  end.

(** ** Attachment loader *)

(** One entry of a directory listing: its name, whether it is a regular
    file, the bytes [read_bytes] gives for it and, for a file that cannot
    be read, the exception [read_bytes] raises instead. *)
Record DirEntry : Type := {
  entry_name : string;
  entry_is_file : bool;
  entry_bytes : string;
  entry_read_error : option exn
}.

(** What a path leads to: nothing, something that is no directory, a
    directory on which [exists], [is_dir] or [iterdir] raises [e], or a
    directory with its entries. *)
Inductive Location : Type :=
| Absent
| NotADirectory
| Unlistable (e : exn)
| Directory (entries : list DirEntry).

(** [path.read_bytes()] *)
Definition read_bytes (path : DirEntry) : result string :=
  match entry_read_error path with
  | Some e => Raise e
  | None => Ok (entry_bytes path)
  end.

(** The order of [sorted] on the paths of one directory: by name, character
    code by character code. *)
Definition name_le (a b : DirEntry) : Prop :=
  String.leb (entry_name a) (entry_name b) = true.

#[global] Instance name_le_dec : RelDecision name_le.
Proof. intros a b. unfold name_le. apply _. Defined.

(** [maintype, subtype = mime_type.split("/", 1)] when a type was guessed,
    the default otherwise; unpacking fails when the type has no [/]. *)
Definition mime_parts (mime_type : option string) : result (string * string) :=
  match mime_type with
  | Some t =>
      if Py.truthy t then
        if Py.contains_char "/" t then Ok (split_once "/" t)
        else Raise (ValueError "not enough values to unpack (expected 2, got 1)")
      else Ok ("application", "octet-stream")
  | None => Ok ("application", "octet-stream")
  end.

Section Attachments.
(** [mimetypes.guess_type(name)[0]] *)
Variable guess_type : string -> option string.

(** The loop of [load_attachments] over the sorted listing. *)
Fixpoint attach_loop (paths : list DirEntry) : result (list Attachment) :=
  match paths with
  | [] => Ok []
  | path :: paths' =>
      if negb (entry_is_file path) then attach_loop paths'
      else
        parts ← mime_parts (guess_type (entry_name path));
        data ← read_bytes path;
        rest ← attach_loop paths';
        Ok ({| att_filename := entry_name path;
               att_data := data;
               att_maintype := parts.1;
               att_subtype := parts.2 |} :: rest)
  end.

(** Load every regular file inside the directory into memory. *)
Definition load_attachments (directory : option (string * Location))
  : result (list Attachment) :=
  match directory with
  | None => Ok []
  | Some (path, Directory entries) => attach_loop (merge_sort name_le entries)
  | Some (path, Unlistable e) => Raise e
  | Some (path, _) =>
      Raise (FileNotFoundError
               ("Attachment directory " ++ path
                ++ " does not exist or is not a folder."))
  end.
End Attachments.

(** The regular files of a listing. *)
Definition regular_files (entries : list DirEntry) : list DirEntry :=
  List.filter entry_is_file entries.

(** A guess that [mime_parts] can unpack. *)
Definition unpackable (mime_type : option string) : bool :=
  is_ok (mime_parts mime_type).

(** ** Sessions of a run *)

(** The messages of the sessions of a log, in order. *)
Fixpoint sessions (log : list event) : list Message :=
  match log with
  | [] => []
  | Session m :: log' => m :: sessions log'
  | _ :: log' => sessions log'
  end.

(** What a failed attempt with a permitted retry writes to the log, for
    each of the exceptions [excs] in turn; [attempt] is the counter before
    the first of them. *)
Fixpoint retry_events (args : Args) (msg : Message) (email : string)
    (attempt : Z) (excs : list exn) : list event :=
  match excs with
  | [] => []
  | exc :: excs' =>
      Session msg
      :: Retrying email (exn_str exc) (float_times (retry_delay args) (attempt + 1))
      :: Sleep (float_times (retry_delay args) (attempt + 1))
      :: retry_events args msg email (attempt + 1) excs'
  end.

(** The backoff after the first, second, ..., [n]-th failed attempt. *)
Definition backoffs (args : Args) (n : nat) : list pyfloat :=
  (fun i => float_times (retry_delay args) (Z.of_nat i)) <$> seq 1 n.

Section Chain.
Context {World : Type}.
Variable smtp_session : Args -> Message -> World -> World * option exn.
Variable args : Args.
Variable msg : Message.

(** [refused w excs w']: from [w], the next sessions for [msg] raise the
    exceptions [excs] one after the other and leave the world [w']. *)
Inductive refused : World -> list exn -> World -> Prop :=
| refused_nil w : refused w [] w
| refused_cons w w1 w' exc excs :
    smtp_session args msg w = (w1, Some exc) ->
    refused w1 excs w' ->
    refused w (exc :: excs) w'.
End Chain.

(** The addresses of the progress lines of a log, in order. *)
Fixpoint progress_emails (log : list event) : list string :=
  match log with
  | [] => []
  | Sent _ _ email :: log' => email :: progress_emails log'
  | Failed _ _ email _ :: log' => email :: progress_emails log'
  | _ :: log' => progress_emails log'
  end.

(** The address of a context, the empty string when it has none. *)
Definition context_email (c : dict string string) : string :=
  Dict.get_default c "email" "".

(** ** The program *)

(** [recipients[skip:]] *)
Definition slice_from {A} (l : list A) (skip : Z) : list A :=
  if 0 <=? skip then drop (Z.to_nat skip) l
  else drop (Z.to_nat (Z.of_nat (length l) + skip)) l.

(** What [parse_args] returns besides the settings of the sender. *)
Record Options : Type := {
  opt_args : Args;
  opt_subject : string;
  opt_template : string;
  opt_recipients : string;
  opt_use_test_data : bool;
  opt_attachments_dir : option string;
  opt_limit : option Z;
  opt_skip : Z;
  opt_dry_run : bool;
  opt_preview : Z
}.

(** The files the program looks at: the archive at a path ([NoSuchFile]
    when nothing is there), the text of a file ([None] when it does not
    exist) and what a directory path leads to. *)
Record FileSystem : Type := {
  fs_workbook : string -> Workbook;
  fs_text : string -> option string;
  fs_location : string -> Location
}.

Definition path_exists (fs : FileSystem) (path : string) : bool :=
  match fs_workbook fs path with
  | NoSuchFile _ => false
  | _ => true
  end.

(** How [main] ends: [sys.exit(code)], a normal return, or an exception
    that nothing catches. *)
Inductive Outcome : Type :=
| Exit (code : Z)
| Returned
| Uncaught (e : exn).

Definition TEST_RECIPIENTS : string := "test.xlsx".

(** The two slices [main] applies to the loaded recipients. *)
Definition select_recipients {A} (skip : Z) (limit : option Z) (recipients : list A)
  : list A :=
  let recipients := if skip =? 0 then recipients else slice_from recipients skip in
  match limit with
  | Some n => slice_to recipients n
  | None => recipients
  end.

(** The workbook [main] reads: with [--use-test-data] the test workbook,
    which must exist. *)
Definition chosen_workbook (fs : FileSystem) (opts : Options) : option string :=
  if opt_use_test_data opts then
    if path_exists fs TEST_RECIPIENTS then Some TEST_RECIPIENTS else None
  else Some (opt_recipients opts).

(** The directory [load_attachments] is given, with what the path leads to. *)
Definition attachments_location (fs : FileSystem) (opts : Options)
  : option (string * Location) :=
  (fun p => (p, fs_location fs p)) <$> opt_attachments_dir opts.

Section Main.
Context {World : Type}.
Variable smtp_session : Args -> Message -> World -> World * option exn.
Variable time_sleep : pyfloat -> option exn.
Variable header_ok : string -> bool.
Variable guess_type : string -> option string.
Variable fs : FileSystem.

(** [main] after [load_env_file] and [parse_args]: the final world, the log
    of the sender, the previews shown and how the program ended ([None]: out
    of fuel).  The messages written to the standard error stream before an
    exit are left out; the template path leads to a readable text file or to
    nothing. *)
Definition main (opts : Options) (w : World)
  : option (World * list event * list preview * Outcome) :=
  let stop (o : Outcome) := Some (w, [], [], o) in
  match chosen_workbook fs opts with
  | None => stop (Exit 1)
  | Some workbook_path =>
      match fs_text fs (opt_template opts) with
      | None => stop (Exit 1)
      | Some template_text =>
          match load_recipients (fs_workbook fs workbook_path) with
          | Raise e => stop (Uncaught e)
          | Ok loaded =>
              let recipients :=
                select_recipients (opt_skip opts) (opt_limit opts) loaded in
              match recipients with
              | [] => stop (Exit 1)
              | _ =>
                  match load_attachments guess_type (attachments_location fs opts) with
                  | Raise (FileNotFoundError _) => stop (Exit 1)
                  | Raise e => stop (Uncaught e)
                  | Ok attachments =>
                      if opt_dry_run opts then
                        match preview_messages recipients (opt_subject opts)
                                template_text (opt_preview opts) with
                        | Ok shown => Some (w, [], shown, Returned)
                        | Raise e => stop (Uncaught e)
                        end
                      else
                        match send_messages smtp_session time_sleep header_ok
                                (opt_args opts)
                                (opt_subject opts) template_text attachments
                                recipients w with
                        | None => None
                        | Some (w', log, Ok _) => Some (w', log, [], Returned)
                        | Some (w', log, Raise e) => Some (w', log, [], Uncaught e)
                        end
                  end
              end
          end
      end
  end.
End Main.

(** ** More sample data *)

(** A server that accepts every session. *)
Definition willing_server (_ : Args) (_ : Message) (n : nat) : nat * option exn :=
  (S n, None).

Definition sample_guess_type (name : string) : option string :=
  if String.eqb name "a.pdf" then Some "application/pdf"
  else if String.eqb name "b.txt" then Some "text/plain"
  else None.

(** A directory with two files and a sub-directory, listed out of order. *)
Definition sample_entries : list DirEntry :=
  [ {| entry_name := "b.txt"; entry_is_file := true; entry_bytes := "notes";
       entry_read_error := None |};
    {| entry_name := "old"; entry_is_file := false; entry_bytes := "";
       entry_read_error := None |};
    {| entry_name := "a.pdf"; entry_is_file := true; entry_bytes := "%PDF";
       entry_read_error := None |} ].


Definition sample_files : FileSystem :=
  {| fs_workbook := fun p =>
       if String.eqb p "test.xlsx" then gap_book else NoSuchFile p;
     fs_text := fun p =>
       if String.eqb p "templates/outreach_email.txt" then Some sample_body
       else None;
     fs_location := fun p =>
       if String.eqb p "docs" then Directory sample_entries else Absent |}.

(** The defaults of the command line, with an attachment directory. *)
Definition sample_options (dry_run : bool) (skip : Z) : Options :=
  {| opt_args := sample_args 5;
     opt_subject := sample_subject;
     opt_template := "templates/outreach_email.txt";
     opt_recipients := "test.xlsx";
     opt_use_test_data := false;
     opt_attachments_dir := Some "docs";
     opt_limit := None;
     opt_skip := skip;
     opt_dry_run := dry_run;
     opt_preview := 3 |}.

(** The log of [send_one] for [sample_recipient] with [flaky_server]. *)
Definition sample_retry_log : list event :=
  [ Session sample_message;
    Retrying "a@rs.id" "timed out" (Finite (5 * inject_Z 1));
    Sleep (Finite (5 * inject_Z 1));
    Session sample_message;
    Retrying "a@rs.id" "timed out" (Finite (5 * inject_Z 2));
    Sleep (Finite (5 * inject_Z 2));
    Session sample_message ].

(** One line of an environment file, with blanks and quotes to strip. *)
Definition sample_env : string := "SMTP_HOST = 'mail.postale.io' ".

(** The recipient [load_recipients] gives for [gap_book]. *)
Definition gap_recipient : dict string string :=
  build_context [("Rumah Sakit", "RS A"); ("Kab/Kota", "");
                 ("Email Perusahaan", "a@rs.id")].

(** * Properties *)

(** ** Cell values *)

Lemma shared_at_in_range (shared : list string) (idx : Z) (s : string) :
  0 <= idx -> shared !! Z.to_nat idx = Some s -> shared_at shared idx = s.
Proof.
  intros Hidx Hs. unfold shared_at.
  pose proof (lookup_lt_Some _ _ _ Hs) as Hlt.
  rewrite (proj2 (Z.leb_le 0 idx) Hidx).
  rewrite (proj2 (Z.ltb_lt idx _)) by lia.
  simpl. apply nth_lookup_Some with (d := "") in Hs. exact Hs.
Qed.

Lemma shared_at_out_of_range (shared : list string) (idx : Z) :
  idx < 0 \/ Z.of_nat (length shared) <= idx -> shared_at shared idx = "".
Proof.
  intros H. unfold shared_at.
  destruct (0 <=? idx) eqn:E1; [|reflexivity].
  destruct (idx <? Z.of_nat (length shared)) eqn:E2; [|reflexivity].
  apply Z.leb_le in E1. apply Z.ltb_lt in E2. lia.
Qed.

Lemma read_cell_value_other (cell : Element) (shared : list string) :
  get cell "t" <> Some "s" -> get cell "t" <> Some "inlineStr" ->
  get cell "t" <> Some "b" ->
  read_cell_value cell shared =
    Ok (match value_text cell with
        | Some t => t
        | None => default "" (plain_text cell)
        end).
Proof.
  intros Hs Hi Hb. unfold read_cell_value, value_text, plain_text, findtext.
  repeat (case_decide; [congruence|]).
  destruct (find cell (NS ++ "v")) as [[? ? [t|] ? ?]|]; simpl; try reflexivity;
    destruct (find cell (NS ++ "t")) as [[? ? [[|c t]|] ? ?]|]; reflexivity.
Qed.

(** C1. The value of a cell follows its type attribute: ["s"] reads the
    shared string at the integer index held by the value element, and an
    index outside the table (like a missing value) gives the empty string
    without raising;
    ["inlineStr"] gives the joined inline text; ["b"] gives ["TRUE"] when the
    value text is ["1"] and ["FALSE"] otherwise; every other type gives the
    value text, else the text of the plain text element, else the empty
    string. *)
Theorem read_cell_value_dispatch (cell : Element) (shared : list string) :
  (get cell "t" = Some "s" ->
   (value_text cell = None -> read_cell_value cell shared = Ok "") /\
   (forall t idx, value_text cell = Some t -> Py.int t = Some idx ->
      (forall s, 0 <= idx -> shared !! Z.to_nat idx = Some s ->
         read_cell_value cell shared = Ok s) /\
      (idx < 0 \/ Z.of_nat (length shared) <= idx ->
         read_cell_value cell shared = Ok ""))) /\
  (get cell "t" = Some "inlineStr" ->
   read_cell_value cell shared =
     Ok (match find cell (NS ++ "is") with
         | Some inline => Py.join (itertext inline)
         | None => ""
         end)) /\
  (get cell "t" = Some "b" ->
   read_cell_value cell shared =
     Ok (if decide (value_text cell = Some "1") then "TRUE" else "FALSE")) /\
  (get cell "t" <> Some "s" -> get cell "t" <> Some "inlineStr" ->
   get cell "t" <> Some "b" ->
   read_cell_value cell shared =
     Ok (match value_text cell with
         | Some t => t
         | None => default "" (plain_text cell)
         end)).
Proof.
  split; [|split; [|split]].
  - intros Ht. unfold read_cell_value, value_text.
    rewrite decide_True by exact Ht.
    destruct (find cell (NS ++ "v")) as [v|]; simpl.
    + split.
      * by intros ->.
      * intros t idx -> ->. split.
        -- intros s Hidx Hs. f_equal. by apply shared_at_in_range.
        -- intros Hout. f_equal. by apply shared_at_out_of_range.
    + split; [done|]. intros t idx Hv. discriminate Hv.
  - intros Ht. unfold read_cell_value.
    rewrite decide_False by congruence.
    rewrite decide_True by exact Ht.
    by destruct (find cell (NS ++ "is")).
  - intros Ht. unfold read_cell_value, value_text.
    rewrite decide_False by congruence.
    rewrite decide_False by congruence.
    rewrite decide_True by exact Ht.
    destruct (find cell (NS ++ "v")) as [v|]; simpl; [|reflexivity].
    repeat case_decide; congruence.
  - apply read_cell_value_other.
Qed.

Lemma read_cell_value_dispatch_witness :
  read_cell_value (xml_typed_cell "A1" "s" "7") ["a"; "b"] = Ok "" /\
  read_cell_value (xml_typed_cell "A1" "s" " 1 ") ["a"; "b"] = Ok "b" /\
  read_cell_value (xml_typed_cell "A1" "b" "1") [] = Ok "TRUE" /\
  read_cell_value (xml_typed_cell "A1" "b" "true") [] = Ok "FALSE" /\
  read_cell_value (xml_cell "A1" "42") [] = Ok "42".
Proof.
  repeat apply conj.
  - destruct (read_cell_value_dispatch (xml_typed_cell "A1" "s" "7") ["a"; "b"])
      as (Hs & _).
    apply (proj2 (Hs eq_refl) "7" 7 eq_refl eq_refl). right. simpl. lia.
  - destruct (read_cell_value_dispatch (xml_typed_cell "A1" "s" " 1 ") ["a"; "b"])
      as (Hs & _).
    apply (proj2 (Hs eq_refl) " 1 " 1 eq_refl eq_refl); [lia|reflexivity].
  - destruct (read_cell_value_dispatch (xml_typed_cell "A1" "b" "1") [])
      as (_ & _ & Hb & _).
    exact (Hb eq_refl).
  - destruct (read_cell_value_dispatch (xml_typed_cell "A1" "b" "true") [])
      as (_ & _ & Hb & _).
    exact (Hb eq_refl).
  - destruct (read_cell_value_dispatch (xml_cell "A1" "42") [])
      as (_ & _ & _ & Ho).
    apply Ho; discriminate.
Defined.

(** ** Dictionaries *)

Section DictFacts.
Context {K V : Type} `{EqDecision K}.
Implicit Types (d items : list (K * V)) (k : K) (v : V).

Lemma dict_get_set_eq d k v : Dict.get (Dict.set d k v) k = Some v.
Proof.
  induction d as [|[k' v'] d IH]; simpl.
  - by rewrite decide_True.
  - destruct (decide (k' = k)) as [->|Hne]; simpl.
    + by rewrite decide_True.
    + by rewrite decide_False.
Qed.

Lemma dict_get_set_ne d k k' v :
  k <> k' -> Dict.get (Dict.set d k v) k' = Dict.get d k'.
Proof.
  intros Hne. induction d as [|[k0 v0] d IH]; simpl.
  - by rewrite decide_False.
  - destruct (decide (k0 = k)) as [->|Hne0]; simpl.
    + by rewrite !decide_False.
    + destruct (decide (k0 = k')); [done|apply IH].
Qed.

Lemma dict_get_Some_elem d k v : Dict.get d k = Some v -> (k, v) ∈ d.
Proof.
  induction d as [|[k' v'] d IH]; simpl; [done|].
  destruct (decide (k' = k)) as [->|Hne].
  - intros [= ->]. left.
  - intros H'. right. by apply IH.
Qed.

Lemma dict_get_None d k : Dict.get d k = None <-> k ∉ d.*1.
Proof.
  induction d as [|[k' v'] d IH]; simpl.
  - split; [intros _; apply not_elem_of_nil|done].
  - rewrite not_elem_of_cons. destruct (decide (k' = k)) as [->|Hne].
    + split; [done|intros [? _]; done].
    + rewrite IH. split; [intros ?; split; [congruence|done]|intros [_ ?]; done].
Qed.

Lemma dict_get_is_Some d k : is_Some (Dict.get d k) <-> k ∈ d.*1.
Proof.
  destruct (Dict.get d k) eqn:E.
  - split; [intros _|eauto]. apply dict_get_Some_elem in E.
    apply list_elem_of_fmap. by exists (k, v).
  - apply dict_get_None in E. split; [intros [? ?]; done|done].
Qed.

Lemma dict_get_nodup d k v : NoDup d.*1 -> (k, v) ∈ d -> Dict.get d k = Some v.
Proof.
  induction d as [|[k' v'] d IH]; simpl.
  - intros _ H'. by apply elem_of_nil in H'.
  - rewrite NoDup_cons. intros [Hnot Hnd] Hin.
    apply elem_of_cons in Hin as [[= -> ->]|Hin].
    + by rewrite decide_True.
    + rewrite decide_False; [by apply IH|].
      intros ->. apply Hnot. apply list_elem_of_fmap. by exists (k, v).
Qed.

Lemma dict_set_keys d k v :
  Dict.keys (Dict.set d k v) =
    if Dict.mem d k then Dict.keys d else (Dict.keys d ++ [k])%list.
Proof.
  unfold Dict.mem, Dict.keys. induction d as [|[k' v'] d IH]; [done|].
  cbn [Dict.set Dict.get]. destruct (decide (k' = k)) as [->|Hne]; [done|].
  rewrite !fmap_cons, IH. by destruct (Dict.get d k).
Qed.

Lemma dict_set_nodup d k v : NoDup (Dict.keys d) -> NoDup (Dict.keys (Dict.set d k v)).
Proof.
  intros Hnd. rewrite dict_set_keys. unfold Dict.mem, Dict.keys in *.
  destruct (Dict.get d k) eqn:E; [done|].
  apply dict_get_None in E. apply NoDup_app. split; [done|]. split.
  - intros x Hx Hk. apply list_elem_of_singleton in Hk as ->. by apply E.
  - apply NoDup_singleton.
Qed.

Lemma dict_set_truthy d k v : Dict.truthy (Dict.set d k v) = true.
Proof. destruct d as [|[k' v'] d]; simpl; [done|]. by destruct (decide (k' = k)). Qed.

Lemma dict_update_snoc d items k v :
  Dict.update d (items ++ [(k, v)]) = Dict.set (Dict.update d items) k v.
Proof. unfold Dict.update. by rewrite fold_left_app. Qed.

(** Later items win: looking a key up after a comprehension finds the
    last item that carries it. *)
Lemma dict_get_update d items k :
  Dict.get (Dict.update d items) k =
    match Dict.get (reverse items) k with
    | Some v => Some v
    | None => Dict.get d k
    end.
Proof.
  induction items as [|[k' v'] items IH] using rev_ind; [done|].
  rewrite dict_update_snoc, reverse_snoc. simpl.
  destruct (decide (k' = k)) as [->|Hne].
  - apply dict_get_set_eq.
  - rewrite dict_get_set_ne by done. apply IH.
Qed.

Lemma dict_update_truthy d items :
  Dict.truthy (Dict.update d items) = Dict.truthy d || Dict.truthy items.
Proof.
  induction items as [|[k v] items IH] using rev_ind.
  - simpl. by rewrite orb_false_r.
  - rewrite dict_update_snoc, dict_set_truthy.
    destruct items; simpl; by rewrite orb_true_r.
Qed.

Lemma dict_update_fresh d items :
  NoDup (d.*1 ++ items.*1) -> Dict.update d items = (d ++ items)%list.
Proof.
  revert d. induction items as [|[k v] items IH]; intros d Hnd; simpl.
  - by rewrite app_nil_r.
  - change (Dict.update (Dict.set d k v) items = (d ++ (k, v) :: items)%list).
    assert (Dict.set d k v = (d ++ [(k, v)])%list) as ->.
    { simpl in Hnd. apply NoDup_app in Hnd as (_ & Hdis & _).
      assert (k ∉ d.*1) as Hk by (intros Hin; apply (Hdis k Hin); left).
      clear -Hk. induction d as [|[k' v'] d IHd]; simpl; [done|].
      apply not_elem_of_cons in Hk as [Hne Hk].
      rewrite decide_False by done. by rewrite IHd. }
    rewrite IH; [by rewrite <- app_assoc|].
    rewrite fmap_app. simpl. by rewrite <- app_assoc.
Qed.

Lemma dict_of_items_nodup items : NoDup items.*1 -> Dict.of_items items = items.
Proof. intros Hnd. unfold Dict.of_items. by rewrite dict_update_fresh. Qed.

(** When every item carrying [k] carries the same value, that value is
    what the comprehension stores under [k]. *)
Lemma dict_of_items_agree items k v :
  (k, v) ∈ items -> (forall v', (k, v') ∈ items -> v' = v) ->
  Dict.get (Dict.of_items items) k = Some v.
Proof.
  intros Hin Hall. unfold Dict.of_items. rewrite dict_get_update. simpl.
  destruct (Dict.get (reverse items) k) as [v'|] eqn:E.
  - apply dict_get_Some_elem in E. f_equal. apply Hall.
    by rewrite elem_of_reverse in E.
  - apply dict_get_None in E. exfalso. apply E.
    apply list_elem_of_fmap. exists (k, v). split; [done|].
    by rewrite elem_of_reverse.
Qed.

Lemma dict_of_items_keys items k :
  k ∈ (Dict.of_items items).*1 <-> k ∈ items.*1.
Proof.
  rewrite <- !dict_get_is_Some. unfold Dict.of_items.
  rewrite dict_get_update. simpl.
  assert (is_Some (Dict.get (reverse items) k) <-> is_Some (Dict.get items k)) as Hrev.
  { rewrite !dict_get_is_Some. by rewrite fmap_reverse, elem_of_reverse. }
  destruct (Dict.get (reverse items) k) eqn:E.
  - split; [intros _; apply Hrev; eauto|eauto].
  - split; [intros [? ?]; done|]. intros Hs. apply Hrev in Hs as [? ?]; done.
Qed.
End DictFacts.

(** ** Trimming *)

Section Strip.
Variable p : ascii -> bool.

Lemma lstrip_not_start (s : string) : starts_with p (Py.lstrip_with p s) = false.
Proof.
  induction s as [|c r IH]; [done|]. simpl. by destruct (p c) eqn:E; simpl.
Qed.

Lemma lstrip_fixed (s : string) :
  starts_with p s = false -> Py.lstrip_with p s = s.
Proof. destruct s as [|c r]; [done|]. simpl. by intros ->. Qed.

Lemma rstrip_not_end (s : string) : ends_with p (Py.rstrip_with p s) = false.
Proof.
  induction s as [|c r IH]; [done|]. cbn [Py.rstrip_with].
  destruct (Py.rstrip_with p r) as [|d x]; [|exact IH].
  by destruct (p c) eqn:E; simpl.
Qed.

Lemma rstrip_fixed (s : string) :
  ends_with p s = false -> Py.rstrip_with p s = s.
Proof.
  induction s as [|c r IH]; [done|]. cbn [Py.rstrip_with].
  destruct r as [|d r'].
  - simpl. by intros ->.
  - intros He. by rewrite IH.
Qed.

Lemma rstrip_keeps_start (s : string) :
  starts_with p s = false -> starts_with p (Py.rstrip_with p s) = false.
Proof.
  destruct s as [|c r]; [done|]. cbn [Py.rstrip_with]. simpl. intros Hc.
  destruct (Py.rstrip_with p r); [by rewrite Hc|done].
Qed.

Lemma strip_with_shape (s : string) :
  starts_with p (Py.strip_with p s) = false /\
  ends_with p (Py.strip_with p s) = false.
Proof.
  unfold Py.strip_with. split.
  - apply rstrip_keeps_start, lstrip_not_start.
  - apply rstrip_not_end.
Qed.

Lemma strip_with_fixed (s : string) :
  starts_with p s = false -> ends_with p s = false -> Py.strip_with p s = s.
Proof.
  intros Hs He. unfold Py.strip_with. rewrite lstrip_fixed by done.
  by apply rstrip_fixed.
Qed.

(** Trimming twice is trimming once. *)
Lemma strip_with_idem (s : string) :
  Py.strip_with p (Py.strip_with p s) = Py.strip_with p s.
Proof. destruct (strip_with_shape s). by apply strip_with_fixed. Qed.

Variable q : ascii -> bool.

Lemma lstrip_all_chars (s : string) :
  all_chars q s = true -> all_chars q (Py.lstrip_with p s) = true.
Proof.
  induction s as [|c r IH]; [done|]. simpl. intros H.
  destruct (p c); [|done]. apply andb_true_iff in H as [_ H]. by apply IH.
Qed.

Lemma rstrip_all_chars (s : string) :
  all_chars q s = true -> all_chars q (Py.rstrip_with p s) = true.
Proof.
  induction s as [|c r IH]; [done|]. cbn [Py.rstrip_with all_chars]. intros H.
  apply andb_true_iff in H as [Hc H]. specialize (IH H).
  destruct (Py.rstrip_with p r) as [|d x].
  - destruct (p c); [done|]. simpl. by rewrite Hc.
  - cbn [all_chars]. by rewrite Hc.
Qed.

Lemma lstrip_no_pair (s : string) :
  has_pair q s = false -> has_pair q (Py.lstrip_with p s) = false.
Proof.
  induction s as [|c r IH]; [done|]. cbn [Py.lstrip_with]. intros H.
  destruct (p c); [|done]. apply IH. destruct r as [|d r']; [done|].
  cbn [has_pair] in H. by apply orb_false_iff in H as [_ H].
Qed.

Lemma rstrip_cons (c : ascii) (r : string) :
  Py.rstrip_with p (String c r) =
    match Py.rstrip_with p r with
    | EmptyString => if p c then EmptyString else String c EmptyString
    | String d x => String c (String d x)
    end.
Proof. reflexivity. Qed.

Lemma rstrip_head (d : ascii) (r : string) :
  Py.rstrip_with p (String d r) = "" \/
  exists x, Py.rstrip_with p (String d r) = String d x.
Proof.
  rewrite rstrip_cons. destruct (Py.rstrip_with p r); [destruct (p d)|]; eauto.
Qed.

Lemma rstrip_no_pair (s : string) :
  has_pair q s = false -> has_pair q (Py.rstrip_with p s) = false.
Proof.
  induction s as [|c r IH]; [done|]. intros H. rewrite rstrip_cons.
  destruct r as [|d r'].
  - simpl. by destruct (p c).
  - cbn [has_pair] in H. apply orb_false_iff in H as [Hcd H]. specialize (IH H).
    destruct (rstrip_head d r') as [->|[x Hx]]; [by destruct (p c)|].
    rewrite Hx in IH |- *.
    change (has_pair q (String c (String d x)))
      with ((q c && q d) || has_pair q (String d x)).
    by rewrite Hcd, IH.
Qed.

Lemma lstrip_any_char (s : string) :
  (forall c, p c = true -> q c = false) ->
  any_char q (Py.lstrip_with p s) = any_char q s.
Proof.
  intros Hpq. induction s as [|c r IH]; [done|]. simpl.
  destruct (p c) eqn:E; [|done]. by rewrite IH, (Hpq _ E).
Qed.

Lemma rstrip_any_char (s : string) :
  (forall c, p c = true -> q c = false) ->
  any_char q (Py.rstrip_with p s) = any_char q s.
Proof.
  intros Hpq. induction s as [|c r IH]; [done|]. cbn [Py.rstrip_with any_char].
  rewrite <- IH. destruct (Py.rstrip_with p r) as [|d x]; [|done].
  destruct (p c) eqn:E; simpl; [by rewrite (Hpq _ E)|done].
Qed.

Lemma lstrip_all_stripped (s : string) :
  all_chars p s = true -> Py.lstrip_with p s = "".
Proof.
  induction s as [|c r IH]; [done|]. simpl. intros H.
  apply andb_true_iff in H as [-> H]. by apply IH.
Qed.
End Strip.

(** [s.strip()] leaves nothing to strip: stripping a stripped text
    changes nothing, and the stripped text neither starts nor ends with
    white space. *)
Lemma strip_idempotent (s : string) :
  Py.strip (Py.strip s) = Py.strip s /\
  starts_with Py.is_space (Py.strip s) = false /\
  ends_with Py.is_space (Py.strip s) = false.
Proof.
  split; [apply strip_with_idem|apply strip_with_shape].
Qed.

(** ** Column labels *)

Lemma truthy_true (s : string) : Py.truthy s = true <-> s <> "".
Proof. destruct s; simpl; split; congruence. Qed.

Lemma upper_char_upper (c : ascii) : Py.is_upper c = true -> Py.upper_char c = c.
Proof.
  unfold Py.upper_char, Py.is_upper, Py.is_lower, Py.in_range. intros H.
  apply andb_true_iff in H as [H1 H2]. apply Z.leb_le in H1, H2.
  destruct (97 <=? Py.ord c) eqn:E; [|reflexivity].
  apply Z.leb_le in E. lia.
Qed.

Lemma upper_digit_range (c : ascii) :
  Py.is_upper c = true -> 1 <= Py.ord c - 64 <= 26.
Proof.
  unfold Py.is_upper, Py.in_range. intros H.
  apply andb_true_iff in H as [H1 H2]. apply Z.leb_le in H1, H2. lia.
Qed.

Lemma span_upper_all (s u rest : string) :
  span_upper s = (u, rest) -> all_chars Py.is_upper u = true.
Proof.
  revert u rest. induction s as [|c s IH]; intros u rest; simpl.
  - by intros [= <- <-].
  - destruct (Py.is_upper c) eqn:E.
    + destruct (span_upper s) as [u' rest'] eqn:Es. intros [= <- <-]. simpl.
      rewrite E. simpl. by eapply IH.
    + by intros [= <- <-].
Qed.

Lemma cell_ref_match_upper (ref letters : string) :
  cell_ref_match ref = Some letters ->
  all_chars Py.is_upper letters = true /\ letters <> "".
Proof.
  unfold cell_ref_match. destruct (span_upper ref) as [u rest] eqn:E.
  destruct u as [|c u]; [done|]. destruct rest as [|d rest]; [done|].
  destruct (Py.is_digit d); [|done]. intros [= <-].
  split; [by eapply span_upper_all|done].
Qed.

Lemma column_loop_base26 (letters : string) (index : Z) :
  all_chars Py.is_upper letters = true ->
  column_loop index letters =
    index * 26 ^ Z.of_nat (String.length letters) + base26 letters.
Proof.
  revert index. induction letters as [|c r IH]; intros index Hup.
  - simpl. lia.
  - simpl in Hup. apply andb_true_iff in Hup as [Hc Hr].
    cbn [column_loop base26 String.length]. rewrite upper_char_upper by done.
    rewrite IH by done. rewrite Nat2Z.inj_succ, Z.pow_succ_r by lia. ring.
Qed.

Lemma base26_pos (letters : string) :
  all_chars Py.is_upper letters = true -> letters <> "" -> 1 <= base26 letters.
Proof.
  destruct letters as [|c r]; [done|]. intros Hup _.
  simpl in Hup. apply andb_true_iff in Hup as [Hc Hr].
  assert (0 <= base26 r) as Hr0.
  { clear Hc. induction r as [|c' r IH]; simpl; [lia|].
    simpl in Hr. apply andb_true_iff in Hr as [Hc' Hr].
    pose proof (upper_digit_range _ Hc'). specialize (IH Hr).
    assert (0 < 26 ^ Z.of_nat (String.length r)) by (apply Z.pow_pos_nonneg; lia).
    nia. }
  pose proof (upper_digit_range _ Hc).
  cbn [base26].
  assert (0 < 26 ^ Z.of_nat (String.length r)) by (apply Z.pow_pos_nonneg; lia).
  nia.
Qed.

Lemma pow26_labels (n : nat) : 26 ^ Z.of_nat n = 25 * labels_below n + 1.
Proof.
  induction n as [|n IH]; [done|].
  rewrite Nat2Z.inj_succ, Z.pow_succ_r by lia. cbn [labels_below]. lia.
Qed.

Lemma labels_below_mono (n m : nat) :
  (n <= m)%nat -> labels_below n <= labels_below m.
Proof.
  assert (forall k, 0 <= labels_below k) as Hpos
    by (induction k; cbn [labels_below]; lia).
  induction 1 as [|m Hle IH]; [lia|]. cbn [labels_below].
  specialize (Hpos m). lia.
Qed.

(** Labels of [n] letters have the values from [labels_below n] (not
    included) up to [labels_below (n + 1)] (not included), shifted by one. *)
Lemma base26_bounds (letters : string) :
  all_chars Py.is_upper letters = true ->
  labels_below (String.length letters) <= base26 letters
    <= 26 * labels_below (String.length letters).
Proof.
  induction letters as [|c r IH]; intros Hup; [simpl; lia|].
  simpl in Hup. apply andb_true_iff in Hup as [Hc Hr]. specialize (IH Hr).
  pose proof (upper_digit_range _ Hc). pose proof (pow26_labels (String.length r)).
  cbn [base26 String.length labels_below]. nia.
Qed.

Lemma ord_inj (c d : ascii) : Py.ord c = Py.ord d -> c = d.
Proof.
  unfold Py.ord. intros H. apply N2Z.inj in H.
  by rewrite <- (ascii_N_embedding c), <- (ascii_N_embedding d), H.
Qed.

Lemma base26_inj_same_length (a b : string) :
  all_chars Py.is_upper a = true -> all_chars Py.is_upper b = true ->
  String.length a = String.length b -> base26 a = base26 b -> a = b.
Proof.
  revert b. induction a as [|c a IH]; intros [|d b] Ha Hb Hlen Heq; try done.
  simpl in Ha, Hb. apply andb_true_iff in Ha as [Hc Ha].
  apply andb_true_iff in Hb as [Hd Hb]. injection Hlen as Hlen.
  cbn [base26] in Heq. rewrite Hlen in Heq.
  pose proof (upper_digit_range _ Hc). pose proof (upper_digit_range _ Hd).
  pose proof (base26_bounds _ Ha) as Ba. pose proof (base26_bounds _ Hb) as Bb.
  rewrite Hlen in Ba. pose proof (pow26_labels (String.length b)) as Hpow.
  assert (Py.ord c - 64 = Py.ord d - 64) as Hdigit by nia.
  assert (base26 a = base26 b) as Hrest by nia.
  f_equal; [apply ord_inj; lia|by apply IH].
Qed.

Lemma base26_length (a b : string) :
  all_chars Py.is_upper a = true -> all_chars Py.is_upper b = true ->
  base26 a = base26 b -> String.length a = String.length b.
Proof.
  intros Ha Hb Heq.
  pose proof (base26_bounds _ Ha) as Ba. pose proof (base26_bounds _ Hb) as Bb.
  destruct (Nat.lt_trichotomy (String.length a) (String.length b))
    as [Hlt|[Heq'|Hlt]]; [|done|].
  - pose proof (labels_below_mono (S (String.length a)) (String.length b) Hlt).
    cbn [labels_below] in *. lia.
  - pose proof (labels_below_mono (S (String.length b)) (String.length a) Hlt).
    cbn [labels_below] in *. lia.
Qed.

(** Two column labels with the same index are the same label. *)
Lemma column_letters_to_index_inj (a b : string) :
  all_chars Py.is_upper a = true -> all_chars Py.is_upper b = true ->
  column_letters_to_index a = column_letters_to_index b -> a = b.
Proof.
  intros Ha Hb. unfold column_letters_to_index.
  rewrite !column_loop_base26 by done. intros Heq.
  assert (base26 a = base26 b) as Hv by lia.
  apply base26_inj_same_length; try done. by apply base26_length.
Qed.

(** ** The cells of a row *)

Lemma read_cells_cons (shared : list string) (cell : Element) (cs : list Element)
    (d : dict Z string) :
  read_cells shared (cell :: cs) d =
    match cell_column cell with
    | None => read_cells shared cs d
    | Some col =>
        v ← read_cell_value cell shared;
        read_cells shared cs (Dict.set d col (Py.strip v))
    end.
Proof.
  unfold cell_column. simpl. destruct (get cell "r") as [ref|]; [|done].
  destruct (Py.truthy ref); simpl; [|done].
  by destruct (cell_ref_match ref).
Qed.

(** A row's dictionary is addressed by column: what is stored under [idx]
    is the text of the last cell whose reference names that column, whatever
    other cells the row has. *)
Lemma read_cells_lookup (shared : list string) (cs : list Element)
    (d cells : dict Z string) (idx : Z) :
  read_cells shared cs d = Ok cells ->
  match cell_at cs idx with
  | Some c => exists v, read_cell_value c shared = Ok v /\
                        Dict.get cells idx = Some (Py.strip v)
  | None => Dict.get cells idx = Dict.get d idx
  end.
Proof.
  revert d. induction cs as [|c cs IH]; intros d.
  - simpl. by intros [= ->].
  - rewrite read_cells_cons. cbn [cell_at].
    destruct (cell_column c) as [col|] eqn:Ecol.
    + destruct (read_cell_value c shared) as [v|e] eqn:Ev; [|done].
      simpl. intros Hrest. specialize (IH _ Hrest).
      destruct (cell_at cs idx) as [c'|]; [done|].
      destruct (decide (Some col = Some idx)) as [[= ->]|Hne].
      * exists v. split; [done|]. by rewrite IH, dict_get_set_eq.
      * rewrite IH. apply dict_get_set_ne. congruence.
    + intros Hrest. specialize (IH _ Hrest).
      destruct (cell_at cs idx) as [c'|]; [done|].
      by rewrite decide_False.
Qed.

Lemma read_cells_truthy (shared : list string) (cs : list Element)
    (d cells : dict Z string) :
  read_cells shared cs d = Ok cells ->
  Dict.truthy cells =
    Dict.truthy d || existsb (fun c => bool_decide (is_Some (cell_column c))) cs.
Proof.
  revert d. induction cs as [|c cs IH]; intros d.
  - simpl. intros [= ->]. by rewrite orb_false_r.
  - rewrite read_cells_cons. cbn [existsb].
    destruct (cell_column c) as [col|] eqn:Ecol.
    + destruct (read_cell_value c shared) as [v|e]; [|done]. simpl.
      intros Hrest. rewrite (IH _ Hrest), dict_set_truthy.
      rewrite ?bool_decide_true by eauto. simpl. by rewrite orb_true_r.
    + intros Hrest. rewrite (IH _ Hrest).
      rewrite bool_decide_false; [done|]. by intros [? ?].
Qed.

Lemma read_cells_nodup (shared : list string) (cs : list Element)
    (d cells : dict Z string) :
  read_cells shared cs d = Ok cells -> NoDup (Dict.keys d) -> NoDup (Dict.keys cells).
Proof.
  revert d. induction cs as [|c cs IH]; intros d.
  - simpl. by intros [= ->].
  - rewrite read_cells_cons. destruct (cell_column c) as [col|]; [|apply IH].
    destruct (read_cell_value c shared) as [v|e]; [|done]. simpl.
    intros Hrest Hnd. apply (IH _ Hrest). by apply dict_set_nodup.
Qed.

Lemma row_cells_truthy (shared : list string) (row : Element) (cells : dict Z string) :
  row_cells shared row = Ok cells -> Dict.truthy cells = has_cells row.
Proof. intros H. apply read_cells_truthy in H. by rewrite H. Qed.

Lemma row_cells_nodup (shared : list string) (row : Element) (cells : dict Z string) :
  row_cells shared row = Ok cells -> NoDup (Dict.keys cells).
Proof. intros H. eapply read_cells_nodup; [exact H|]. apply NoDup_nil_2. Qed.

(** ** Header map and row dictionaries *)

Lemma dict_rebuild (cells : dict Z string) :
  NoDup (Dict.keys cells) ->
  (fun idx => (idx, Dict.get_default cells idx "")) <$> Dict.keys cells = cells.
Proof.
  intros Hnd. unfold Dict.keys. rewrite <- list_fmap_compose.
  rewrite <- (list_fmap_id cells) at 2. apply list_fmap_ext.
  intros i [k v] Hin. simpl. unfold Dict.get_default.
  apply list_elem_of_lookup_2 in Hin. by rewrite (dict_get_nodup _ _ _ Hnd Hin).
Qed.

(** The header map holds the cells of the header row, ordered by column. *)
Lemma make_header_map_perm (cells : dict Z string) :
  NoDup (Dict.keys cells) -> make_header_map cells ≡ₚ cells.
Proof.
  intros Hnd. unfold make_header_map.
  assert (sorted_keys cells ≡ₚ Dict.keys cells) as Hperm
    by apply merge_sort_Permutation.
  rewrite dict_of_items_nodup.
  - rewrite <- (dict_rebuild cells Hnd) at 2.
    change (List.map ?f ?l) with (f <$> l). by rewrite Hperm.
  - change (List.map ?f ?l) with (f <$> l).
    rewrite <- list_fmap_compose. simpl.
    rewrite (list_fmap_ext _ id (sorted_keys cells)) by done.
    rewrite list_fmap_id. by rewrite Hperm.
Qed.

Lemma make_row_dict_truthy (hm cells : dict Z string) :
  Dict.truthy (make_row_dict hm cells) = existsb (fun ih => Py.truthy ih.2) hm.
Proof.
  unfold make_row_dict, Dict.of_items. rewrite dict_update_truthy. simpl.
  induction hm as [|[i h] hm IH]; simpl; [done|].
  destruct (Py.truthy h); simpl; [done|exact IH].
Qed.

(** A value is filed under the header of its own column: the entry for
    header [h] of column [idx] is the row's text at [idx], provided no other
    column carries the same header. *)
Lemma make_row_dict_lookup (hm cells : dict Z string) (idx : Z) (h : string) :
  (idx, h) ∈ hm -> h <> "" ->
  (forall idx', (idx', h) ∈ hm -> idx' = idx) ->
  Dict.get (make_row_dict hm cells) h =
    Some (Py.strip (Dict.get_default cells idx "")).
Proof.
  intros Hin Hne Huniq. unfold make_row_dict. apply dict_of_items_agree.
  - apply list_elem_of_In, in_map_iff. exists (idx, h). split; [done|].
    apply filter_In. split; [by apply list_elem_of_In|]. by apply truthy_true.
  - intros v' Hv'. apply list_elem_of_In, in_map_iff in Hv' as ([i' h'] & Heq & Hf).
    simpl in Heq. injection Heq as -> <-.
    apply filter_In in Hf as [Hf _]. apply list_elem_of_In in Hf.
    by rewrite (Huniq _ Hf).
Qed.

(** ** Rows yielded by the reader *)

Lemma existsb_perm {A} (p : A -> bool) (l1 l2 : list A) :
  l1 ≡ₚ l2 -> existsb p l1 = existsb p l2.
Proof.
  intros Hp. induction Hp; simpl; try congruence.
  by rewrite !orb_assoc, (orb_comm (p y)).
Qed.

Lemma existsb_fmap {A B} (f : A -> B) (p : B -> bool) (l : list A) :
  existsb p (f <$> l) = existsb (fun x => p (f x)) l.
Proof.
  induction l as [|x l IH]; [done|].
  rewrite fmap_cons. cbn [existsb]. by rewrite IH.
Qed.

(** Once the header map is fixed, every later row that has cells gives one
    row dictionary, unless no header has a name, in which case none does. *)
Lemma iter_rows_with_header (shared : list string) (rows : list Element)
    (hm : dict Z string) :
  (iter_rows shared rows (Some hm)).2 = None ->
  (iter_rows shared rows (Some hm)).1 =
    if existsb (fun ih => Py.truthy ih.2) hm
    then List.map (fun r => make_row_dict hm (cells_of shared r))
           (List.filter has_cells rows)
    else [].
Proof.
  induction rows as [|row rows IH]; simpl.
  - intros _. by destruct (existsb _ hm).
  - destruct (row_cells shared row) as [cells|e] eqn:E; [|done].
    assert (cells_of shared row = cells) as Hc by (unfold cells_of; by rewrite E).
    rewrite <- (row_cells_truthy _ _ _ E).
    destruct (Dict.truthy cells); simpl; [|exact IH].
    destruct (iter_rows shared rows (Some hm)) as [ys e] eqn:Er. simpl in IH.
    rewrite make_row_dict_truthy, Hc.
    destruct (existsb _ hm) eqn:Ex; simpl; intros He; by rewrite (IH He).
Qed.

(** Before the header is known, rows without cells are passed over and the
    first row with cells becomes the header. *)
Lemma iter_rows_from_start (shared : list string) (rows : list Element) :
  (iter_rows shared rows None).2 = None ->
  (iter_rows shared rows None).1 =
    match List.filter has_cells rows with
    | [] => []
    | hdr :: rest =>
        let hm := make_header_map (cells_of shared hdr) in
        if existsb (fun ih => Py.truthy ih.2) hm
        then List.map (fun r => make_row_dict hm (cells_of shared r)) rest
        else []
    end.
Proof.
  induction rows as [|row rows IH]; simpl; [done|].
  destruct (row_cells shared row) as [cells|e] eqn:E; [|done].
  assert (cells_of shared row = cells) as Hc by (unfold cells_of; by rewrite E).
  rewrite <- (row_cells_truthy _ _ _ E).
  destruct (Dict.truthy cells); simpl; [|exact IH].
  intros He. rewrite Hc. by apply iter_rows_with_header.
Qed.

Lemma iter_rows_yield_nonempty (shared : list string) (rows : list Element)
    (header_map : option (dict Z string)) :
  Forall (fun r => r <> []) (iter_rows shared rows header_map).1.
Proof.
  revert header_map. induction rows as [|row rows IH]; intros header_map; simpl.
  - constructor.
  - destruct (row_cells shared row) as [cells|e]; [|constructor].
    destruct (Dict.truthy cells); simpl; [|apply IH].
    destruct header_map as [hm|]; [|apply IH].
    specialize (IH (Some hm)).
    destruct (iter_rows shared rows (Some hm)) as [ys e].
    destruct (make_row_dict hm cells) eqn:Ed; simpl; [exact IH|].
    constructor; [done|exact IH].
Qed.

Lemma iter_sheet_rows_rows (workbook : Workbook) :
  (iter_sheet_rows workbook).2 = None ->
  iter_sheet_rows workbook =
    iter_rows (workbook_shared workbook) (sheet_rows workbook) None.
Proof.
  destruct workbook as [path|exc|shared_xml [sheet_root|]]; simpl; try done.
  by destruct (find sheet_root (NS ++ "sheetData")).
Qed.

Lemma header_map_named (shared : list string) (hdr : Element) :
  is_ok (row_cells shared hdr) = true ->
  existsb (fun ih => Py.truthy ih.2) (make_header_map (cells_of shared hdr)) =
    existsb Py.truthy (cells_of shared hdr).*2.
Proof.
  unfold cells_of. destruct (row_cells shared hdr) as [cells|e] eqn:E; [|done].
  intros _. rewrite existsb_fmap. apply existsb_perm, make_header_map_perm.
  by eapply row_cells_nodup.
Qed.

Lemma iter_rows_all_ok (shared : list string) (rows : list Element)
    (header_map : option (dict Z string)) :
  (iter_rows shared rows header_map).2 = None ->
  Forall (fun r => is_ok (row_cells shared r) = true) rows.
Proof.
  revert header_map. induction rows as [|row rows IH]; intros header_map; simpl.
  - constructor.
  - destruct (row_cells shared row) as [cells|e] eqn:E; [|done].
    intros He. constructor; [by rewrite E|].
    destruct (Dict.truthy cells); simpl in He; [|by eapply IH].
    destruct header_map as [hm|]; [|by eapply IH].
    destruct (iter_rows shared rows (Some hm)) as [ys e] eqn:Er.
    apply (IH (Some hm)). rewrite Er.
    by destruct (Dict.truthy (make_row_dict hm cells)).
Qed.

Lemma existsb_truthy_Exists (l : list string) :
  existsb Py.truthy l = true <-> Exists (fun h => h <> "") l.
Proof.
  rewrite existsb_exists, Exists_exists. split.
  - intros (h & Hin & Ht). exists h. split; [by apply list_elem_of_In|].
    by apply truthy_true.
  - intros (h & Hin & Ht). exists h. split; [by apply list_elem_of_In|].
    by apply truthy_true.
Qed.

Lemma existsb_truthy_Forall (l : list string) :
  existsb Py.truthy l = false <-> Forall (fun h => h = "") l.
Proof.
  induction l as [|h l IH]; simpl.
  - split; [constructor|done].
  - rewrite Forall_cons, <- IH. destruct h; simpl.
    + split; [done|]. by intros [_ ?].
    + split; [done|]. by intros [? _].
Qed.

(** C3, as stated, fails on a sheet whose header row carries no text: the
    sheet of [blank_header_book] has three rows with cells (two of them with
    text), the reader finishes without raising, and it yields no row. *)
Lemma blank_header_yields_nothing :
  iter_sheet_rows blank_header_book = ([], None) /\
  length (nonempty_rows blank_header_book) = 3%nat /\
  length (List.filter (has_text (workbook_shared blank_header_book))
            (sheet_rows blank_header_book)) = 2%nat /\
  Z.of_nat (length (iter_sheet_rows blank_header_book).1) <>
    Z.of_nat (length (nonempty_rows blank_header_book)) - 1.
Proof. vm_compute. repeat split; congruence. Qed.

(** C3 (amended). When the reader finishes without raising: no yielded row
    is empty; if some header cell has text, the rows yielded are one fewer
    than the physical rows that have a referenced cell, namely one row
    dictionary, in order, for each such row after the first (the header);
    if no header cell has text, nothing is yielded. *)
Theorem iter_sheet_rows_count (workbook : Workbook) :
  (iter_sheet_rows workbook).2 = None ->
  Forall (fun r => r <> []) (iter_sheet_rows workbook).1 /\
  (Exists (fun h => h <> "") (header_names workbook) ->
     S (length (iter_sheet_rows workbook).1) = length (nonempty_rows workbook) /\
     exists hdr rest,
       nonempty_rows workbook = hdr :: rest /\
       (iter_sheet_rows workbook).1 =
         List.map
           (fun r => make_row_dict
                       (make_header_map (cells_of (workbook_shared workbook) hdr))
                       (cells_of (workbook_shared workbook) r))
           rest) /\
  (Forall (fun h => h = "") (header_names workbook) ->
     (iter_sheet_rows workbook).1 = []).
Proof.
  intros Hfin. pose proof (iter_sheet_rows_rows _ Hfin) as Heq.
  rewrite Heq in Hfin |- *.
  split; [apply iter_rows_yield_nonempty|].
  pose proof (iter_rows_all_ok _ _ _ Hfin) as Hok.
  rewrite (iter_rows_from_start _ _ Hfin).
  unfold header_names, nonempty_rows.
  destruct (List.filter has_cells (sheet_rows workbook)) as [|hdr rest] eqn:Ef.
  - split; [|done]. intros Hex. by apply Exists_nil in Hex.
  - assert (is_ok (row_cells (workbook_shared workbook) hdr) = true) as Hhdr.
    { rewrite Forall_forall in Hok. apply Hok.
      assert (In hdr (List.filter has_cells (sheet_rows workbook))) as Hin
        by (rewrite Ef; left; reflexivity).
      apply filter_In in Hin as [Hin _]. by apply list_elem_of_In. }
    cbv zeta. rewrite (header_map_named _ _ Hhdr). split.
    + intros Hex. apply existsb_truthy_Exists in Hex. rewrite Hex.
      split; [by rewrite length_map|]. by exists hdr, rest.
    + intros Hall. apply existsb_truthy_Forall in Hall. by rewrite Hall.
Qed.

Lemma iter_sheet_rows_count_witness :
  S (length (iter_sheet_rows gap_book).1) = length (nonempty_rows gap_book).
Proof.
  refine (proj1 (proj1 (proj2 (iter_sheet_rows_count gap_book _)) _)).
  - reflexivity.
  - assert (header_names gap_book =
              ["Rumah Sakit"; "Kab/Kota"; "Email Perusahaan"]) as ->
      by reflexivity.
    apply Exists_cons_hd. discriminate.
Defined.

(** What the reader yields under a header row that has text. *)
Lemma iter_sheet_rows_named (workbook : Workbook) (hdr : Element)
    (rest : list Element) :
  (iter_sheet_rows workbook).2 = None ->
  Exists (fun h => h <> "") (header_names workbook) ->
  nonempty_rows workbook = hdr :: rest ->
  (iter_sheet_rows workbook).1 =
    List.map
      (fun r => make_row_dict
                  (make_header_map (cells_of (workbook_shared workbook) hdr))
                  (cells_of (workbook_shared workbook) r))
      rest /\
  Forall (fun r => is_ok (row_cells (workbook_shared workbook) r) = true)
    (hdr :: rest).
Proof.
  intros Hfin Hex Hrows. pose proof (iter_sheet_rows_rows _ Hfin) as Heq.
  rewrite Heq in Hfin |- *.
  pose proof (iter_rows_all_ok _ _ _ Hfin) as Hok.
  assert (Forall (fun r => is_ok (row_cells (workbook_shared workbook) r) = true)
            (hdr :: rest)) as Hok'.
  { rewrite <- Hrows. unfold nonempty_rows. apply Forall_forall. intros r Hr.
    apply list_elem_of_In, filter_In in Hr as [Hr _].
    rewrite Forall_forall in Hok. by apply Hok, list_elem_of_In. }
  split; [|exact Hok'].
  rewrite (iter_rows_from_start _ _ Hfin).
  unfold header_names, nonempty_rows in Hex. unfold nonempty_rows in Hrows.
  rewrite Hrows in Hex |- *. cbv zeta.
  rewrite (header_map_named _ _ (Forall_inv Hok')).
  apply existsb_truthy_Exists in Hex. by rewrite Hex.
Qed.

Lemma row_cells_lookup (shared : list string) (row : Element)
    (cells : dict Z string) (idx : Z) :
  row_cells shared row = Ok cells ->
  match cell_at (findall row (NS ++ "c")) idx with
  | Some c => exists v, read_cell_value c shared = Ok v /\
                        Dict.get cells idx = Some (Py.strip v)
  | None => Dict.get cells idx = None
  end.
Proof.
  intros Hrow. apply (read_cells_lookup _ _ _ _ idx) in Hrow.
  by destruct (cell_at (findall row (NS ++ "c")) idx).
Qed.

(** The header map pairs each column of the header row with the text of
    the header cell stored under that column, and holds nothing else. *)
Lemma header_map_entry (shared : list string) (hdr : Element)
    (cells : dict Z string) (idx : Z) (h : string) :
  row_cells shared hdr = Ok cells ->
  (idx, h) ∈ make_header_map cells <->
  exists c v, cell_at (findall hdr (NS ++ "c")) idx = Some c /\
              read_cell_value c shared = Ok v /\ h = Py.strip v.
Proof.
  intros Hrow. pose proof (row_cells_nodup _ _ _ Hrow) as Hnd.
  pose proof (row_cells_lookup _ _ _ idx Hrow) as Hl.
  rewrite (make_header_map_perm cells Hnd). split.
  - intros Hin. apply (dict_get_nodup _ _ _ Hnd) in Hin.
    destruct (cell_at (findall hdr (NS ++ "c")) idx) as [c|]; [|congruence].
    destruct Hl as (v & Hv & Hget). exists c, v. repeat split; [done|congruence].
  - intros (c & v & Hc & Hv & ->). rewrite Hc in Hl.
    destruct Hl as (v' & Hv' & Hget). apply dict_get_Some_elem. congruence.
Qed.

(** A row dictionary files the text found at a column under the header
    found at the same column of the header row. *)
Lemma row_dict_by_column (shared : list string) (hdr row : Element)
    (idx : Z) (hc : Element) (v : string) :
  is_ok (row_cells shared hdr) = true -> is_ok (row_cells shared row) = true ->
  cell_at (findall hdr (NS ++ "c")) idx = Some hc ->
  read_cell_value hc shared = Ok v -> Py.strip v <> "" ->
  (forall idx' hc' v',
     cell_at (findall hdr (NS ++ "c")) idx' = Some hc' ->
     read_cell_value hc' shared = Ok v' ->
     Py.strip v' = Py.strip v -> idx' = idx) ->
  match cell_at (findall row (NS ++ "c")) idx with
  | Some c =>
      exists w, read_cell_value c shared = Ok w /\
                Dict.get (make_row_dict (make_header_map (cells_of shared hdr))
                            (cells_of shared row)) (Py.strip v)
                = Some (Py.strip w)
  | None =>
      Dict.get (make_row_dict (make_header_map (cells_of shared hdr))
                  (cells_of shared row)) (Py.strip v)
      = Some ""
  end.
Proof.
  unfold cells_of.
  destruct (row_cells shared hdr) as [hcells|] eqn:Ehdr; [|done].
  destruct (row_cells shared row) as [cells|] eqn:Erow; [|done].
  intros _ _ Hc Hv Hne Huniq.
  rewrite (make_row_dict_lookup _ _ idx).
  - pose proof (row_cells_lookup _ _ _ idx Erow) as Hl.
    unfold Dict.get_default.
    destruct (cell_at (findall row (NS ++ "c")) idx) as [c|].
    + destruct Hl as (w & Hw & ->). exists w. split; [done|].
      f_equal. apply strip_idempotent.
    + by rewrite Hl.
  - apply (header_map_entry shared hdr); [done|]. by exists hc, v.
  - done.
  - intros idx' Hin. apply (header_map_entry shared hdr) in Hin; [|done].
    destruct Hin as (c' & v' & Hc' & Hv' & Heq). by apply (Huniq idx' c' v').
Qed.

Lemma cell_at_Some (cs : list Element) (idx : Z) (c : Element) :
  cell_at cs idx = Some c -> c ∈ cs /\ cell_column c = Some idx.
Proof.
  induction cs as [|c0 cs IH]; [done|]. cbn [cell_at].
  destruct (cell_at cs idx) as [c'|].
  - intros [= <-]. destruct (IH eq_refl) as [Hin Hcol]. split; [by right|done].
  - case_decide as Hcol; [|done]. intros [= <-]. split; [left|done].
Qed.

(** C5. The column of a cell is its reference's letters read in base 26
    with ['A'] = 1, less one, and different letters give different columns;
    a row's dictionary is addressed by that column
    (the entry for a column is the text of the last cell that names it, and
    there is none when no cell does); a row dictionary files the text at
    column [idx] under the header of column [idx], the empty string when the
    row has no cell there; and so does the reader: whenever it finishes under
    a header row with text, each row it yields holds, under the text of the
    header cell of any column (a text that no other column carries), the
    trimmed text of its own cell of that very column, and the empty string
    when it has no cell there, so a missing column moves no other value. *)
Theorem column_index_sparse_rows :
  (forall ref letters,
     cell_ref_match ref = Some letters ->
     column_letters_to_index letters = base26 letters - 1 /\
     0 <= column_letters_to_index letters /\
     (forall ref' letters',
        cell_ref_match ref' = Some letters' ->
        column_letters_to_index letters' = column_letters_to_index letters ->
        letters' = letters)) /\
  (forall shared row cells idx,
     row_cells shared row = Ok cells ->
     match cell_at (findall row (NS ++ "c")) idx with
     | Some c => exists v, read_cell_value c shared = Ok v /\
                           Dict.get cells idx = Some (Py.strip v)
     | None => Dict.get cells idx = None
     end) /\
  (forall (hm cells : dict Z string) idx h,
     (idx, h) ∈ hm -> h <> "" ->
     (forall idx', (idx', h) ∈ hm -> idx' = idx) ->
     Dict.get (make_row_dict hm cells) h =
       Some (Py.strip (Dict.get_default cells idx "")) /\
     (Dict.get cells idx = None -> Dict.get (make_row_dict hm cells) h = Some "")) /\
  (forall workbook hdr rest,
     (iter_sheet_rows workbook).2 = None ->
     Exists (fun h => h <> "") (header_names workbook) ->
     nonempty_rows workbook = hdr :: rest ->
     Forall2
       (fun row yielded =>
          forall idx hc v,
            cell_at (findall hdr (NS ++ "c")) idx = Some hc ->
            read_cell_value hc (workbook_shared workbook) = Ok v ->
            Py.strip v <> "" ->
            (forall idx' hc' v',
               cell_at (findall hdr (NS ++ "c")) idx' = Some hc' ->
               read_cell_value hc' (workbook_shared workbook) = Ok v' ->
               Py.strip v' = Py.strip v -> idx' = idx) ->
            match cell_at (findall row (NS ++ "c")) idx with
            | Some c =>
                exists w,
                  read_cell_value c (workbook_shared workbook) = Ok w /\
                  Dict.get yielded (Py.strip v) = Some (Py.strip w)
            | None => Dict.get yielded (Py.strip v) = Some ""
            end)
       rest (iter_sheet_rows workbook).1).
Proof.
  split; [|split; [|split]].
  - intros ref letters Hm. apply cell_ref_match_upper in Hm as [Hup Hne].
    split; [|split].
    + unfold column_letters_to_index. by rewrite column_loop_base26, Z.mul_0_l.
    + unfold column_letters_to_index. rewrite column_loop_base26 by done.
      pose proof (base26_pos _ Hup Hne). lia.
    + intros ref' letters' Hm' Heq. apply cell_ref_match_upper in Hm' as [Hup' _].
      by apply column_letters_to_index_inj.
  - intros shared row cells idx Hrow. by apply row_cells_lookup.
  - intros hm cells idx h Hin Hne Huniq.
    pose proof (make_row_dict_lookup hm cells idx h Hin Hne Huniq) as Hl.
    split; [done|]. intros Hnone. rewrite Hl. unfold Dict.get_default.
    by rewrite Hnone.
  - intros workbook hdr rest Hfin Hex Hrows.
    destruct (iter_sheet_rows_named workbook hdr rest Hfin Hex Hrows) as [-> Hok].
    apply Forall_cons in Hok as [Hhdr Hok].
    change (List.map ?f ?l) with (f <$> l). apply Forall2_fmap_r.
    apply Forall_Forall2_diag. eapply Forall_impl; [exact Hok|].
    intros row Hrow idx hc v Hc Hv Hne Huniq.
    by apply (row_dict_by_column _ hdr row idx hc v).
Qed.

Lemma column_index_sparse_rows_witness :
  column_letters_to_index "AB" = base26 "AB" - 1 /\
  Dict.get (make_row_dict [(0, "Rumah Sakit"); (1, "Kab/Kota"); (2, "Email Perusahaan")]
              [(0, "RS A"); (2, "a@rs.id")]) "Email Perusahaan" = Some "a@rs.id" /\
  Dict.get (make_row_dict [(0, "Rumah Sakit"); (1, "Kab/Kota"); (2, "Email Perusahaan")]
              [(0, "RS A"); (2, "a@rs.id")]) "Kab/Kota" = Some "" /\
  exists yielded,
    (iter_sheet_rows gap_book).1 = [yielded] /\
    Dict.get yielded "Kab/Kota" = Some "" /\
    exists w, read_cell_value (xml_cell "C2" "a@rs.id") [] = Ok w /\
              Dict.get yielded "Email Perusahaan" = Some (Py.strip w).
Proof.
  destruct column_index_sparse_rows as (Hcol & _ & Hrow & Hreader).
  pose (hm := [(0, "Rumah Sakit"); (1, "Kab/Kota"); (2, "Email Perusahaan")]).
  pose (cells := [(0, "RS A"); (2, "a@rs.id")]).
  split; [|split; [|split]].
  - exact (proj1 (Hcol "AB12" "AB" eq_refl)).
  - assert ((2, "Email Perusahaan") ∈ hm) as Hin by in_list.
    assert (forall idx', (idx', "Email Perusahaan") ∈ hm -> idx' = 2) as Hu
      by (intros idx' Hin'; only_in_list Hin').
    exact (proj1 (Hrow hm cells 2 "Email Perusahaan" Hin ltac:(discriminate) Hu)).
  - assert ((1, "Kab/Kota") ∈ hm) as Hin by in_list.
    assert (forall idx', (idx', "Kab/Kota") ∈ hm -> idx' = 1) as Hu
      by (intros idx' Hin'; only_in_list Hin').
    exact (proj2 (Hrow hm cells 1 "Kab/Kota" Hin ltac:(discriminate) Hu) eq_refl).
  - pose (hdr := xml_row [xml_cell "A1" "Rumah Sakit"; xml_cell "B1" "Kab/Kota";
                          xml_cell "C1" "Email Perusahaan"]).
    pose (row := xml_row [xml_cell "A2" "RS A"; xml_cell "C2" "a@rs.id"]).
    assert (Exists (fun h => h <> "") (header_names gap_book)) as Hex.
    { assert (header_names gap_book =
                ["Rumah Sakit"; "Kab/Kota"; "Email Perusahaan"]) as ->
        by reflexivity.
      apply Exists_cons_hd. discriminate. }
    pose proof (Hreader gap_book hdr [row] eq_refl Hex eq_refl) as Hall.
    assert (forall h idx idx' hc' v',
              idx = 1 /\ h = "Kab/Kota" \/ idx = 2 /\ h = "Email Perusahaan" ->
              cell_at (findall hdr (NS ++ "c")) idx' = Some hc' ->
              read_cell_value hc' [] = Ok v' -> Py.strip v' = h -> idx' = idx)
      as Huniq.
    { intros h idx idx' hc' v' Hh Hc' Hv' Hs.
      apply cell_at_Some in Hc' as [Hin Hcol'].
      apply list_elem_of_In in Hin. simpl in Hin.
      destruct Hin as [<-|[<-|[<-|[]]]]; injection Hv' as <-;
        vm_compute in Hs; vm_compute in Hcol';
        destruct Hh as [[-> ->]|[-> ->]]; congruence. }
    destruct (iter_sheet_rows gap_book).1 as [|yielded [|]] eqn:Ey;
      [inversion Hall| |inversion Hall as [|? ? ? ? _ Hnil]; inversion Hnil].
    apply Forall2_cons_1 in Hall as [Hyielded _].
    exists yielded. split; [done|]. split.
    + apply (Hyielded 1 (xml_cell "B1" "Kab/Kota") "Kab/Kota");
        [reflexivity|reflexivity|discriminate|].
      intros idx' hc' v'. apply (Huniq "Kab/Kota" 1). left. split; reflexivity.
    + apply (Hyielded 2 (xml_cell "C1" "Email Perusahaan") "Email Perusahaan");
        [reflexivity|reflexivity|discriminate|].
      intros idx' hc' v'. apply (Huniq "Email Perusahaan" 2).
      right. split; reflexivity.
Defined.

(** The reader on [gap_book]: the header gives three names, the row with no
    cell is passed over, and the data row leaves ["Kab/Kota"] empty instead
    of moving the e-mail address under it. *)
Example gap_book_rows :
  iter_sheet_rows gap_book =
    ([[("Rumah Sakit", "RS A"); ("Kab/Kota", ""); ("Email Perusahaan", "a@rs.id")]],
     None).
Proof. reflexivity. Qed.

(** ** Recipient contexts *)

(** The slug loop only adds keys: an entry that is there stays as it is. *)
Lemma add_slugs_preserve (items : list (string * string))
    (context : dict string string) (k v : string) :
  Dict.get context k = Some v -> Dict.get (add_slugs items context) k = Some v.
Proof.
  revert context. induction items as [|[key value] items IH]; intros context Hk;
    simpl; [done|].
  destruct (Py.truthy (slugify key) && negb (Dict.mem context (slugify key))) eqn:E;
    [|by apply IH].
  apply IH. rewrite dict_get_set_ne; [done|].
  intros <-. apply andb_true_iff in E as [_ E]. unfold Dict.mem in E.
  by rewrite Hk in E.
Qed.

Lemma add_slugs_exposes (items : list (string * string))
    (context : dict string string) (header value : string) :
  (header, value) ∈ items -> slugify header <> "" ->
  is_Some (Dict.get (add_slugs items context) (slugify header)).
Proof.
  revert context. induction items as [|[key val] items IH]; intros context Hin Hne.
  - by apply elem_of_nil in Hin.
  - apply elem_of_cons in Hin as [[= <- <-]|Hin]; simpl.
    + apply truthy_true in Hne. rewrite Hne. simpl. unfold Dict.mem.
      destruct (Dict.get context (slugify header)) as [v0|] eqn:E; simpl.
      * exists v0. by apply add_slugs_preserve.
      * eexists. apply add_slugs_preserve, dict_get_set_eq.
    + destruct (Py.truthy (slugify key) && negb (Dict.mem context (slugify key)));
        by apply IH.
Qed.

Lemma add_slugs_first (items : list (string * string))
    (context : dict string string) (slug header value : string) :
  slug <> "" -> Dict.get context slug = None ->
  first_with_slug slug items = Some (header, value) ->
  Dict.get (add_slugs items context) slug = Some (Py.strip value).
Proof.
  intros Hne. revert context.
  induction items as [|[key val] items IH]; intros context Hnone; [done|].
  unfold first_with_slug. simpl. case_bool_decide as Hs.
  - intros [= -> ->]. rewrite Hs. apply truthy_true in Hne. rewrite Hne.
    unfold Dict.mem. rewrite Hnone. simpl.
    apply add_slugs_preserve. rewrite dict_get_set_eq.
    by destruct value.
  - intros Hfind.
    destruct (Py.truthy (slugify key) && negb (Dict.mem context (slugify key)));
      apply IH; try done.
    by rewrite dict_get_set_ne.
Qed.

(** C7, as stated, fails for a header whose slug is empty: the header
    ["---"] is not one of the fixed headers, its slug is the empty string,
    and the context has no entry under it. *)
Lemma empty_slug_not_exposed :
  slugify "---" = "" /\
  Dict.get (build_context [("---", "x")]) (slugify "---") = None /\
  Dict.keys (build_context [("---", "x")]) =
    ["hospital"; "province"; "city"; "address"; "phone"; "owner"; "director";
     "email"].
Proof. vm_compute. auto. Qed.

(** C7 (amended). Every header of the row whose slug is not empty has an
    entry in the context under that slug. An entry of the fixed fields is
    never replaced by it; when the slug is none of the fixed keys, the entry
    holds the trimmed value of the first header of the row with that slug. *)
Theorem build_context_slug_keys (row : dict string string) (header value : string) :
  (header, value) ∈ row -> slugify header <> "" ->
  is_Some (Dict.get (build_context row) (slugify header)) /\
  (forall k v, Dict.get (fixed_context row) k = Some v ->
     Dict.get (build_context row) k = Some v) /\
  (Dict.get (fixed_context row) (slugify header) = None ->
   forall h1 v1, first_with_slug (slugify header) row = Some (h1, v1) ->
     Dict.get (build_context row) (slugify header) = Some (Py.strip v1)).
Proof.
  intros Hin Hne. unfold build_context. split; [|split].
  - by eapply add_slugs_exposes.
  - intros k v. apply add_slugs_preserve.
  - intros Hnone h1 v1 Hfirst. by eapply add_slugs_first.
Qed.

Lemma build_context_slug_keys_witness :
  is_Some (Dict.get (build_context [("Kelas RS", " C "); ("Email", "x@y.id")])
             (slugify "Kelas RS")) /\
  Dict.get (build_context [("Kelas RS", " C "); ("Email", "x@y.id")]) "email"
    = Some "" /\
  Dict.get (build_context [("Kelas RS", " C "); ("Email", "x@y.id")]) "kelas_rs"
    = Some "C".
Proof.
  pose (row := [("Kelas RS", " C "); ("Email", "x@y.id")]).
  assert (("Kelas RS", " C ") ∈ row) as Hin by in_list.
  assert (slugify "Kelas RS" <> "") as Hne by (vm_compute; discriminate).
  destruct (build_context_slug_keys row "Kelas RS" " C " Hin Hne) as (H1 & H2 & H3).
  split; [exact H1|]. split.
  - apply H2. reflexivity.
  - apply (H3 eq_refl "Kelas RS" " C "). reflexivity.
Defined.

Lemma first_nonempty_or (x y : option string) :
  Py.or_str (Py.or_opt x y) "" = first_nonempty [x; y].
Proof.
  destruct x as [[|c s]|], y as [[|c' s']|]; reflexivity.
Qed.

Lemma first_nonempty_empty (candidates : list (option string)) :
  Forall (fun c => c = None \/ c = Some "") candidates ->
  first_nonempty candidates = "".
Proof.
  induction 1 as [|c cs [-> | ->] _ IH]; simpl; done.
Qed.

(** C8. Each fixed key of a context holds the trimmed first non-empty value
    among its source headers, looked up by their exact names in the listed
    order; the key is there even when none of them has a value, and then
    holds the empty string. *)
Theorem build_context_fixed_fields (row : dict string string)
    (key : string) (headers : list string) :
  (key, headers) ∈ fixed_sources ->
  Dict.get (build_context row) key =
    Some (Py.strip (first_nonempty (List.map (Dict.get row) headers))) /\
  (Forall (fun h => Dict.get row h = None \/ Dict.get row h = Some "") headers ->
   Dict.get (build_context row) key = Some "").
Proof.
  intros Hin.
  assert (Dict.get (build_context row) key =
            Some (Py.strip (first_nonempty (List.map (Dict.get row) headers)))) as Heq.
  { apply add_slugs_preserve.
    apply list_elem_of_In in Hin. simpl in Hin.
    repeat (destruct Hin as [[= <- <-]|Hin];
            [ first [ reflexivity
                    | unfold fixed_context, field2; simpl;
                      by rewrite first_nonempty_or
                    | unfold fixed_context, field1; simpl;
                      by destruct (Dict.get row _) as [[|? ?]|] ] |]).
    done. }
  split; [exact Heq|]. intros Hall. rewrite Heq.
  rewrite first_nonempty_empty; [done|].
  apply Forall_forall. intros c Hc. apply list_elem_of_In, in_map_iff in Hc as (h & <- & Hh).
  rewrite Forall_forall in Hall. apply Hall. by apply list_elem_of_In.
Qed.

Lemma build_context_fixed_fields_witness :
  Dict.get (build_context [("Alamat (List)", ""); ("Alamat (Profile)", "Jl. Merdeka 1")])
    "address" = Some "Jl. Merdeka 1" /\
  Dict.get (build_context [("Alamat (List)", ""); ("Alamat (Profile)", "Jl. Merdeka 1")])
    "phone" = Some "".
Proof.
  pose (row := [("Alamat (List)", ""); ("Alamat (Profile)", "Jl. Merdeka 1")]).
  split.
  - assert (("address", ["Alamat (List)"; "Alamat (Profile)"]) ∈ fixed_sources)
      as Hin by in_list.
    exact (proj1 (build_context_fixed_fields row _ _ Hin)).
  - assert (("phone", ["Telepon (List)"; "Telepon (Profile)"]) ∈ fixed_sources)
      as Hin by in_list.
    apply (proj2 (build_context_fixed_fields row _ _ Hin)).
    repeat constructor.
Defined.

(** ** Recipient list *)

Lemma usable_email_spec (email : string) :
  usable_email email = true <-> email <> "" /\ Py.contains_char "@" email = true.
Proof.
  unfold usable_email. rewrite andb_true_iff, truthy_true. tauto.
Qed.

Lemma recipients_loop_kept (rows : list (dict string string)) (seen : gset string)
    (recipients : list (dict string string)) :
  recipients_loop rows seen recipients =
    (recipients ++ List.map build_context (kept_rows rows seen))%list.
Proof.
  revert seen recipients. induction rows as [|row rows IH]; intros seen recipients;
    simpl.
  - by rewrite app_nil_r.
  - unfold usable_email.
    destruct (Py.truthy (row_email row)); simpl; [|apply IH].
    destruct (Py.contains_char "@" (row_email row)); simpl; [|apply IH].
    unfold email_key. destruct (decide (Py.lower (row_email row) ∈ seen)); [apply IH|].
    rewrite IH. simpl. by rewrite <- app_assoc.
Qed.

Lemma kept_rows_sublist (rows : list (dict string string)) (seen : gset string) :
  kept_rows rows seen `sublist_of` rows.
Proof.
  revert seen. induction rows as [|row rows IH]; intros seen; simpl; [done|].
  destruct (usable_email (row_email row)); [|by apply sublist_cons].
  destruct (decide (email_key row ∈ seen)); [by apply sublist_cons|].
  by apply sublist_skip.
Qed.

Lemma kept_rows_usable (rows : list (dict string string)) (seen : gset string) :
  Forall (fun r => usable_email (row_email r) = true) (kept_rows rows seen).
Proof.
  revert seen. induction rows as [|row rows IH]; intros seen; simpl; [constructor|].
  destruct (usable_email (row_email row)) eqn:E; [|apply IH].
  destruct (decide (email_key row ∈ seen)); [apply IH|].
  constructor; [done|apply IH].
Qed.

Lemma kept_rows_fresh (rows : list (dict string string)) (seen : gset string)
    (r : dict string string) :
  r ∈ kept_rows rows seen -> email_key r ∉ seen.
Proof.
  revert seen. induction rows as [|row rows IH]; intros seen; simpl.
  - intros H. by apply elem_of_nil in H.
  - destruct (usable_email (row_email row)); [|apply IH].
    destruct (decide (email_key row ∈ seen)) as [|Hnot]; [apply IH|].
    intros Hin. apply elem_of_cons in Hin as [->|Hin]; [done|].
    apply IH in Hin. intros Hs. apply Hin, elem_of_union. by right.
Qed.

Lemma kept_rows_nodup (rows : list (dict string string)) (seen : gset string) :
  NoDup (email_key <$> kept_rows rows seen).
Proof.
  revert seen. induction rows as [|row rows IH]; intros seen; simpl.
  - constructor.
  - destruct (usable_email (row_email row)); [|apply IH].
    destruct (decide (email_key row ∈ seen)) as [|Hnot]; [apply IH|].
    rewrite fmap_cons. constructor; [|apply IH].
    intros Hin. apply list_elem_of_fmap in Hin as (r & Hkey & Hr).
    apply kept_rows_fresh in Hr. apply Hr, elem_of_union. left.
    by apply elem_of_singleton.
Qed.

Lemma build_context_email (row : dict string string) :
  Dict.get (build_context row) "email" = Some (row_email row).
Proof. by apply add_slugs_preserve. Qed.

(** Lowercasing neither empties an address nor adds or removes an ["@"]. *)
Lemma lower_char_at (c : ascii) :
  Ascii.eqb "@" (Py.lower_char c) = Ascii.eqb "@" c.
Proof. by destruct c as [[] [] [] [] [] [] [] []]. Qed.

Lemma usable_email_lower (email : string) :
  usable_email (Py.lower email) = usable_email email.
Proof.
  unfold usable_email. f_equal; [by destruct email|].
  unfold Py.lower. induction email as [|c r IH]; [done|].
  cbn [Py.map_chars Py.contains_char]. by rewrite lower_char_at, IH.
Qed.

Lemma usable_same_key (a b : string) :
  usable_email a = true -> Py.lower b = Py.lower a -> usable_email b = true.
Proof.
  intros Ha Hkey. by rewrite <- usable_email_lower, Hkey, usable_email_lower.
Qed.

Lemma kept_positions_rows (rows : list (dict string string)) (seen : gset string) :
  Forall2 (fun i r => rows !! i = Some r)
    (kept_positions rows seen) (kept_rows rows seen).
Proof.
  revert seen. induction rows as [|row rows IH]; intros seen; simpl; [constructor|].
  destruct (usable_email (row_email row)).
  - destruct (decide (email_key row ∈ seen)).
    + apply Forall2_fmap_l. exact (IH seen).
    + constructor; [done|]. apply Forall2_fmap_l. exact (IH _).
  - apply Forall2_fmap_l. exact (IH seen).
Qed.

Lemma sorted_succ (l : list nat) :
  StronglySorted lt l -> StronglySorted lt (S <$> l).
Proof.
  induction 1 as [|i l _ IH Hall]; [constructor|].
  rewrite fmap_cons. constructor; [exact IH|].
  apply Forall_fmap. eapply Forall_impl; [exact Hall|]. intros j Hj. simpl. lia.
Qed.

Lemma kept_positions_sorted (rows : list (dict string string)) (seen : gset string) :
  StronglySorted lt (kept_positions rows seen).
Proof.
  revert seen. induction rows as [|row rows IH]; intros seen; simpl; [constructor|].
  destruct (usable_email (row_email row)); [|apply sorted_succ, IH].
  destruct (decide (email_key row ∈ seen)); [apply sorted_succ, IH|].
  constructor; [apply sorted_succ, IH|].
  apply Forall_fmap, Forall_forall. intros j _. simpl. lia.
Qed.

(** A position is kept exactly when its row has a usable address whose key
    is neither in [seen] nor the key of an earlier row with a usable
    address. *)
Lemma kept_positions_spec (rows : list (dict string string)) (seen : gset string)
    (i : nat) :
  i ∈ kept_positions rows seen <->
  exists r, rows !! i = Some r /\ usable_email (row_email r) = true /\
            (email_key r ∉ seen) /\
            forall j r', (j < i)%nat -> rows !! j = Some r' ->
                         usable_email (row_email r') = true ->
                         email_key r' <> email_key r.
Proof.
  revert seen i. induction rows as [|row rows IH]; intros seen i.
  - simpl. split; [intros H; by apply elem_of_nil in H|].
    by intros (r & Hr & _).
  - cbn [kept_positions].
    destruct (usable_email (row_email row)) eqn:Erow.
    + destruct (decide (email_key row ∈ seen)) as [Hseen|Hnew].
      * rewrite list_elem_of_fmap. split.
        -- intros (i' & -> & Hi). apply IH in Hi as (r & Hr & Hus & Hfresh & Hfirst).
           exists r. repeat split; try done.
           intros [|j] r' Hlt Hj Hus'; simpl in Hj.
           ++ injection Hj as <-. congruence.
           ++ apply (Hfirst j); [lia|done|done].
        -- intros (r & Hr & Hus & Hfresh & Hfirst). destruct i as [|i'].
           ++ simpl in Hr. injection Hr as <-. done.
           ++ exists i'. split; [done|]. apply IH. exists r. repeat split; try done.
              intros j r' Hlt Hj. apply (Hfirst (S j)); [lia|done].
      * rewrite elem_of_cons, list_elem_of_fmap. split.
        -- intros [->|(i' & -> & Hi)].
           ++ exists row. repeat split; try done. intros j r' Hlt. lia.
           ++ apply IH in Hi as (r & Hr & Hus & Hfresh & Hfirst).
              apply not_elem_of_union in Hfresh as [Hne Hfresh].
              exists r. repeat split; try done.
              intros [|j] r' Hlt Hj Hus'; simpl in Hj.
              ** injection Hj as <-. intros Heq. apply Hne.
                 by apply elem_of_singleton.
              ** apply (Hfirst j); [lia|done|done].
        -- intros (r & Hr & Hus & Hfresh & Hfirst). destruct i as [|i']; [by left|].
           right. exists i'. split; [done|]. apply IH. exists r.
           repeat split; try done.
           ++ apply not_elem_of_union. split; [|done].
              intros Heq. apply elem_of_singleton in Heq.
              by apply (Hfirst 0%nat row); [lia|done|done|].
           ++ intros j r' Hlt Hj. apply (Hfirst (S j)); [lia|done].
    + rewrite list_elem_of_fmap. split.
      * intros (i' & -> & Hi). apply IH in Hi as (r & Hr & Hus & Hfresh & Hfirst).
        exists r. repeat split; try done.
        intros [|j] r' Hlt Hj Hus'; simpl in Hj.
        -- injection Hj as <-. congruence.
        -- apply (Hfirst j); [lia|done|done].
      * intros (r & Hr & Hus & Hfresh & Hfirst). destruct i as [|i'].
        -- simpl in Hr. injection Hr as <-. congruence.
        -- exists i'. split; [done|]. apply IH. exists r. repeat split; try done.
           intros j r' Hlt Hj. apply (Hfirst (S j)); [lia|done].
Qed.

(** C4. The rows kept are those at the positions [positions], listed in
    increasing order: a position is kept exactly when its row has a
    non-empty address with an ["@"] and no earlier row has the same address
    after lowercasing (so a row whose address is empty or has no ["@"] is
    left out, and of the rows with one lowercased address only the first is
    kept). The recipients are the contexts of the rows at these positions,
    one for each and in this order, and each context carries its row's
    address as written. *)
Theorem recipients_loop_dedup (rows : list (dict string string)) :
  exists positions : list nat,
    StronglySorted lt positions /\
    (forall i,
       i ∈ positions <->
       exists r, rows !! i = Some r /\
                 row_email r <> "" /\
                 Py.contains_char "@" (row_email r) = true /\
                 forall j r', (j < i)%nat -> rows !! j = Some r' ->
                   Py.lower (row_email r') <> Py.lower (row_email r)) /\
    Forall2 (fun i c => exists r, rows !! i = Some r /\ c = build_context r /\
                                  Dict.get c "email" = Some (row_email r))
      positions (recipients_loop rows ∅ []).
Proof.
  exists (kept_positions rows ∅). split; [apply kept_positions_sorted|]. split.
  - intros i. rewrite kept_positions_spec. split.
    + intros (r & Hr & Hus & _ & Hfirst). exists r. split; [done|].
      pose proof Hus as Hus'. apply usable_email_spec in Hus' as [Hne Hat].
      repeat split; try done.
      intros j r' Hlt Hj Hkey. apply (Hfirst j r' Hlt Hj); [|exact Hkey].
      by apply (usable_same_key (row_email r)).
    + intros (r & Hr & Hne & Hat & Hfirst). exists r. split; [done|].
      split; [by apply usable_email_spec|]. split; [apply not_elem_of_empty|].
      intros j r' Hlt Hj _. by apply (Hfirst j).
  - rewrite recipients_loop_kept. simpl.
    change (List.map build_context ?l) with (build_context <$> l).
    apply Forall2_fmap_r. eapply Forall2_impl; [apply kept_positions_rows|].
    intros i r Hr. exists r. split; [done|]. split; [done|].
    apply build_context_email.
Qed.

(** The round trip of the specification: two rows whose addresses differ
    only in case give one recipient, with the first row's spelling. *)
Example duplicate_case_insensitive :
  (fun c => Dict.get c "email") <$>
    recipients_loop [ [("Email Perusahaan", "Foo@Bar.com")];
                      [("Email Perusahaan", "foo@bar.com")] ] ∅ []
  = [Some "Foo@Bar.com"].
Proof. vm_compute. reflexivity. Qed.

Lemma recipients_loop_source (rows : list (dict string string))
    (c : dict string string) :
  c ∈ recipients_loop rows ∅ [] ->
  exists row, row ∈ rows /\ c = build_context row /\
              usable_email (row_email row) = true.
Proof.
  rewrite recipients_loop_kept. simpl. intros Hc.
  apply list_elem_of_In, in_map_iff in Hc as (row & <- & Hrow).
  apply list_elem_of_In in Hrow. exists row. split; [|split; [done|]].
  - eapply elem_of_sublist; [exact Hrow|apply kept_rows_sublist].
  - pose proof (kept_rows_usable rows ∅) as Hall.
    rewrite Forall_forall in Hall. by apply Hall.
Qed.

(** C9. Every context that [load_recipients] returns has an ["email"] entry
    that is not empty and contains ["@"], and it is the context of a row
    the reader yielded whose address field is that entry: a row whose
    address is empty or has no ["@"] gives no recipient. *)
Theorem load_recipients_email_valid (workbook : Workbook)
    (recipients : list (dict string string)) (c : dict string string) :
  load_recipients workbook = Ok recipients -> c ∈ recipients ->
  exists email row,
    Dict.get c "email" = Some email /\
    email <> "" /\ Py.contains_char "@" email = true /\
    row ∈ (iter_sheet_rows workbook).1 /\
    c = build_context row /\ row_email row = email.
Proof.
  unfold load_recipients.
  destruct (iter_sheet_rows workbook) as [rows [e|]]; [done|].
  intros [= <-] Hc. apply recipients_loop_source in Hc as (row & Hrow & -> & Hus).
  apply usable_email_spec in Hus as [Hne Hat].
  exists (row_email row), row. repeat split; try done.
  apply build_context_email.
Qed.

Lemma load_recipients_email_valid_witness :
  exists email row,
    Dict.get (build_context [("Rumah Sakit", "RS A"); ("Kab/Kota", "");
                             ("Email Perusahaan", "a@rs.id")]) "email" = Some email /\
    email <> "" /\ Py.contains_char "@" email = true /\
    row ∈ (iter_sheet_rows gap_book).1 /\
    build_context [("Rumah Sakit", "RS A"); ("Kab/Kota", "");
                   ("Email Perusahaan", "a@rs.id")] = build_context row /\
    row_email row = email.
Proof.
  apply (load_recipients_email_valid gap_book
           [build_context [("Rumah Sakit", "RS A"); ("Kab/Kota", "");
                           ("Email Perusahaan", "a@rs.id")]]).
  - vm_compute. reflexivity.
  - left.
Defined.

(** ** Template engine *)

Lemma append_cons (c : ascii) (s r : string) :
  (String c s ++ r)%string = String c (s ++ r).
Proof. reflexivity. Qed.

Lemma append_nil_l (r : string) : ("" ++ r)%string = r.
Proof. reflexivity. Qed.

Lemma append_assoc (a b c : string) : ((a ++ b) ++ c)%string = (a ++ (b ++ c))%string.
Proof.
  induction a as [|x a IH]; [done|]. by rewrite !append_cons, IH.
Qed.

Lemma id_start_not_delim (c : ascii) : id_start c = true -> Ascii.eqb c "$" = false.
Proof.
  destruct (Ascii.eqb c "$") eqn:E; [|done].
  apply Ascii.eqb_eq in E as ->. vm_compute. discriminate.
Qed.

(** Passing over a match: the characters it covers produce nothing. *)
Lemma sub_skip (mapping : dict string string) (x r : string) :
  sub mapping (String.length x) (x ++ r) = sub mapping 0 r.
Proof. induction x as [|c x IH]; [done|]. rewrite append_cons. exact IH. Qed.

(** Text without a delimiter is copied. *)
Lemma sub_literal (mapping : dict string string) (lit r : string) :
  Py.contains_char "$" lit = false ->
  sub mapping 0 (lit ++ r) = (lit ++ sub mapping 0 r)%string.
Proof.
  induction lit as [|c lit IH]; [done|]. rewrite !append_cons.
  cbn [Py.contains_char sub]. rewrite (Ascii.eqb_sym c "$").
  destruct (Ascii.eqb "$" c) eqn:E; [done|].
  intros Hlit. by rewrite IH.
Qed.

Lemma span_id_name (name rest : string) :
  all_chars id_char name = true -> name_ends rest = true ->
  span_id (name ++ rest) = (name, rest).
Proof.
  intros Hname Hrest. induction name as [|c name IH].
  - rewrite append_nil_l. destruct rest as [|d rest]; [done|].
    simpl in *. by destruct (id_char d).
  - simpl in Hname. apply andb_true_iff in Hname as [Hc Hname].
    rewrite append_cons. cbn [span_id]. rewrite Hc, IH by done. done.
Qed.

Lemma identifier_chars (name : string) :
  identifier name = true ->
  exists c r, name = String c r /\ id_start c = true /\
              all_chars id_char name = true.
Proof.
  destruct name as [|c r]; [done|]. simpl. intros H.
  apply andb_true_iff in H as [Hc Hr]. exists c, r.
  repeat split; [done|]. unfold id_char at 1. by rewrite Hc, Hr.
Qed.

Lemma match_after_named (name rest : string) :
  identifier name = true -> name_ends rest = true ->
  match_after (name ++ rest) = Named name.
Proof.
  intros Hid Hrest. destruct (identifier_chars _ Hid) as (c & r & -> & Hc & Hall).
  rewrite append_cons. unfold match_after.
  rewrite (id_start_not_delim _ Hc), Hc, <- append_cons.
  by rewrite span_id_name.
Qed.

Lemma match_after_braced (name rest : string) :
  identifier name = true ->
  match_after ("{" ++ name ++ "}" ++ rest) = Braced name.
Proof.
  intros Hid. destruct (identifier_chars _ Hid) as (c & r & -> & Hc & Hall).
  change ("{" ++ String c r ++ "}" ++ rest)%string
    with (String "{" (String c (r ++ String "}" rest))).
  cbn [match_after]. change (Ascii.eqb "{" "$") with false.
  change (id_start "{") with false. change (Ascii.eqb "{" "{") with true.
  cbv iota. rewrite Hc, <- append_cons. by rewrite span_id_name.
Qed.

Lemma length_append (a b : string) :
  String.length (a ++ b) = (String.length a + String.length b)%nat.
Proof. induction a as [|c a IH]; [done|]. rewrite append_cons. simpl. by rewrite IH. Qed.

(** A [$name] placeholder is replaced as a whole. *)
Lemma sub_named (mapping : dict string string) (name rest : string) :
  identifier name = true -> name_ends rest = true ->
  sub mapping 0 ("$" ++ name ++ rest) =
    (convert mapping (Named name) ++ sub mapping 0 rest)%string.
Proof.
  intros Hid Hrest. change ("$" ++ name ++ rest)%string with (String "$" (name ++ rest)).
  cbn [sub]. change (Ascii.eqb "$" "$") with true. cbv iota zeta.
  rewrite match_after_named by done. f_equal.
  cbn [group]. change (String.length ("$" ++ name) - 1)%nat
    with (String.length name - 0)%nat.
  rewrite Nat.sub_0_r. apply sub_skip.
Qed.

(** So is a [${name}] placeholder. *)
Lemma sub_braced (mapping : dict string string) (name rest : string) :
  identifier name = true ->
  sub mapping 0 ("${" ++ name ++ "}" ++ rest) =
    (convert mapping (Braced name) ++ sub mapping 0 rest)%string.
Proof.
  intros Hid.
  change ("${" ++ name ++ "}" ++ rest)%string
    with (String "$" ("{" ++ name ++ "}" ++ rest)).
  cbn [sub]. change (Ascii.eqb "$" "$") with true. cbv iota zeta.
  rewrite match_after_braced by done. f_equal.
  replace (String.length (group (Braced name)) - 1)%nat
    with (String.length ("{" ++ name ++ "}"))%string.
  - rewrite <- (sub_skip mapping ("{" ++ name ++ "}") rest).
    by rewrite !append_assoc.
  - cbn [group]. rewrite !length_append. simpl. lia.
Qed.

(** A delimiter that starts no placeholder is copied and the scan goes on
    right after it. *)
Lemma sub_invalid (mapping : dict string string) (rest : string) :
  match_after rest = Invalid ->
  sub mapping 0 ("$" ++ rest) = ("$" ++ sub mapping 0 rest)%string.
Proof.
  intros Hinv. change ("$" ++ rest)%string with (String "$" rest).
  cbn [sub]. change (Ascii.eqb "$" "$") with true. cbv iota zeta.
  by rewrite Hinv.
Qed.

Lemma span_id_split (s n rest : string) :
  span_id s = (n, rest) -> s = (n ++ rest)%string.
Proof.
  revert n rest. induction s as [|c s IH]; intros n rest; simpl.
  - by intros [= <- <-].
  - destruct (id_char c).
    + destruct (span_id s) as [n' rest'] eqn:E. intros [= <- <-].
      rewrite append_cons. f_equal. by apply IH.
    + by intros [= <- <-].
Qed.

Lemma string_drop_append (x r : string) :
  string_drop (String.length x) (x ++ r) = r.
Proof.
  induction x as [|c x IH]; [by destruct r|]. rewrite append_cons. exact IH.
Qed.

(** Whatever matches at a delimiter, apart from an escape, is a prefix of
    the text from that delimiter on. *)
Lemma group_is_prefix (r : string) :
  match_after r <> Escaped ->
  (group (match_after r) ++
     string_drop (String.length (group (match_after r)) - 1) r)%string
  = String "$" r.
Proof.
  unfold match_after. destruct r as [|c r1]; [done|].
  destruct (Ascii.eqb c "$"); [done|]. intros _.
  destruct (id_start c).
  - destruct (span_id (String c r1)) as [n rest] eqn:E.
    apply span_id_split in E. rewrite E. cbn [fst group].
    change (String.length ("$" ++ n) - 1)%nat with (String.length n - 0)%nat.
    rewrite Nat.sub_0_r, string_drop_append. reflexivity.
  - destruct (Ascii.eqb c "{") eqn:Eb; [|by destruct r1].
    apply Ascii.eqb_eq in Eb as ->.
    destruct r1 as [|c1 r2]; [done|].
    destruct (id_start c1); [|done].
    destruct (span_id (String c1 r2)) as [n [|d rest]] eqn:E; [done|].
    destruct (Ascii.eqb d "}") eqn:Ed; [|done].
    apply Ascii.eqb_eq in Ed as ->. apply span_id_split in E. rewrite E.
    cbn [group].
    replace (String.length ("${" ++ n ++ "}") - 1)%nat
      with (String.length ("{" ++ n ++ "}"))%string
      by (rewrite !length_append; simpl; lia).
    replace (String "{" (n ++ String "}" rest))
      with (("{" ++ n ++ "}") ++ rest)%string
      by (rewrite !append_cons, append_nil_l, append_assoc; reflexivity).
    rewrite string_drop_append.
    by rewrite !append_cons, !append_nil_l, !append_assoc.
Qed.

(** A template with no escape sequence, none of whose placeholders names a
    key of the mapping, is returned as it is. *)
Lemma sub_absent (mapping : dict string string) (s : string) (skip : nat) :
  no_escape s = true ->
  Forall (fun n => Dict.get mapping n = None) (placeholders skip s) ->
  sub mapping skip s = string_drop skip s.
Proof.
  revert skip. induction s as [|c r IH]; intros skip Hesc Hall.
  - by destruct skip.
  - cbn [no_escape] in Hesc. apply andb_true_iff in Hesc as [Hc Hr].
    destruct skip as [|k]; cbn [sub placeholders string_drop] in *.
    + destruct (Ascii.eqb c "$") eqn:Ec.
      * apply Ascii.eqb_eq in Ec as ->.
        apply Forall_app in Hall as [Hp Hall].
        rewrite (IH _ Hr Hall).
        assert (match_after r <> Escaped) as Hne.
        { unfold match_after. destruct r as [|d r1]; [done|].
          simpl in Hc. destruct (Ascii.eqb d "$"); [done|].
          destruct (id_start d); [done|]. destruct (Ascii.eqb d "{"); [|done].
          destruct r1 as [|c1 r2]; [done|]. destruct (id_start c1); [|done].
          destruct (span_id (String c1 r2)) as [n [|e rest]]; [done|].
          by destruct (Ascii.eqb e "}"). }
        rewrite <- (group_is_prefix r Hne). f_equal.
        destruct (match_after r) as [|n|n|]; try done;
          simpl; apply Forall_inv in Hp; by rewrite Hp.
      * by rewrite (IH 0%nat Hr Hall).
    + by apply IH.
Qed.

Lemma sub_ext (m1 m2 : dict string string) (s : string) (skip : nat) :
  (forall k, Dict.get m1 k = Dict.get m2 k) -> sub m1 skip s = sub m2 skip s.
Proof.
  intros Hext. revert skip. induction s as [|c r IH]; intros skip; [done|].
  destruct skip as [|k]; cbn [sub]; [|apply IH].
  destruct (Ascii.eqb c "$"); [|by rewrite IH].
  rewrite IH. f_equal. destruct (match_after r) as [|n|n|]; simpl; try done;
    by rewrite Hext.
Qed.

(** Both rendering sites apply [safe_substitute] to the recipient's own
    context: the preview of a recipient and the message composed for it. *)
Lemma preview_loop_renders (sample : list (dict string string)) (idx : nat)
    (subject_template body_template : string) (previews : list preview) :
  preview_loop idx sample subject_template body_template = Ok previews ->
  Forall2 (fun recipient p =>
             Dict.get recipient "email" = Some (pv_to p) /\
             pv_subject p = safe_substitute subject_template recipient /\
             pv_body p = safe_substitute body_template recipient)
    sample previews.
Proof.
  revert idx previews. induction sample as [|recipient sample IH];
    intros idx previews; simpl.
  - intros [= <-]. constructor.
  - destruct (Dict.get recipient "email") as [email|] eqn:E; [|done].
    destruct (preview_loop (S idx) sample subject_template body_template)
      as [rest|e] eqn:Er; [|done].
    simpl. intros [= <-]. constructor; [done|]. by eapply IH.
Qed.

Lemma compose_renders (header_ok : string -> bool) (args : Args)
    (subject_template body_template : string) (attachments : list Attachment)
    (recipient : dict string string) (msg : Message) :
  compose header_ok args subject_template body_template attachments recipient
    = Ok msg ->
  Dict.get recipient "email" = Some (msg_to msg) /\
  msg_subject msg = safe_substitute subject_template recipient /\
  msg_content msg = safe_substitute body_template recipient.
Proof.
  unfold compose, set_header.
  destruct (header_ok (format_sender_address _ _)); [|done]. simpl.
  destruct (Dict.get recipient "email") as [to|]; [|done].
  destruct (header_ok to); [|done]. simpl.
  destruct (header_ok (safe_substitute subject_template recipient)); [|done].
  simpl. destruct (reply_to args) as [r|]; simpl.
  - destruct (Py.truthy r); simpl.
    + destruct (header_ok r); [|done]. simpl. by intros [= <-].
    + by intros [= <-].
  - by intros [= <-].
Qed.

(** An escape gives one delimiter, and the scan goes on after it. *)
Lemma sub_escaped (mapping : dict string string) (rest : string) :
  sub mapping 0 ("$$" ++ rest) = ("$" ++ sub mapping 0 rest)%string.
Proof. reflexivity. Qed.

Lemma split_at_delimiter (template : string) :
  Py.contains_char "$" template = true ->
  exists lit rest, Py.contains_char "$" lit = false /\
                   template = (lit ++ "$" ++ rest)%string.
Proof.
  induction template as [|c r IH]; [done|]. cbn [Py.contains_char].
  destruct (Ascii.eqb "$" c) eqn:E.
  - intros _. apply Ascii.eqb_eq in E as <-. by exists "", r.
  - intros Hr. destruct (IH Hr) as (lit & rest & Hlit & ->).
    exists (String c lit), rest. split; [|done]. cbn [Py.contains_char].
    by rewrite E.
Qed.

Lemma span_id_spec (s n rest : string) :
  span_id s = (n, rest) ->
  all_chars id_char n = true /\ name_ends rest = true /\ s = (n ++ rest)%string.
Proof.
  revert n rest. induction s as [|c s IH]; intros n rest; simpl.
  - by intros [= <- <-].
  - destruct (id_char c) eqn:Ec.
    + destruct (span_id s) as [n' rest'] eqn:E. intros [= <- <-].
      destruct (IH _ _ eq_refl) as (Hall & Hend & ->).
      simpl. by rewrite Ec, Hall.
    + intros [= <- <-]. simpl. by rewrite Ec.
Qed.

Lemma span_id_identifier (c : ascii) (r n rest : string) :
  id_start c = true -> span_id (String c r) = (n, rest) ->
  identifier n = true /\ name_ends rest = true /\
  String c r = (n ++ rest)%string.
Proof.
  intros Hc. simpl. unfold id_char at 1. rewrite Hc. simpl.
  destruct (span_id r) as [n' rest'] eqn:E. intros [= <- <-].
  destruct (span_id_spec _ _ _ E) as (Hall & Hend & ->).
  simpl. by rewrite Hc, Hall.
Qed.

(** What stands after a delimiter, for each alternative of the pattern. *)
Lemma match_after_cases (r : string) :
  match match_after r with
  | Escaped => exists rest, r = ("$" ++ rest)%string
  | Named name =>
      exists rest, identifier name = true /\ name_ends rest = true /\
                   r = (name ++ rest)%string
  | Braced name =>
      exists rest, identifier name = true /\
                   r = ("{" ++ name ++ "}" ++ rest)%string
  | Invalid => True
  end.
Proof.
  unfold match_after. destruct r as [|c r1]; [done|].
  destruct (Ascii.eqb c "$") eqn:Ed.
  { apply Ascii.eqb_eq in Ed as ->. by exists r1. }
  destruct (id_start c) eqn:Ec.
  { destruct (span_id (String c r1)) as [n rest] eqn:E. cbn [fst].
    destruct (span_id_identifier _ _ _ _ Ec E) as (Hid & Hend & Heq).
    by exists rest. }
  destruct (Ascii.eqb c "{") eqn:Eb; [|done].
  apply Ascii.eqb_eq in Eb as ->.
  destruct r1 as [|c1 r2]; [done|]. destruct (id_start c1) eqn:Ec1; [|done].
  destruct (span_id (String c1 r2)) as [n [|d rest]] eqn:E; [done|].
  destruct (Ascii.eqb d "}") eqn:Ee; [|done].
  apply Ascii.eqb_eq in Ee as ->.
  destruct (span_id_identifier _ _ _ _ Ec1 E) as (Hid & _ & Heq).
  exists rest. split; [done|]. rewrite Heq. reflexivity.
Qed.

(** C6. Rendering is a total function of the template and of the entries
    of the context (so the same template and context always give the same
    text, and no template makes it fail), and it is what the message
    composed for a recipient and the preview of a recipient carry as
    subject and body. Reading the template from the left: text without a
    delimiter is copied; a placeholder [$name] or [${name}] whose name is a
    key of the context is replaced by the value stored there; one whose
    name is not a key is copied as written; a delimiter that starts no
    placeholder is copied; and two delimiters in a row give one. Every
    template is text without a delimiter, or such text followed by one of
    these forms. A template without escapes whose placeholders are all
    absent from the context comes out unchanged, as ["Hello $unknown"]
    does. *)
Theorem safe_substitute_placeholders (mapping : dict string string) :
  (forall lit name rest v,
     Py.contains_char "$" lit = false -> identifier name = true ->
     Dict.get mapping name = Some v ->
     (name_ends rest = true ->
      safe_substitute (lit ++ "$" ++ name ++ rest) mapping =
        (lit ++ v ++ safe_substitute rest mapping)%string) /\
     safe_substitute (lit ++ "${" ++ name ++ "}" ++ rest) mapping =
       (lit ++ v ++ safe_substitute rest mapping)%string) /\
  (forall lit name rest,
     Py.contains_char "$" lit = false -> identifier name = true ->
     Dict.get mapping name = None ->
     (name_ends rest = true ->
      safe_substitute (lit ++ "$" ++ name ++ rest) mapping =
        (lit ++ "$" ++ name ++ safe_substitute rest mapping)%string) /\
     safe_substitute (lit ++ "${" ++ name ++ "}" ++ rest) mapping =
       (lit ++ "${" ++ name ++ "}" ++ safe_substitute rest mapping)%string) /\
  (forall lit rest,
     Py.contains_char "$" lit = false -> match_after rest = Invalid ->
     safe_substitute (lit ++ "$" ++ rest) mapping =
       (lit ++ "$" ++ safe_substitute rest mapping)%string) /\
  (forall lit rest,
     Py.contains_char "$" lit = false ->
     safe_substitute (lit ++ "$$" ++ rest) mapping =
       (lit ++ "$" ++ safe_substitute rest mapping)%string) /\
  (forall lit,
     Py.contains_char "$" lit = false -> safe_substitute lit mapping = lit) /\
  (forall template,
     Py.contains_char "$" template = true ->
     exists lit rest,
       Py.contains_char "$" lit = false /\
       template = (lit ++ "$" ++ rest)%string /\
       ((exists rest', rest = ("$" ++ rest')%string) \/
        (exists name rest',
           identifier name = true /\ name_ends rest' = true /\
           rest = (name ++ rest')%string) \/
        (exists name rest',
           identifier name = true /\
           rest = ("{" ++ name ++ "}" ++ rest')%string) \/
        match_after rest = Invalid)) /\
  (forall template,
     no_escape template = true ->
     Forall (fun n => Dict.get mapping n = None) (placeholders 0 template) ->
     safe_substitute template mapping = template) /\
  (Dict.get mapping "unknown" = None ->
   safe_substitute "Hello $unknown" mapping = "Hello $unknown") /\
  (forall template mapping',
     (forall k, Dict.get mapping k = Dict.get mapping' k) ->
     safe_substitute template mapping = safe_substitute template mapping') /\
  (forall header_ok args subject_template body_template attachments msg,
     compose header_ok args subject_template body_template attachments mapping
     = Ok msg ->
     msg_subject msg = safe_substitute subject_template mapping /\
     msg_content msg = safe_substitute body_template mapping) /\
  (forall idx sample subject_template body_template previews,
     preview_loop idx sample subject_template body_template = Ok previews ->
     Forall2 (fun recipient p =>
                pv_subject p = safe_substitute subject_template recipient /\
                pv_body p = safe_substitute body_template recipient)
       sample previews).
Proof.
  unfold safe_substitute. repeat apply conj.
  - intros lit name rest v Hlit Hid Hv. split.
    + intros Hend. rewrite sub_literal, sub_named by done. simpl. by rewrite Hv.
    + rewrite sub_literal, sub_braced by done. simpl. by rewrite Hv.
  - intros lit name rest Hlit Hid Hv. split.
    + intros Hend. rewrite sub_literal, sub_named by done. simpl. rewrite Hv.
      by rewrite append_assoc.
    + rewrite sub_literal, sub_braced by done. simpl. rewrite Hv.
      by rewrite !append_assoc.
  - intros lit rest Hlit Hinv. by rewrite sub_literal, sub_invalid.
  - intros lit rest Hlit. by rewrite sub_literal, sub_escaped.
  - intros lit Hlit. induction lit as [|c lit IH]; [done|].
    cbn [Py.contains_char] in Hlit. cbn [sub]. rewrite (Ascii.eqb_sym c "$").
    destruct (Ascii.eqb "$" c); [done|]. by rewrite IH.
  - intros template Hd.
    destruct (split_at_delimiter template Hd) as (lit & rest & Hlit & ->).
    exists lit, rest. split; [done|]. split; [done|].
    pose proof (match_after_cases rest) as Hcases.
    destruct (match_after rest) as [|name|name|].
    + by left.
    + right. left. destruct Hcases as (rest' & Hid & Hend & ->). by exists name, rest'.
    + right. right. left. destruct Hcases as (rest' & Hid & ->). by exists name, rest'.
    + by right; right; right.
  - intros template Hesc Hall. rewrite sub_absent by done. by destruct template.
  - intros Hno. rewrite sub_absent; [done|done|]. vm_compute.
    constructor; [exact Hno|constructor].
  - intros template mapping' Hext. by apply sub_ext.
  - intros header_ok args subject_template body_template attachments msg Hmsg.
    by apply compose_renders in Hmsg as (_ & Hsubject & Hbody).
  - intros idx sample subject_template body_template previews Hp.
    apply preview_loop_renders in Hp. eapply Forall2_impl; [exact Hp|].
    by intros recipient p (_ & Hsubject & Hbody).
Qed.

Lemma safe_substitute_placeholders_witness :
  safe_substitute ("Dear " ++ "$" ++ "hospital" ++ " in $city,")
    [("hospital", "RS A"); ("city", "Jakarta")]
  = ("Dear " ++ "RS A" ++
       safe_substitute " in $city," [("hospital", "RS A"); ("city", "Jakarta")])%string
  /\ safe_substitute "Hello $unknown" [("hospital", "RS A"); ("city", "Jakarta")]
     = "Hello $unknown"
  /\ safe_substitute ("Rp " ++ "$$" ++ "5 for $city") [("hospital", "RS A"); ("city", "Jakarta")]
     = ("Rp " ++ "$" ++
          safe_substitute "5 for $city" [("hospital", "RS A"); ("city", "Jakarta")])%string.
Proof.
  destruct (safe_substitute_placeholders [("hospital", "RS A"); ("city", "Jakarta")])
    as (Hpresent & _ & _ & Hescape & _ & _ & _ & Hunknown & _).
  split; [|split].
  - apply (Hpresent "Dear " "hospital" " in $city," "RS A"); reflexivity.
  - apply Hunknown. reflexivity.
  - apply (Hescape "Rp " "5 for $city"). reflexivity.
Defined.

(** The scenario of the specification. *)
Example render_dear_hospital :
  safe_substitute "Dear $hospital in $city,"
    [("hospital", "RS A"); ("city", "Jakarta")] = "Dear RS A in Jakarta,".
Proof. reflexivity. Qed.

(** An escape is the one construct that is not copied: [$$] gives [$]. *)
Example render_escape :
  safe_substitute "Rp $$5 ${city}x $ ${bad $1" [("city", "Jakarta")]
  = "Rp $5 Jakartax $ ${bad $1".
Proof. reflexivity. Qed.

(** ** Sender *)

Lemma outcomes_app (l1 l2 : list event) :
  outcomes (l1 ++ l2) = (outcomes l1 ++ outcomes l2)%list.
Proof.
  induction l1 as [|e l1 IH]; [done|]. destruct e; simpl; by rewrite IH.
Qed.


Lemma sleep_accepted (time_sleep : pyfloat -> option exn) (d : pyfloat)
    (log : list event) :
  time_sleep d = None ->
  sleep time_sleep d log = ((log ++ [Sleep d])%list, Ok ()).
Proof. intros Hd. unfold sleep. by rewrite Hd. Qed.



Section SenderFacts.
Context {World : Type}.
Variable smtp_session : Args -> Message -> World -> World * option exn.
Variable time_sleep : pyfloat -> option exn.
Variable header_ok : string -> bool.
Variable args : Args.
Variables subject_template body_template : string.
Variable attachments : list Attachment.

Local Abbreviation loop := (attempt_loop smtp_session time_sleep args).
Local Abbreviation build :=
  (compose header_ok args subject_template body_template attachments).
Local Abbreviation send1 :=
  (send_one smtp_session time_sleep header_ok args subject_template body_template
     attachments).
Local Abbreviation pass :=
  (recipients_pass smtp_session time_sleep header_ok args subject_template
     body_template attachments).
Local Abbreviation run :=
  (send_messages smtp_session time_sleep header_ok args subject_template
     body_template attachments).












(** ** Retries *)

Lemma attempt_succeeds (fuel : nat) (recipient : dict string string)
    (msg : Message) (attempt : Z) (w w1 : World) (log : list event) :
  smtp_session args msg w = (w1, None) ->
  loop (S fuel) recipient msg attempt w log
  = Some (w1, (log ++ [Session msg])%list, Ok ()).
Proof. intros Hs. cbn [attempt_loop]. by rewrite Hs. Qed.

Lemma attempt_exhausted (fuel : nat) (recipient : dict string string)
    (msg : Message) (attempt : Z) (w w1 : World) (log : list event) (exc : exn) :
  smtp_session args msg w = (w1, Some exc) -> retries args < attempt + 1 ->
  loop (S fuel) recipient msg attempt w log
  = Some (w1, (log ++ [Session msg])%list, Raise exc).
Proof.
  intros Hs Hgt. cbn [attempt_loop]. rewrite Hs.
  by rewrite (proj2 (Z.gtb_gt _ _)) by lia.
Qed.

Lemma attempt_retried (fuel : nat) (recipient : dict string string)
    (msg : Message) (email : string) (attempt : Z) (w w1 : World)
    (log : list event) (exc : exn) :
  Dict.get recipient "email" = Some email ->
  smtp_session args msg w = (w1, Some exc) ->
  attempt + 1 <= retries args ->
  time_sleep (float_times (retry_delay args) (attempt + 1)) = None ->
  loop (S fuel) recipient msg attempt w log
  = loop fuel recipient msg (attempt + 1) w1
      (log ++ [ Session msg;
                Retrying email (exn_str exc)
                  (float_times (retry_delay args) (attempt + 1));
                Sleep (float_times (retry_delay args) (attempt + 1)) ])%list.
Proof.
  intros Hemail Hs Hle Hd. cbn [attempt_loop]. rewrite Hs.
  destruct (attempt + 1 >? retries args) eqn:E.
  { apply Z.gtb_gt in E. lia. }
  rewrite Hemail, sleep_accepted by done.
  by rewrite <- !app_assoc.
Qed.




End SenderFacts.

(** * Further properties of the code *)

(** ** Slugs *)

Lemma slug_not_underscore (c : ascii) :
  slug_char c = true -> is_underscore c = false.
Proof.
  unfold is_underscore. destruct (Ascii.eqb c "_") eqn:E; [|done].
  apply Ascii.eqb_eq in E as ->. vm_compute. discriminate.
Qed.

Lemma slug_not_upper (c : ascii) :
  slug_char c = true -> Py.is_upper c = false.
Proof.
  unfold slug_char, Py.is_lower, Py.is_digit, Py.is_upper, Py.in_range.
  intros H. apply orb_true_iff in H as [H|H]; apply andb_true_iff in H as [H1 H2];
    apply Z.leb_le in H1, H2; apply andb_false_iff.
  - right. apply Z.leb_gt. lia.
  - left. apply Z.leb_gt. lia.
Qed.

Lemma underscore_not_upper (c : ascii) :
  is_underscore c = true -> Py.is_upper c = false.
Proof. unfold is_underscore. intros E. by apply Ascii.eqb_eq in E as ->. Qed.

Lemma collapse_runs_chars (s : string) (in_run : bool) :
  all_chars (fun c => slug_char c || is_underscore c) (collapse_runs in_run s) = true.
Proof.
  revert in_run. induction s as [|c r IH]; intros in_run; [done|]. simpl.
  destruct (slug_char c) eqn:E; simpl; [by rewrite E, IH|].
  destruct in_run; [apply IH|]. simpl. apply IH.
Qed.

Lemma collapse_runs_single (s : string) (in_run : bool) :
  has_pair is_underscore (collapse_runs in_run s) = false /\
  (in_run = true -> starts_with is_underscore (collapse_runs in_run s) = false).
Proof.
  revert in_run. induction s as [|c r IH]; intros in_run; [done|]. simpl.
  destruct (slug_char c) eqn:E.
  - destruct (IH false) as [Hp _]. split.
    + destruct (collapse_runs false r) as [|d x] eqn:Er; [done|].
      change (has_pair is_underscore (String c (String d x)))
        with ((is_underscore c && is_underscore d)
              || has_pair is_underscore (String d x)).
      by rewrite (slug_not_underscore _ E), Hp.
    + intros _. simpl. by apply slug_not_underscore.
  - destruct (IH true) as [Hp Hs]. destruct in_run; [by split; auto|].
    split; [|done].
    destruct (collapse_runs true r) as [|d x] eqn:Er; [done|].
    change (has_pair is_underscore (String "_" (String d x)))
      with ((is_underscore "_" && is_underscore d)
            || has_pair is_underscore (String d x)).
    specialize (Hs eq_refl). simpl in Hs. by rewrite Hs, Hp, andb_false_r.
Qed.

Lemma collapse_runs_alnum (s : string) (in_run : bool) :
  any_char slug_char (collapse_runs in_run s) = any_char slug_char s.
Proof.
  revert in_run. induction s as [|c r IH]; intros in_run; [done|]. simpl.
  destruct (slug_char c) eqn:E; simpl; [by rewrite E|].
  destruct in_run; [apply IH|]. simpl. apply IH.
Qed.

Lemma any_char_lower (s : string) :
  any_char slug_char (Py.lower s) = any_char alnum s.
Proof.
  unfold Py.lower. induction s as [|c r IH]; [done|]. simpl. by rewrite IH.
Qed.

Lemma any_char_nonempty (p : ascii -> bool) (s : string) :
  any_char p s = true -> s <> "".
Proof. by destruct s. Qed.

Lemma any_char_all_chars (p : ascii -> bool) (s : string) :
  any_char p s = false -> all_chars (fun c => negb (p c)) s = true.
Proof.
  induction s as [|c r IH]; [done|]. simpl. intros H.
  apply orb_false_iff in H as [-> H]. by rewrite IH.
Qed.

Lemma collapse_runs_no_alnum (s : string) (in_run : bool) :
  any_char slug_char s = false ->
  all_chars is_underscore (collapse_runs in_run s) = true.
Proof.
  revert in_run. induction s as [|c r IH]; intros in_run; [done|]. simpl.
  intros H. apply orb_false_iff in H as [-> H].
  destruct in_run; [by apply IH|]. simpl. by apply IH.
Qed.

(** A slug has the shape of a slug. *)
Lemma slugify_shaped (text : string) : slug_shaped (slugify text) = true.
Proof.
  unfold slug_shaped, slugify.
  change (fun c : ascii => Ascii.eqb c "_") with is_underscore.
  destruct (strip_with_shape is_underscore (collapse_runs false (Py.lower text)))
    as [Hs He].
  rewrite Hs, He. unfold Py.strip_with.
  rewrite rstrip_all_chars, rstrip_no_pair; try done.
  - apply lstrip_no_pair, collapse_runs_single.
  - apply lstrip_all_chars, collapse_runs_chars.
Qed.

Lemma lower_fixed (s : string) :
  all_chars (fun c => slug_char c || is_underscore c) s = true -> Py.lower s = s.
Proof.
  unfold Py.lower. induction s as [|c r IH]; [done|]. simpl. intros H.
  apply andb_true_iff in H as [Hc H]. rewrite (IH H). f_equal.
  unfold Py.lower_char. apply orb_true_iff in Hc as [Hc|Hc].
  - by rewrite (slug_not_upper _ Hc).
  - by rewrite (underscore_not_upper _ Hc).
Qed.

Lemma collapse_runs_fixed (s : string) (in_run : bool) :
  all_chars (fun c => slug_char c || is_underscore c) s = true ->
  has_pair is_underscore s = false ->
  (in_run = true -> starts_with is_underscore s = false) ->
  collapse_runs in_run s = s.
Proof.
  revert in_run. induction s as [|c r IH]; intros in_run Hall Hp Hs; [done|].
  simpl in Hall. apply andb_true_iff in Hall as [Hc Hall].
  assert (has_pair is_underscore r = false) as Hp'.
  { destruct r as [|d r']; [done|]. cbn [has_pair] in Hp.
    by apply orb_false_iff in Hp as [_ Hp]. }
  simpl. destruct (slug_char c) eqn:E.
  - by rewrite IH.
  - simpl in Hc. destruct in_run.
    + specialize (Hs eq_refl). simpl in Hs. congruence.
    + unfold is_underscore in Hc. apply Ascii.eqb_eq in Hc as ->.
      rewrite IH; try done. intros _. destruct r as [|d r']; [done|].
      cbn [has_pair] in Hp. apply orb_false_iff in Hp as [Hp _]. exact Hp.
Qed.

Lemma slug_shaped_fixed (s : string) : slug_shaped s = true -> slugify s = s.
Proof.
  unfold slug_shaped. intros H.
  apply andb_true_iff in H as [H He]. apply andb_true_iff in H as [H Hs].
  apply andb_true_iff in H as [Hall Hp].
  apply negb_true_iff in He, Hs, Hp.
  unfold slugify. rewrite lower_fixed, collapse_runs_fixed by done.
  by apply strip_with_fixed.
Qed.

(** X1. The slug of any text has the shape of a slug (lower-case letters,
    digits and single underscores, none at either end), and slugifying a
    slug gives it back. *)
Theorem slugify_idempotent (text : string) :
  slug_shaped (slugify text) = true /\
  slugify (slugify text) = slugify text.
Proof.
  split; [apply slugify_shaped|]. apply slug_shaped_fixed, slugify_shaped.
Qed.

(** X2. The slug of an ASCII text is empty exactly when the text has no
    letter and no digit. *)
Theorem slugify_empty_iff (text : string) :
  is_ascii text = true ->
  slugify text = "" <-> any_char alnum text = false.
Proof.
  intros _.
  unfold slugify. change (fun c : ascii => Ascii.eqb c "_") with is_underscore.
  split.
  - intros Hempty. destruct (any_char alnum text) eqn:E; [|done]. exfalso.
    assert (any_char slug_char
              (Py.strip_with is_underscore (collapse_runs false (Py.lower text)))
            = true) as Hany.
    { unfold Py.strip_with. rewrite rstrip_any_char, lstrip_any_char.
      - by rewrite collapse_runs_alnum, any_char_lower.
      - intros c Hc. destruct (slug_char c) eqn:Es; [|done].
        by rewrite (slug_not_underscore _ Es) in Hc.
      - intros c Hc. destruct (slug_char c) eqn:Es; [|done].
        by rewrite (slug_not_underscore _ Es) in Hc. }
    by apply any_char_nonempty in Hany.
  - intros Hnone. unfold Py.strip_with. rewrite lstrip_all_stripped; [done|].
    apply collapse_runs_no_alnum. by rewrite any_char_lower.
Qed.

Lemma slugify_empty_iff_witness :
  slugify "-- (!) --" = "" /\ any_char alnum "RS A" = true.
Proof.
  split.
  - apply (proj2 (slugify_empty_iff "-- (!) --" eq_refl)). reflexivity.
  - destruct (any_char alnum "RS A") eqn:E; [reflexivity|].
    apply (proj2 (slugify_empty_iff "RS A" eq_refl)) in E. discriminate E.
Defined.

(** ** Cell references *)

Lemma span_upper_split (s u rest : string) :
  span_upper s = (u, rest) -> s = (u ++ rest)%string.
Proof.
  revert u rest. induction s as [|c s IH]; intros u rest; simpl.
  - by intros [= <- <-].
  - destruct (Py.is_upper c).
    + destruct (span_upper s) as [u' rest'] eqn:E. intros [= <- <-].
      rewrite append_cons. f_equal. by apply IH.
    + by intros [= <- <-].
Qed.

Lemma digit_not_upper (d : ascii) : Py.is_digit d = true -> Py.is_upper d = false.
Proof.
  unfold Py.is_digit, Py.is_upper, Py.in_range. intros H.
  apply andb_true_iff in H as [H1 H2]. apply Z.leb_le in H1, H2.
  apply andb_false_iff. left. apply Z.leb_gt. lia.
Qed.

Lemma span_upper_letters (letters rest : string) :
  all_chars Py.is_upper letters = true -> starts_with Py.is_upper rest = false ->
  span_upper (letters ++ rest) = (letters, rest).
Proof.
  intros Hup Hrest. induction letters as [|c r IH].
  - rewrite append_nil_l. destruct rest as [|d rest]; [done|].
    simpl in *. by rewrite Hrest.
  - simpl in Hup. apply andb_true_iff in Hup as [Hc Hr].
    rewrite append_cons. cbn [span_upper]. by rewrite Hc, IH.
Qed.

(** X3. An ASCII cell reference is accepted exactly when it is one or
    more capital letters followed by a digit, whatever comes after; the
    column label is the whole run of capital letters. *)
Theorem cell_ref_match_iff (ref letters : string) :
  is_ascii ref = true ->
  cell_ref_match ref = Some letters <->
  letters <> "" /\ all_chars Py.is_upper letters = true /\
  exists d rest, Py.is_digit d = true /\ ref = (letters ++ String d rest)%string.
Proof.
  intros _. split.
  - intros Hm. pose proof (cell_ref_match_upper _ _ Hm) as [Hup Hne].
    split; [done|]. split; [done|].
    unfold cell_ref_match in Hm. destruct (span_upper ref) as [u rest] eqn:E.
    destruct u as [|c u]; [done|]. destruct rest as [|d rest]; [done|].
    destruct (Py.is_digit d) eqn:Ed; [|done]. injection Hm as <-.
    exists d, rest. split; [done|]. by apply span_upper_split.
  - intros (Hne & Hup & d & rest & Hd & ->). unfold cell_ref_match.
    rewrite span_upper_letters; [|done|by apply digit_not_upper].
    destruct letters as [|c u]; [done|]. by rewrite Hd.
Qed.

Lemma cell_ref_match_iff_witness :
  cell_ref_match "AB12" = Some "AB" /\ cell_ref_match "ab12" = None /\
  cell_ref_match "AB" = None /\ cell_ref_match "7" = None.
Proof.
  split; [|by vm_compute].
  apply (proj2 (cell_ref_match_iff "AB12" "AB" eq_refl)).
  split; [discriminate|]. split; [reflexivity|].
  exists "1"%char, "2". split; reflexivity.
Defined.

(** ** What the reader raises *)

Lemma read_cell_value_raise_int (cell : Element) (shared : list string) (e : exn) :
  read_cell_value cell shared = Raise e ->
  get cell "t" = Some "s" /\
  exists t, value_text cell = Some t /\ Py.int t = None /\ e = int_error t.
Proof.
  unfold read_cell_value, value_text. case_decide as Hs.
  - destruct (find cell (NS ++ "v")) as [v|]; simpl; [|done].
    destruct (text v) as [t|]; [|done].
    destruct (Py.int t) eqn:Ei; [done|]. intros [= <-]. eauto.
  - case_decide; [by destruct (find cell (NS ++ "is"))|].
    case_decide.
    + destruct (find cell (NS ++ "v")); [by case_decide|done].
    + by destruct (find cell (NS ++ "v")) as [[? ? [?|] ? ?]|].
Qed.

(** X4. Resolving a cell whose value text is ASCII raises only for a
    shared-string cell whose value text [int] refuses (a text that is no
    decimal integer literal, or one of more than 4300 digits), and then it
    is the [ValueError] that [int] raises for that text. *)
Theorem read_cell_value_raises_iff (cell : Element) (shared : list string) (e : exn) :
  (forall t, value_text cell = Some t -> is_ascii t = true) ->
  read_cell_value cell shared = Raise e <->
  get cell "t" = Some "s" /\
  exists t, value_text cell = Some t /\ Py.int t = None /\ e = int_error t.
Proof.
  intros _. split; [apply read_cell_value_raise_int|].
  unfold read_cell_value, value_text.
  intros (Hs & t & Hv & Hi & ->). rewrite decide_True by done.
  destruct (find cell (NS ++ "v")) as [v|]; simpl in Hv; [|done].
  by rewrite Hv, Hi.
Qed.

Lemma read_cell_value_raises_iff_witness :
  read_cell_value (xml_typed_cell "A1" "s" "1.0") ["a"; "b"]
  = Raise (ValueError "invalid literal for int() with base 10: '1.0'").
Proof.
  apply read_cell_value_raises_iff.
  - intros t [= <-]. reflexivity.
  - split; [reflexivity|]. exists "1.0". repeat split; reflexivity.
Defined.

Lemma read_cells_ok_iff (shared : list string) (cs : list Element)
    (d : dict Z string) :
  is_ok (read_cells shared cs d) = true <->
  Forall (fun cell => referenced cell = true ->
                      is_ok (read_cell_value cell shared) = true) cs.
Proof.
  revert d. induction cs as [|c cs IH]; intros d.
  - simpl. split; [constructor|done].
  - rewrite read_cells_cons, Forall_cons. unfold referenced at 1.
    destruct (cell_column c) as [col|] eqn:E.
    + destruct (read_cell_value c shared) as [v|e]; cbn [mbind result_bind is_ok].
      * rewrite IH. split; [by split|by intros [_ ?]].
      * split; [done|]. intros [H _]. apply H.
        apply bool_decide_eq_true. eauto.
    + rewrite IH. split; [|by intros [_ ?]]. intros H. split; [|done].
      intros Hr. apply bool_decide_eq_true in Hr as [? ?]. done.
Qed.

Lemma read_cells_raise (shared : list string) (cs : list Element)
    (d : dict Z string) (e : exn) :
  read_cells shared cs d = Raise e ->
  exists cell, cell ∈ cs /\ referenced cell = true /\
               read_cell_value cell shared = Raise e.
Proof.
  revert d. induction cs as [|c cs IH]; intros d; [done|].
  rewrite read_cells_cons. destruct (cell_column c) as [col|] eqn:E.
  - destruct (read_cell_value c shared) as [v|e'] eqn:Ev; simpl.
    + intros H. destruct (IH _ H) as (cell & Hin & Hr & Hc).
      exists cell. split; [by right|done].
    + intros [= ->]. exists c. split; [left|]. split; [|done].
      unfold referenced. apply bool_decide_eq_true. by rewrite E.
  - intros H. destruct (IH _ H) as (cell & Hin & Hr & Hc).
    exists cell. split; [by right|done].
Qed.

Lemma iter_rows_completes_iff (shared : list string) (rows : list Element)
    (header_map : option (dict Z string)) :
  (iter_rows shared rows header_map).2 = None <->
  Forall (fun r => is_ok (row_cells shared r) = true) rows.
Proof.
  split; [apply iter_rows_all_ok|].
  intros Hall. revert header_map.
  induction Hall as [|row rows Hrow _ IH]; intros header_map; [done|]. simpl.
  destruct (row_cells shared row) as [cells|e]; [|done].
  destruct (Dict.truthy cells); simpl; [|apply IH].
  destruct header_map as [hm|]; [|apply IH].
  specialize (IH (Some hm)). destruct (iter_rows shared rows (Some hm)) as [ys e].
  by destruct (Dict.truthy (make_row_dict hm cells)).
Qed.

Lemma iter_rows_raise (shared : list string) (rows : list Element)
    (header_map : option (dict Z string)) (e : exn) :
  (iter_rows shared rows header_map).2 = Some e ->
  exists row, row ∈ rows /\ row_cells shared row = Raise e.
Proof.
  revert header_map. induction rows as [|row rows IH]; intros header_map; [done|].
  simpl. destruct (row_cells shared row) as [cells|e'] eqn:E.
  - intros H.
    assert (exists hm', (iter_rows shared rows hm').2 = Some e) as [hm' H'].
    { destruct (Dict.truthy cells); simpl in H; [|eauto].
      destruct header_map as [hm|]; [|eauto].
      exists (Some hm). destruct (iter_rows shared rows (Some hm)) as [ys e0].
      by destruct (Dict.truthy (make_row_dict hm cells)). }
    destruct (IH _ H') as (r & Hin & Hr). exists r. split; [by right|done].
  - simpl. intros [= ->]. exists row. split; [left|done].
Qed.

(** X5. The reader finishes without raising exactly when the file is
    there, [zipfile] and [ET.fromstring] raise nothing on it, the archive
    has its first worksheet and every referenced cell of every row
    resolves; a cell without a usable reference is never resolved, so it
    cannot make the reader fail. *)
Theorem iter_sheet_rows_completes_iff (workbook : Workbook) :
  (iter_sheet_rows workbook).2 = None <->
  (exists shared_xml sheet_root, workbook = Archive shared_xml (Some sheet_root)) /\
  Forall (fun row =>
            Forall (fun cell =>
                      referenced cell = true ->
                      is_ok (read_cell_value cell (workbook_shared workbook)) = true)
              (findall row (NS ++ "c")))
    (sheet_rows workbook).
Proof.
  destruct workbook as [path|exc|shared_xml [sheet_root|]]; simpl.
  - split; [done|]. by intros [(? & ? & ?) _].
  - split; [done|]. by intros [(? & ? & ?) _].
  - destruct (find sheet_root (NS ++ "sheetData")) as [sheet_data|]; simpl.
    + rewrite iter_rows_completes_iff. split.
      * intros H. split; [eauto|]. eapply Forall_impl; [exact H|].
        intros row Hrow. by apply read_cells_ok_iff in Hrow.
      * intros [_ H]. eapply Forall_impl; [exact H|].
        intros row Hrow. by apply read_cells_ok_iff.
    + split; [|done]. intros _. split; [eauto|constructor].
  - split; [done|]. by intros [(? & ? & ?) _].
Qed.

Lemma iter_sheet_rows_completes_iff_witness :
  (iter_sheet_rows
     (Archive None
        (Some (xml_sheet
           [ xml_row [xml_cell "A1" "Nama"];
             xml_row [xml_cell "A2" "x";
                      Elem (NS ++ "c") [("t", "s")] None None [xml_value "oops"]]
           ])))).2 = None.
Proof.
  apply iter_sheet_rows_completes_iff. split; [eauto|].
  repeat constructor; vm_compute; congruence.
Defined.

Lemma int_error_class (t : string) : exists msg, int_error t = ValueError msg.
Proof. unfold int_error. destruct (Py.int_parse t); eauto. Qed.

(** X6. Whatever ends the reader is one of four things: the
    [FileNotFoundError] of a missing file; the exception that checking the
    path, [zipfile] or [ET.fromstring] raises on a file that cannot be read
    as a workbook; the [RuntimeError] of an archive
    without its first worksheet; or a [ValueError] of [int] on the value
    of a referenced shared-string cell, which for an ASCII value is the
    one [int] raises for that text. *)
Theorem iter_sheet_rows_raises (workbook : Workbook) (e : exn) :
  (iter_sheet_rows workbook).2 = Some e ->
  (exists path, workbook = NoSuchFile path /\
     e = FileNotFoundError ("Workbook " ++ path ++ " does not exist.")) \/
  workbook = Unreadable e \/
  (exists shared_xml, workbook = Archive shared_xml None /\
     e = RuntimeError "Could not load the first worksheet from the Excel file.") \/
  (exists row cell t,
     row ∈ sheet_rows workbook /\ cell ∈ findall row (NS ++ "c") /\
     referenced cell = true /\ get cell "t" = Some "s" /\
     value_text cell = Some t /\ Py.int t = None /\
     (exists msg, e = ValueError msg) /\
     (is_ascii t = true -> e = int_error t)).
Proof.
  destruct workbook as [path|exc|shared_xml [sheet_root|]]; simpl.
  - intros [= <-]. left. eauto.
  - intros [= <-]. right. by left.
  - destruct (find sheet_root (NS ++ "sheetData")) as [sheet_data|]; [|done].
    intros H. right. right. right.
    apply iter_rows_raise in H as (row & Hrow & Hcells).
    apply read_cells_raise in Hcells as (cell & Hcell & Href & Hraise).
    apply read_cell_value_raise_int in Hraise as (Hs & t & Hv & Hi & ->).
    exists row, cell, t. repeat split; try done. apply int_error_class.
  - intros [= <-]. right. right. left. eauto.
Qed.

Lemma iter_sheet_rows_raises_witness :
  exists row cell t,
    row ∈ sheet_rows (Archive None (Some (xml_sheet
            [ xml_row [xml_cell "A1" "Nama"];
              xml_row [xml_typed_cell "A2" "s" "x"] ]))) /\
    cell ∈ findall row (NS ++ "c") /\
    referenced cell = true /\ get cell "t" = Some "s" /\
    value_text cell = Some t /\ Py.int t = None /\
    (exists msg,
       ValueError "invalid literal for int() with base 10: 'x'" = ValueError msg) /\
    (is_ascii t = true ->
     ValueError "invalid literal for int() with base 10: 'x'" = int_error t).
Proof.
  destruct (iter_sheet_rows_raises
              (Archive None (Some (xml_sheet
                 [ xml_row [xml_cell "A1" "Nama"];
                   xml_row [xml_typed_cell "A2" "s" "x"] ])))
              (ValueError "invalid literal for int() with base 10: 'x'") eq_refl)
    as [(path & Hp & _)|[Hu|[(sx & Hs & _)|H]]];
    [discriminate|discriminate|discriminate|exact H].
Defined.

(** ** Keys and texts of the rows *)

Section DictOrder.
Context {K V : Type} `{EqDecision K}.
Implicit Types (d items : list (K * V)) (k : K) (v : V).

Lemma dict_mem_keys d k : Dict.mem d k = bool_decide (k ∈ Dict.keys d).
Proof.
  unfold Dict.mem, Dict.keys. destruct (Dict.get d k) eqn:E.
  - symmetry. apply bool_decide_eq_true. apply dict_get_is_Some. eauto.
  - symmetry. apply bool_decide_eq_false. by apply dict_get_None.
Qed.

Lemma dict_update_keys d items :
  Dict.keys (Dict.update d items) =
    fold_left (fun acc k => if decide (k ∈ acc) then acc else (acc ++ [k])%list)
      items.*1 (Dict.keys d).
Proof.
  revert d. induction items as [|[k v] items IH]; intros d; [done|].
  change (Dict.update d ((k, v) :: items)) with (Dict.update (Dict.set d k v) items).
  rewrite IH, dict_set_keys, dict_mem_keys. unfold Dict.keys.
  rewrite fmap_cons. cbn [fold_left fst].
  case_bool_decide; [by rewrite decide_True|by rewrite decide_False].
Qed.

Lemma dict_of_items_order items :
  Dict.keys (Dict.of_items items) = insertion_order items.*1.
Proof. unfold Dict.of_items. by rewrite dict_update_keys. Qed.

Lemma dict_update_nodup d items :
  NoDup (Dict.keys d) -> NoDup (Dict.keys (Dict.update d items)).
Proof.
  revert d. induction items as [|[k v] items IH]; intros d Hnd; [done|].
  change (Dict.update d ((k, v) :: items)) with (Dict.update (Dict.set d k v) items).
  by apply IH, dict_set_nodup.
Qed.

Lemma dict_set_elem d k v k' v' :
  (k', v') ∈ Dict.set d k v -> (k', v') ∈ d \/ v' = v.
Proof.
  induction d as [|[k0 v0] d IH]; simpl.
  - intros Hin. apply list_elem_of_singleton in Hin as [= -> ->]. by right.
  - destruct (decide (k0 = k)) as [->|Hne]; intros Hin;
      apply elem_of_cons in Hin as [[= -> ->]|Hin].
    + by right.
    + left. by right.
    + left. left.
    + destruct (IH Hin) as [?|?]; [left; by right|by right].
Qed.

Lemma dict_update_values (P : V -> Prop) d items :
  Forall P d.*2 -> Forall P items.*2 -> Forall P (Dict.update d items).*2.
Proof.
  revert d. induction items as [|[k v] items IH]; intros d Hd Hi; [done|].
  change (Dict.update d ((k, v) :: items)) with (Dict.update (Dict.set d k v) items).
  rewrite fmap_cons in Hi. apply Forall_cons in Hi as [Hv Hi].
  apply IH; [|done]. apply Forall_forall. intros x Hx.
  apply list_elem_of_fmap in Hx as ([k' v'] & -> & Hin).
  apply dict_set_elem in Hin as [Hin| ->]; [|done].
  rewrite Forall_forall in Hd. apply Hd. apply list_elem_of_fmap. by exists (k', v').
Qed.
End DictOrder.

Lemma insertion_order_of_items {K} `{EqDecision K} (ks : list K) :
  insertion_order ks = Dict.keys (Dict.of_items ((fun k => (k, ())) <$> ks)).
Proof.
  rewrite dict_of_items_order. f_equal. rewrite <- list_fmap_compose.
  induction ks as [|k ks IH]; [done|]. rewrite fmap_cons. simpl. by rewrite <- IH.
Qed.

Lemma insertion_order_nodup {K} `{EqDecision K} (ks : list K) :
  NoDup (insertion_order ks).
Proof.
  rewrite insertion_order_of_items. apply dict_update_nodup. constructor.
Qed.

Lemma insertion_order_elem {K} `{EqDecision K} (ks : list K) (k : K) :
  k ∈ insertion_order ks <-> k ∈ ks.
Proof.
  rewrite insertion_order_of_items. unfold Dict.keys.
  rewrite dict_of_items_keys, <- list_fmap_compose.
  assert (fst ∘ (fun k0 : K => (k0, ())) <$> ks = ks) as ->; [|done].
  induction ks as [|x ks IH]; [done|]. rewrite fmap_cons. simpl. by rewrite IH.
Qed.

Lemma make_row_dict_keys (hm cells : dict Z string) :
  Dict.keys (make_row_dict hm cells) =
    insertion_order (List.filter Py.truthy hm.*2).
Proof.
  unfold make_row_dict. rewrite dict_of_items_order. f_equal.
  induction hm as [|[i h] hm IH]; [done|]. rewrite fmap_cons. simpl.
  destruct (Py.truthy h); [|exact IH]. simpl. by rewrite <- IH.
Qed.

Lemma header_columns_names (workbook : Workbook) :
  header_columns workbook ≡ₚ
    match nonempty_rows workbook with
    | hdr :: _ => cells_of (workbook_shared workbook) hdr
    | [] => []
    end.
Proof.
  unfold header_columns. destruct (nonempty_rows workbook) as [|hdr rest]; [done|].
  apply make_header_map_perm. unfold cells_of.
  destruct (row_cells _ hdr) as [cells|e] eqn:E; [|constructor].
  by eapply row_cells_nodup.
Qed.

(** X7. When the reader finishes, all the rows it yields have the same
    keys in the same order: the non-empty header texts by column, a
    repeated text standing where it first occurs. No key is repeated and
    none is empty. *)
Theorem iter_sheet_rows_same_keys (workbook : Workbook) :
  (iter_sheet_rows workbook).2 = None ->
  Forall (fun row => Dict.keys row = row_keys workbook) (iter_sheet_rows workbook).1 /\
  NoDup (row_keys workbook) /\
  ("" ∉ row_keys workbook) /\
  (forall k, k ∈ row_keys workbook -> k ∈ header_names workbook).
Proof.
  intros Hfin. split; [|split; [|split]].
  - rewrite (iter_sheet_rows_rows _ Hfin) in Hfin |- *.
    rewrite (iter_rows_from_start _ _ Hfin).
    unfold row_keys, header_columns, nonempty_rows.
    destruct (List.filter has_cells (sheet_rows workbook)) as [|hdr rest];
      [constructor|].
    cbv zeta. destruct (existsb _ _); [|constructor].
    apply Forall_forall. intros row Hrow.
    apply list_elem_of_In, in_map_iff in Hrow as (r & <- & _).
    apply make_row_dict_keys.
  - apply insertion_order_nodup.
  - unfold row_keys. rewrite insertion_order_elem. intros Hin.
    apply list_elem_of_In, filter_In in Hin as [_ Hin]. done.
  - intros k. unfold row_keys. rewrite insertion_order_elem. intros Hin.
    apply list_elem_of_In, filter_In in Hin as [Hin _].
    apply list_elem_of_In in Hin. unfold header_names.
    pose proof (header_columns_names workbook) as Hperm.
    destruct (nonempty_rows workbook) as [|hdr rest].
    + apply Permutation_nil_r in Hperm. rewrite Hperm in Hin.
      by apply elem_of_nil in Hin.
    + by rewrite <- Hperm.
Qed.

Lemma iter_sheet_rows_same_keys_witness :
  Forall (fun row => Dict.keys row = row_keys gap_book) (iter_sheet_rows gap_book).1 /\
  row_keys gap_book = ["Rumah Sakit"; "Kab/Kota"; "Email Perusahaan"].
Proof.
  split; [|reflexivity].
  exact (proj1 (iter_sheet_rows_same_keys gap_book eq_refl)).
Defined.

Lemma strip_trimmed (s : string) : trimmed (Py.strip s).
Proof. apply strip_with_idem. Qed.

Lemma read_cells_trimmed (shared : list string) (cs : list Element)
    (d cells : dict Z string) :
  read_cells shared cs d = Ok cells -> Forall trimmed d.*2 -> Forall trimmed cells.*2.
Proof.
  revert d. induction cs as [|c cs IH]; intros d.
  - simpl. by intros [= ->].
  - rewrite read_cells_cons. destruct (cell_column c) as [col|]; [|apply IH].
    destruct (read_cell_value c shared) as [v|e]; [|done]. simpl.
    intros Hrest Hd. apply (IH _ Hrest).
    change (Dict.set d col (Py.strip v)) with (Dict.update d [(col, Py.strip v)]).
    apply dict_update_values; [done|]. repeat constructor. apply strip_trimmed.
Qed.

Lemma make_header_map_trimmed (cells : dict Z string) :
  Forall trimmed cells.*2 -> Forall trimmed (make_header_map cells).*2.
Proof.
  intros Hc. unfold make_header_map, Dict.of_items.
  apply dict_update_values; [constructor|].
  apply Forall_forall. intros v Hv.
  apply list_elem_of_fmap in Hv as ([i h] & -> & Hin).
  apply list_elem_of_In, in_map_iff in Hin as (idx & [= <- <-] & _).
  unfold Dict.get_default. destruct (Dict.get cells idx) as [v|] eqn:E; [|done].
  apply dict_get_Some_elem in E. rewrite Forall_forall in Hc. apply Hc.
  apply list_elem_of_fmap. by exists (idx, v).
Qed.

Lemma make_row_dict_trimmed (hm cells : dict Z string) :
  Forall trimmed hm.*2 ->
  Forall trimmed (make_row_dict hm cells).*1 /\
  Forall trimmed (make_row_dict hm cells).*2.
Proof.
  intros Hhm. split.
  - change ((make_row_dict hm cells).*1) with (Dict.keys (make_row_dict hm cells)).
    rewrite make_row_dict_keys. apply Forall_forall. intros k Hk.
    apply insertion_order_elem, list_elem_of_In, filter_In in Hk as [Hk _].
    rewrite Forall_forall in Hhm. by apply Hhm, list_elem_of_In.
  - unfold make_row_dict, Dict.of_items.
    apply dict_update_values; [constructor|].
    apply Forall_forall. intros v Hv.
    apply list_elem_of_fmap in Hv as ([h x] & -> & Hin).
    apply list_elem_of_In, in_map_iff in Hin as ([i h'] & [= <- <-] & _).
    apply strip_trimmed.
Qed.

Lemma iter_rows_trimmed (shared : list string) (rows : list Element)
    (header_map : option (dict Z string)) :
  (forall hm, header_map = Some hm -> Forall trimmed hm.*2) ->
  Forall (fun row => Forall trimmed row.*1 /\ Forall trimmed row.*2)
    (iter_rows shared rows header_map).1.
Proof.
  revert header_map. induction rows as [|row rows IH]; intros header_map Hhm; simpl.
  - constructor.
  - destruct (row_cells shared row) as [cells|e] eqn:E; [|constructor].
    destruct (Dict.truthy cells); simpl; [|by apply IH].
    destruct header_map as [hm|].
    + specialize (IH (Some hm) Hhm).
      destruct (iter_rows shared rows (Some hm)) as [ys e].
      destruct (Dict.truthy (make_row_dict hm cells)); [|exact IH].
      constructor; [|exact IH]. apply make_row_dict_trimmed. by apply Hhm.
    + apply IH. intros hm [= <-]. apply make_header_map_trimmed.
      eapply read_cells_trimmed; [exact E|constructor].
Qed.

(** X8. Every key and every value of every row the reader yields is
    trimmed text: stripping it again changes nothing. *)
Theorem iter_sheet_rows_trimmed (workbook : Workbook) :
  Forall (fun row => Forall trimmed row.*1 /\ Forall trimmed row.*2)
    (iter_sheet_rows workbook).1.
Proof.
  destruct workbook as [path|exc|shared_xml [sheet_root|]]; simpl; try constructor.
  destruct (find sheet_root (NS ++ "sheetData")); [|constructor].
  apply iter_rows_trimmed. intros hm Hhm. discriminate Hhm.
Qed.

(** ** Keys and values of a context *)

Lemma add_slugs_keys (items : list (string * string)) (context : dict string string) :
  NoDup (Dict.keys context) ->
  exists extra,
    Dict.keys (add_slugs items context) = (Dict.keys context ++ extra)%list /\
    NoDup (Dict.keys (add_slugs items context)) /\
    Forall (fun k => k <> "" /\ exists h, h ∈ items.*1 /\ k = slugify h) extra.
Proof.
  revert context. induction items as [|[key value] items IH]; intros context Hnd.
  - exists []. by rewrite app_nil_r.
  - simpl.
    destruct (Py.truthy (slugify key) && negb (Dict.mem context (slugify key))) eqn:E.
    + apply andb_true_iff in E as [Ht Hm]. apply negb_true_iff in Hm.
      destruct (IH (Dict.set context (slugify key) (Py.strip (Py.or_str (Some value) ""))))
        as (extra & Hk & Hnd' & Hall); [by apply dict_set_nodup|].
      rewrite dict_set_keys, Hm, <- app_assoc in Hk.
      exists (slugify key :: extra). split; [exact Hk|]. split; [exact Hnd'|].
      constructor.
      * split; [by apply truthy_true|]. exists key. split; [left|done].
      * eapply Forall_impl; [exact Hall|]. intros k (Hne & h & Hh & ->).
        split; [done|]. exists h. split; [by right|done].
    + destruct (IH context Hnd) as (extra & Hk & Hnd' & Hall).
      exists extra. split; [exact Hk|]. split; [exact Hnd'|].
      eapply Forall_impl; [exact Hall|]. intros k (Hne & h & Hh & ->).
      split; [done|]. exists h. split; [by right|done].
Qed.

(** X9. The keys of a context are the eight fixed keys, in their order,
    followed by slugs of headers of the row: none of them is empty, none is
    repeated, and nothing else is ever a key. *)
Theorem build_context_keys (row : dict string string) :
  exists extra,
    Dict.keys (build_context row) = (fixed_keys ++ extra)%list /\
    NoDup (Dict.keys (build_context row)) /\
    Forall (fun k => k <> "" /\ slug_shaped k = true /\
                     exists h, h ∈ Dict.keys row /\ k = slugify h) extra.
Proof.
  unfold build_context.
  destruct (add_slugs_keys row (fixed_context row)) as (extra & Hk & Hnd & Hall).
  { unfold fixed_context, Dict.keys. simpl.
    repeat (constructor; [rewrite ?not_elem_of_cons; repeat split;
                           first [discriminate|apply not_elem_of_nil]|]).
    constructor. }
  exists extra. split; [exact Hk|]. split; [exact Hnd|].
  eapply Forall_impl; [exact Hall|]. intros k (Hne & h & Hh & ->).
  split; [done|]. split; [apply slugify_shaped|]. by exists h.
Qed.

Lemma build_context_keys_witness :
  Dict.keys (build_context [("Kelas RS", "C"); ("---", "x"); ("Email", "e@x.id")])
  = (fixed_keys ++ ["kelas_rs"])%list.
Proof.
  destruct (build_context_keys [("Kelas RS", "C"); ("---", "x"); ("Email", "e@x.id")])
    as (extra & Hk & _ & _).
  rewrite Hk. f_equal.
  apply (app_inv_head fixed_keys). rewrite <- Hk. reflexivity.
Defined.

Lemma field_value (row : dict string string) (x : option string) :
  (forall v0, x = Some v0 -> v0 ∈ row.*2) ->
  Py.strip (Py.or_str x "") = "" \/
  exists v0, v0 ∈ row.*2 /\ Py.strip (Py.or_str x "") = Py.strip v0.
Proof.
  intros Hx. destruct x as [v0|]; [|by left]. simpl.
  destruct (Py.truthy v0); [|by left]. right. exists v0. split; [by apply Hx|done].
Qed.

Lemma dict_get_value (row : dict string string) (h v0 : string) :
  Dict.get row h = Some v0 -> v0 ∈ row.*2.
Proof.
  intros H. apply dict_get_Some_elem in H. apply list_elem_of_fmap. by exists (h, v0).
Qed.

Lemma add_slugs_values (P : string -> Prop) (items : list (string * string))
    (context : dict string string) :
  Forall P context.*2 ->
  Forall (fun v0 => P (Py.strip (Py.or_str (Some v0) ""))) items.*2 ->
  Forall P (add_slugs items context).*2.
Proof.
  revert context. induction items as [|[key value] items IH]; intros context Hc Hi;
    [done|].
  rewrite fmap_cons in Hi. apply Forall_cons in Hi as [Hv Hi]. simpl.
  destruct (Py.truthy (slugify key) && negb (Dict.mem context (slugify key)));
    [|by apply IH].
  apply IH; [|done].
  change (Dict.set context ?k ?v) with (Dict.update context [(k, v)]).
  apply dict_update_values; [done|]. by repeat constructor.
Qed.

Lemma build_context_stripped (row : dict string string) :
  Forall (fun v => trimmed v /\
                   (v = "" \/ exists v0, v0 ∈ row.*2 /\ v = Py.strip v0))
    (build_context row).*2.
Proof.
  unfold build_context. apply add_slugs_values.
  - unfold fixed_context, field1, field2. simpl.
    repeat (constructor;
            [split; [apply strip_trimmed|];
             apply field_value; intros v0 Hv0|]);
      try (by eapply dict_get_value); try constructor.
    all: unfold Py.or_opt in Hv0;
      repeat match type of Hv0 with
             | context [Dict.get ?r ?h] =>
                 let E := fresh "E" in
                 destruct (Dict.get r h) as [?|] eqn:E
             | context [Py.truthy ?s] => destruct (Py.truthy s)
             end;
      try discriminate; injection Hv0 as <-; by eapply dict_get_value.
  - apply Forall_forall. intros v0 Hv0. split; [apply strip_trimmed|].
    apply field_value. by intros ? [= <-].
Qed.

Lemma build_context_of_trimmed (row : dict string string) :
  Forall trimmed row.*2 ->
  Forall (fun v => v = "" \/ v ∈ row.*2) (build_context row).*2.
Proof.
  intros Hrow. eapply Forall_impl; [apply build_context_stripped|].
  intros v [_ [->|(v0 & Hin & ->)]]; [by left|].
  right. rewrite Forall_forall in Hrow. by rewrite (Hrow _ Hin).
Qed.

(** X10. Every value of a context is trimmed, and is either empty or the
    trimmed text of a value of the row; for a row whose values are already
    trimmed, as the reader's are, it is empty or a value of the row as it
    stands. *)
Theorem build_context_values (row : dict string string) :
  Forall (fun v => trimmed v /\
                   (v = "" \/ exists v0, v0 ∈ row.*2 /\ v = Py.strip v0))
    (build_context row).*2 /\
  (Forall trimmed row.*2 ->
   Forall (fun v => v = "" \/ v ∈ row.*2) (build_context row).*2).
Proof.
  split; [apply build_context_stripped|apply build_context_of_trimmed].
Qed.

(** ** Loading recipients, end to end *)

Lemma kept_rows_stable (rows : list (dict string string)) (seen : gset string) :
  Forall (fun r => usable_email (row_email r) = true) rows ->
  NoDup (email_key <$> rows) ->
  Forall (fun r => email_key r ∉ seen) rows ->
  kept_rows rows seen = rows.
Proof.
  revert seen. induction rows as [|row rows IH]; intros seen Hus Hnd Hfresh; [done|].
  apply Forall_cons in Hus as [Hrow Hus]. apply Forall_cons in Hfresh as [Hf Hfresh].
  rewrite fmap_cons in Hnd. apply NoDup_cons in Hnd as [Hnot Hnd].
  simpl. rewrite Hrow, decide_False by done. f_equal. apply IH; try done.
  apply Forall_forall. intros r Hr Hin.
  apply elem_of_union in Hin as [Hin|Hin].
  - apply elem_of_singleton in Hin. apply Hnot. rewrite <- Hin.
    apply list_elem_of_fmap. by exists r.
  - rewrite Forall_forall in Hfresh. by apply (Hfresh r Hr).
Qed.

(** X11. Filtering is stable: running the loop of [load_recipients] over the
    rows it kept keeps every one of them, so it returns the same
    recipients. *)
Theorem recipients_loop_stable (rows : list (dict string string)) :
  recipients_loop (kept_rows rows ∅) ∅ [] = recipients_loop rows ∅ [].
Proof.
  rewrite !recipients_loop_kept. do 2 f_equal. apply kept_rows_stable.
  - apply kept_rows_usable.
  - apply kept_rows_nodup.
  - apply Forall_forall. intros r _. apply not_elem_of_empty.
Qed.

(** X12. [load_recipients] raises exactly what the reader raises and
    otherwise returns at most one context per yielded row; each context is
    built from a yielded row, and each of its values is empty or a cell text
    of that row as the reader delivered it. *)
Theorem load_recipients_from_rows (workbook : Workbook) :
  match load_recipients workbook with
  | Raise e => (iter_sheet_rows workbook).2 = Some e
  | Ok recipients =>
      (iter_sheet_rows workbook).2 = None /\
      (length recipients <= length (iter_sheet_rows workbook).1)%nat /\
      Forall (fun c => exists row,
                row ∈ (iter_sheet_rows workbook).1 /\ c = build_context row /\
                Forall (fun v => v = "" \/ v ∈ row.*2) c.*2)
        recipients
  end.
Proof.
  unfold load_recipients.
  assert (Forall (fun row => Forall trimmed row.*1 /\ Forall trimmed row.*2)
            (iter_sheet_rows workbook).1) as Htrim.
  { destruct workbook as [path|exc|shared_xml [sheet_root|]]; simpl; try constructor.
    destruct (find sheet_root (NS ++ "sheetData")); [|constructor].
    apply iter_rows_trimmed. intros hm Hhm. discriminate Hhm. }
  destruct (iter_sheet_rows workbook) as [rows [e|]]; [done|]. simpl in *.
  split; [done|]. split.
  - rewrite recipients_loop_kept. simpl. rewrite length_map.
    apply sublist_length, kept_rows_sublist.
  - apply Forall_forall. intros c Hc.
    apply recipients_loop_source in Hc as (row & Hrow & -> & _).
    exists row. split; [done|]. split; [done|].
    apply build_context_of_trimmed. rewrite Forall_forall in Htrim.
    by apply (Htrim row).
Qed.

(** ** Environment file *)

Lemma env_line_binding (raw_line : string) (environ : dict string string) :
  env_line raw_line environ =
    match env_binding raw_line with
    | None => (environ, None)
    | Some (key, value) =>
        if Dict.mem environ key then (environ, None)
        else if has_nul key || has_nul value
             then (environ, Some (ValueError "embedded null byte"))
             else (Dict.set environ key value, None)
    end.
Proof.
  unfold env_line, env_binding.
  destruct (negb (Py.truthy (Py.strip raw_line)) || _ || _); [done|].
  destruct (split_once "=" (Py.strip raw_line)) as [key value]. simpl.
  by destruct (Py.truthy (Py.strip key)).
Qed.

Lemma env_line_keeps (raw_line : string) (environ : dict string string)
    (k v : string) :
  Dict.get environ k = Some v -> Dict.get (env_line raw_line environ).1 k = Some v.
Proof.
  intros Hk. rewrite env_line_binding.
  destruct (env_binding raw_line) as [[key value]|]; [|done].
  destruct (Dict.mem environ key) eqn:Em; [done|].
  destruct (has_nul key || has_nul value); [done|]. simpl.
  rewrite dict_get_set_ne; [done|]. intros <-. unfold Dict.mem in Em.
  by rewrite Hk in Em.
Qed.

Lemma env_lines_keeps (lines : list string) (environ : dict string string)
    (k v : string) :
  Dict.get environ k = Some v -> Dict.get (env_lines lines environ).1 k = Some v.
Proof.
  revert environ. induction lines as [|l lines IH]; intros environ Hk; [done|].
  simpl. pose proof (env_line_keeps l environ k v Hk) as Hl.
  destruct (env_line l environ) as [environ' [e|]]; [done|]. by apply IH.
Qed.

(** X13. Loading the environment file never changes a variable that is
    already set, whether the file exists or not and even when the load
    stops on an error. *)
Theorem load_env_file_keeps (content : option string)
    (environ : dict string string) (k v : string) :
  Dict.get environ k = Some v ->
  Dict.get (load_env_file content environ).1 k = Some v.
Proof.
  destruct content as [text|]; [|done]. apply env_lines_keeps.
Qed.

Lemma load_env_file_keeps_witness :
  Dict.get (load_env_file (Some "SMTP_USER=file@example.org") [("SMTP_USER", "me")]).1
    "SMTP_USER" = Some "me".
Proof. apply load_env_file_keeps. reflexivity. Defined.

Lemma env_lines_lookup (lines : list string) (environ : dict string string)
    (k : string) :
  (env_lines lines environ).2 = None ->
  Dict.get (env_lines lines environ).1 k =
    match Dict.get environ k with
    | Some v => Some v
    | None => Dict.get (omap env_binding lines) k
    end.
Proof.
  revert environ. induction lines as [|l lines IH]; intros environ.
  - simpl. by destruct (Dict.get environ k).
  - cbn [env_lines omap list_omap]. rewrite env_line_binding.
    destruct (env_binding l) as [[key value]|]; [|apply IH].
    destruct (Dict.mem environ key) eqn:Em.
    + intros H. rewrite (IH _ H). cbn [Dict.get].
      destruct (decide (key = k)) as [->|Hne]; [|done].
      unfold Dict.mem in Em. by destruct (Dict.get environ k).
    + destruct (has_nul key || has_nul value); [done|].
      intros H. rewrite (IH _ H). cbn [Dict.get].
      destruct (decide (key = k)) as [->|Hne].
      * rewrite dict_get_set_eq. unfold Dict.mem in Em.
        by destruct (Dict.get environ k).
      * by rewrite dict_get_set_ne.
Qed.

(** X14. After a load that ran to the end, a variable has the value it had
    before, or else the value of the first line of the file that assigns
    it; blank lines, comments, lines without [=] and lines with nothing
    before the [=] assign nothing. *)
Theorem load_env_file_lookup (content : option string)
    (environ : dict string string) (k : string) :
  (load_env_file content environ).2 = None ->
  Dict.get (load_env_file content environ).1 k =
    match Dict.get environ k with
    | Some v => Some v
    | None => Dict.get (file_bindings content) k
    end.
Proof.
  destruct content as [text|]; simpl.
  - apply env_lines_lookup.
  - intros _. by destruct (Dict.get environ k).
Qed.

Lemma env_lines_settled (lines : list string) (environ : dict string string) :
  Forall (fun b => Dict.mem environ b.1 = true) (omap env_binding lines) ->
  env_lines lines environ = (environ, None).
Proof.
  induction lines as [|l lines IH]; [done|]. cbn [env_lines omap list_omap].
  rewrite env_line_binding. destruct (env_binding l) as [[key value]|].
  - intros H. apply Forall_cons in H as [Hk H]. simpl in Hk. rewrite Hk. by apply IH.
  - apply IH.
Qed.

(** X15. Loading is idempotent: after a load that ran to the end, loading
    the same file again changes nothing. *)
Theorem load_env_file_idempotent (content : option string)
    (environ : dict string string) :
  (load_env_file content environ).2 = None ->
  load_env_file content (load_env_file content environ).1 =
    ((load_env_file content environ).1, None).
Proof.
  destruct content as [text|]; [|done]. simpl. intros Hfin.
  apply env_lines_settled. apply Forall_forall. intros [key value] Hin.
  unfold Dict.mem. cbn [fst]. rewrite (env_lines_lookup _ _ key Hfin).
  destruct (Dict.get environ key); [done|].
  assert (is_Some (Dict.get (omap env_binding (splitlines text)) key)) as [v ->];
    [|done].
  apply dict_get_is_Some. apply list_elem_of_fmap. by exists (key, value).
Qed.

(** ** Attachment loader *)

Lemma string_leb_trans : Transitive (fun a b => String.leb a b = true).
Proof.
  intros a. induction a as [|x a IH]; intros b c.
  - by destruct c.
  - destruct b as [|y b]; [done|]. destruct c as [|z c]; [done|].
    unfold String.leb in *. simpl. unfold Ascii.compare.
    destruct (N.compare_spec (N_of_ascii x) (N_of_ascii y)) as [Exy|Lxy|Gxy];
      destruct (N.compare_spec (N_of_ascii y) (N_of_ascii z)) as [Eyz|Lyz|Gyz];
      destruct (N.compare_spec (N_of_ascii x) (N_of_ascii z)) as [Exz|Lxz|Gxz];
      try done; try lia.
    apply IH.
Qed.

#[global] Instance name_le_trans : Transitive name_le.
Proof. intros a b c. unfold name_le. apply string_leb_trans. Qed.

#[global] Instance name_le_total : Total name_le.
Proof. intros a b. unfold name_le. apply String.leb_total. Qed.

Lemma filter_strongly_sorted {A} (R : relation A) (p : A -> bool) (l : list A) :
  StronglySorted R l -> StronglySorted R (List.filter p l).
Proof.
  induction 1 as [|x l Hl IH Hx]; simpl; [constructor|].
  destruct (p x); [|exact IH]. constructor; [exact IH|].
  apply Forall_forall. intros y Hy. apply list_elem_of_In, filter_In in Hy as [Hy _].
  rewrite Forall_forall in Hx. by apply Hx, list_elem_of_In.
Qed.

Lemma filter_perm {A} (p : A -> bool) (l1 l2 : list A) :
  l1 ≡ₚ l2 -> List.filter p l1 ≡ₚ List.filter p l2.
Proof.
  induction 1 as [|x l1 l2 _ IH|x y l|l1 l2 l3 _ IH1 _ IH2]; simpl.
  - done.
  - destruct (p x); [by constructor|done].
  - destruct (p x), (p y); try done. apply perm_swap.
  - by etrans.
Qed.

Section AttachmentFacts.
Variable guess_type : string -> option string.

Lemma attach_loop_spec (paths : list DirEntry) :
  Forall (fun e => unpackable (guess_type (entry_name e)) = true)
    (regular_files paths) ->
  Forall (fun e => entry_read_error e = None) (regular_files paths) ->
  exists attachments,
    attach_loop guess_type paths = Ok attachments /\
    Forall2 (fun e a =>
               att_filename a = entry_name e /\ att_data a = entry_bytes e /\
               mime_parts (guess_type (entry_name e))
               = Ok (att_maintype a, att_subtype a))
      (regular_files paths) attachments.
Proof.
  unfold regular_files. induction paths as [|path paths IH]; simpl.
  - intros _ _. exists []. split; [done|constructor].
  - destruct (entry_is_file path); simpl; [|exact IH].
    intros Hall Hread. apply Forall_cons in Hall as [Hp Hall].
    apply Forall_cons in Hread as [Hr Hread].
    destruct (IH Hall Hread) as (rest & -> & Hrest). unfold unpackable in Hp.
    destruct (mime_parts (guess_type (entry_name path))) as [[m s]|e] eqn:E;
      [|done].
    unfold read_bytes. rewrite Hr.
    simpl. eexists. split; [reflexivity|]. constructor; [|exact Hrest].
    by rewrite E.
Qed.


(** X16. Loading an existing directory in which every regular file can be
    read and has a usable guessed type gives one attachment per regular
    file and nothing for any other entry: the attachments are in ascending
    order of file name, each with its file's bytes and with the two halves
    of the guessed type, or application/octet-stream when no type is
    guessed. *)
Theorem load_attachments_sorted_files (path : string) (entries : list DirEntry) :
  Forall (fun e => unpackable (guess_type (entry_name e)) = true)
    (regular_files entries) ->
  Forall (fun e => entry_read_error e = None) (regular_files entries) ->
  exists files attachments,
    load_attachments guess_type (Some (path, Directory entries)) = Ok attachments /\
    files ≡ₚ regular_files entries /\
    StronglySorted name_le files /\
    Forall2 (fun e a =>
               att_filename a = entry_name e /\ att_data a = entry_bytes e /\
               mime_parts (guess_type (entry_name e))
               = Ok (att_maintype a, att_subtype a))
      files attachments.
Proof.
  intros Hall Hread. simpl.
  assert (regular_files (merge_sort name_le entries) ≡ₚ regular_files entries)
    as Hperm by apply filter_perm, merge_sort_Permutation.
  destruct (attach_loop_spec (merge_sort name_le entries)) as (atts & Hload & Hatts).
  { by rewrite Hperm. }
  { by rewrite Hperm. }
  exists (regular_files (merge_sort name_le entries)), atts.
  split; [done|]. split; [done|]. split; [|done].
  apply filter_strongly_sorted, StronglySorted_merge_sort; apply _.
Qed.

End AttachmentFacts.

(** ** Previews *)





(** ** Sessions of one recipient *)

Lemma sessions_app (l1 l2 : list event) :
  sessions (l1 ++ l2) = (sessions l1 ++ sessions l2)%list.
Proof.
  induction l1 as [|e l1 IH]; [done|]. destruct e; simpl; by rewrite IH.
Qed.

Lemma sleeps_app (l1 l2 : list event) :
  sleeps (l1 ++ l2) = (sleeps l1 ++ sleeps l2)%list.
Proof.
  induction l1 as [|e l1 IH]; [done|]. destruct e; simpl; by rewrite IH.
Qed.

Lemma sleep_events (time_sleep : pyfloat -> option exn) (d : pyfloat)
    (log log' : list event) (r : result unit) :
  sleep time_sleep d log = (log', r) ->
  exists extra, log' = (log ++ extra)%list /\ sessions extra = [] /\
                outcomes extra = [] /\
                length (sleeps extra) = (if is_ok r then 1 else 0)%nat.
Proof.
  unfold sleep. destruct (time_sleep d); intros [= <- <-].
  - exists []. by rewrite app_nil_r.
  - by exists [Sleep d].
Qed.

Section SessionFacts.
Context {World : Type}.
Variable smtp_session : Args -> Message -> World -> World * option exn.
Variable time_sleep : pyfloat -> option exn.
Variable header_ok : string -> bool.
Variable args : Args.
Variables subject_template body_template : string.
Variable attachments : list Attachment.

Local Abbreviation loop := (attempt_loop smtp_session time_sleep args).
Local Abbreviation build :=
  (compose header_ok args subject_template body_template attachments).
Local Abbreviation send1 :=
  (send_one smtp_session time_sleep header_ok args subject_template body_template
     attachments).
Local Abbreviation pass :=
  (recipients_pass smtp_session time_sleep header_ok args subject_template
     body_template attachments).
Local Abbreviation run :=
  (send_messages smtp_session time_sleep header_ok args subject_template
     body_template attachments).

Lemma attempt_loop_sessions (fuel : nat) (recipient : dict string string)
    (msg : Message) (attempt : Z) (w w' : World) (log log' : list event)
    (r : result unit) :
  loop fuel recipient msg attempt w log = Some (w', log', r) ->
  exists extra n,
    log' = (log ++ extra)%list /\
    sessions extra = replicate n msg /\
    outcomes extra = [] /\
    (1 <= n)%nat /\ (n = 1%nat \/ Z.of_nat n <= retries args - attempt + 1) /\
    length (sleeps extra) = (n - 1)%nat.
Proof.
  revert attempt w log. induction fuel as [|fuel IH]; intros attempt w log; [done|].
  cbn [attempt_loop].
  destruct (smtp_session args msg w) as [w1 [exc|]].
  - destruct (attempt + 1 >? retries args) eqn:E.
    { intros [= <- <- <-]. exists [Session msg], 1%nat. repeat split; auto. }
    destruct (Dict.get recipient "email") as [email|].
    2:{ intros [= <- <- <-]. exists [Session msg], 1%nat. repeat split; auto. }
    destruct (sleep _ _ _) as [log3 rs] eqn:Es.
    apply sleep_events in Es as (ex & -> & Hs & Ho & Hl).
    destruct rs as [[]|e].
    + intros Hrec. apply IH in Hrec as (extra & n & -> & Hse & Hou & Hn & Hb & Hsl).
      exists ([Session msg; Retrying email (exn_str exc)
                 (float_times (retry_delay args) (attempt + 1))] ++ ex ++ extra)%list,
             (S n).
      rewrite Z.gtb_ltb in E. apply Z.ltb_ge in E.
      split; [by rewrite <- !app_assoc|].
      split; [rewrite !sessions_app, Hs, Hse; reflexivity|].
      split; [rewrite !outcomes_app, Ho, Hou; reflexivity|].
      split; [lia|]. split; [right; destruct Hb as [->|Hb]; lia|].
      rewrite !sleeps_app, !length_app, Hl, Hsl. simpl. lia.
    + intros [= <- <- <-].
      exists ([Session msg; Retrying email (exn_str exc)
                 (float_times (retry_delay args) (attempt + 1))] ++ ex)%list, 1%nat.
      split; [by rewrite <- !app_assoc|].
      split; [rewrite !sessions_app, Hs; reflexivity|].
      split; [rewrite !outcomes_app, Ho; reflexivity|].
      split; [lia|]. split; [by left|].
      rewrite !sleeps_app, !length_app, Hl. reflexivity.
  - intros [= <- <- <-]. exists [Session msg], 1%nat. repeat split; auto.
Qed.

(** X19. Sending to one recipient changes nothing when its message cannot
    be built: no session is opened and the exception of the build is what
    [send_one] raises. Otherwise it opens at least one session and at most
    one more than the configured retries, every one of them for the same
    message, sleeps once less than it opens sessions, and prints no
    progress line of its own. *)
Theorem send_one_sessions (recipient : dict string string) (w w' : World)
    (log log' : list event) (r : result unit) :
  send1 recipient w log = Some (w', log', r) ->
  match build recipient with
  | Raise e => w' = w /\ log' = log /\ r = Raise e
  | Ok msg =>
      exists extra n,
        log' = (log ++ extra)%list /\
        sessions extra = replicate n msg /\
        outcomes extra = [] /\
        (1 <= n <= S (Z.to_nat (retries args)))%nat /\
        length (sleeps extra) = (n - 1)%nat
  end.
Proof.
  unfold send_one. destruct (build recipient) as [msg|e].
  - intros H. apply attempt_loop_sessions in H
      as (extra & n & -> & Hs & Ho & Hn & Hb & Hl).
    exists extra, n. repeat split; try done. destruct Hb as [->|Hb]; lia.
  - by intros [= <- <- <-].
Qed.

Lemma attempt_loop_refused (excs : list exn) (fuel : nat)
    (recipient : dict string string) (msg : Message) (email : string)
    (i : nat) (w w1 : World) (log : list event) :
  Dict.get recipient "email" = Some email ->
  Forall (fun d => time_sleep d = None)
    ((fun j => float_times (retry_delay args) (Z.of_nat j))
       <$> seq (S i) (length excs)) ->
  Z.of_nat i + Z.of_nat (length excs) <= retries args ->
  refused smtp_session args msg w excs w1 ->
  loop (length excs + fuel) recipient msg (Z.of_nat i) w log
  = loop fuel recipient msg (Z.of_nat i + Z.of_nat (length excs)) w1
      (log ++ retry_events args msg email (Z.of_nat i) excs)%list.
Proof.
  intros Hemail. revert i w log.
  induction excs as [|exc excs IH]; intros i w log Hd Hle Hch.
  - inversion Hch; subst. simpl. by rewrite Z.add_0_r, app_nil_r.
  - inversion Hch as [|? w2 ? ? ? Hs Hrest]; subst.
    cbn [length seq] in *. rewrite fmap_cons in Hd.
    apply Forall_cons in Hd as [Hd1 Hd]. rewrite Nat2Z.inj_succ in Hle.
    replace (Z.of_nat (S i)) with (Z.of_nat i + 1) in Hd1 by lia.
    change (S (length excs) + fuel)%nat with (S (length excs + fuel)).
    rewrite (attempt_retried smtp_session time_sleep args _ recipient msg email
               (Z.of_nat i) w w2 _ exc) by (done || lia).
    replace (Z.of_nat i + 1) with (Z.of_nat (S i)) by lia.
    rewrite IH by (done || lia). cbn [retry_events].
    replace (Z.of_nat i + 1) with (Z.of_nat (S i)) by lia.
    rewrite Nat2Z.inj_succ, <- app_assoc. simpl. f_equal. lia.
Qed.

Lemma retry_events_sleeps (msg : Message) (email : string) (excs : list exn)
    (i : nat) :
  sleeps (retry_events args msg email (Z.of_nat i) excs)
  = (fun j => float_times (retry_delay args) (Z.of_nat j))
      <$> seq (S i) (length excs).
Proof.
  revert i. induction excs as [|exc excs IH]; intros i; [done|].
  cbn [retry_events sleeps length seq]. rewrite fmap_cons.
  replace (Z.of_nat i + 1) with (Z.of_nat (S i)) by lia. by rewrite IH.
Qed.

Lemma retry_events_sessions (msg : Message) (email : string) (excs : list exn)
    (attempt : Z) :
  length (sessions (retry_events args msg email attempt excs)) = length excs.
Proof.
  revert attempt. induction excs as [|exc excs IH]; intros attempt; [done|].
  simpl. by rewrite IH.
Qed.

(** X20. When the first [k] sessions for a recipient are refused and the
    next one is accepted, with [k] no larger than the configured retries
    and backoffs that [time.sleep] accepts, [send_one] succeeds after
    exactly [k + 1] sessions and [k] backoff sleeps, of the delay times 1,
    2, ..., [k]. *)
Theorem send_one_succeeds_after (recipient : dict string string) (msg : Message)
    (email : string) (excs : list exn) (w w1 w' : World) (log : list event) :
  build recipient = Ok msg ->
  Dict.get recipient "email" = Some email ->
  Forall (fun d => time_sleep d = None) (backoffs args (length excs)) ->
  Z.of_nat (length excs) <= retries args ->
  refused smtp_session args msg w excs w1 ->
  smtp_session args msg w1 = (w', None) ->
  send1 recipient w log
  = Some (w', (log ++ retry_events args msg email 0 excs ++ [Session msg])%list,
          Ok ()) /\
  sleeps (retry_events args msg email 0 excs ++ [Session msg])
  = backoffs args (length excs) /\
  length (sessions (retry_events args msg email 0 excs ++ [Session msg]))
  = S (length excs).
Proof.
  intros Hbuild Hemail Hd Hle Hch Hok. split; [|split].
  - unfold send_one. rewrite Hbuild. unfold enough_fuel.
    replace (S (Z.to_nat (retries args)))
      with (length excs + S (Z.to_nat (retries args) - length excs))%nat by lia.
    rewrite (attempt_loop_refused excs _ recipient msg email 0 w w1)
      by (done || (simpl; lia)).
    rewrite (attempt_succeeds smtp_session time_sleep args _ _ _ _ w1 w') by done.
    by rewrite <- app_assoc.
  - rewrite sleeps_app, app_nil_r. apply (retry_events_sleeps msg email excs 0).
  - rewrite sessions_app, length_app, retry_events_sessions. simpl. lia.
Qed.

(** X21. When every session for a recipient is refused, with retries that
    are not negative and backoffs that [time.sleep] accepts, [send_one]
    raises the exception of the last session, after exactly one session
    more than the configured retries and one backoff sleep per retry. *)
Theorem send_one_gives_up (recipient : dict string string) (msg : Message)
    (email : string) (excs : list exn) (last : exn) (w w1 w' : World)
    (log : list event) :
  build recipient = Ok msg ->
  Dict.get recipient "email" = Some email ->
  Forall (fun d => time_sleep d = None) (backoffs args (length excs)) ->
  Z.of_nat (length excs) = retries args ->
  refused smtp_session args msg w excs w1 ->
  smtp_session args msg w1 = (w', Some last) ->
  send1 recipient w log
  = Some (w', (log ++ retry_events args msg email 0 excs ++ [Session msg])%list,
          Raise last) /\
  sleeps (retry_events args msg email 0 excs ++ [Session msg])
  = backoffs args (length excs) /\
  length (sessions (retry_events args msg email 0 excs ++ [Session msg]))
  = S (length excs).
Proof.
  intros Hbuild Hemail Hd Hle Hch Hlast. split; [|split].
  - unfold send_one. rewrite Hbuild. unfold enough_fuel.
    replace (S (Z.to_nat (retries args))) with (length excs + 1)%nat by lia.
    rewrite (attempt_loop_refused excs _ recipient msg email 0 w w1)
      by (done || (simpl; lia)).
    rewrite (attempt_exhausted smtp_session time_sleep args _ _ _ _ w1 w' _ last)
      by (done || (simpl; lia)).
    by rewrite <- app_assoc.
  - rewrite sleeps_app, app_nil_r. apply (retry_events_sleeps msg email excs 0).
  - rewrite sessions_app, length_app, retry_events_sessions. simpl. lia.
Qed.
End SessionFacts.

(** ** Whole runs *)

Lemma progress_emails_app (l1 l2 : list event) :
  progress_emails (l1 ++ l2) = (progress_emails l1 ++ progress_emails l2)%list.
Proof.
  induction l1 as [|e l1 IH]; [done|]. destruct e; simpl; by rewrite IH.
Qed.

Lemma outcomes_progress (log : list event) :
  outcomes log = [] -> progress_emails log = [].
Proof.
  induction log as [|e log IH]; [done|]. by destruct e; simpl.
Qed.

Lemma summary_quiet (t : Tally) :
  sessions (summary t) = [] /\ sleeps (summary t) = [] /\
  progress_emails (summary t) = [].
Proof.
  unfold summary. simpl. by induction (failures t) as [|f fs (? & ? & ?)].
Qed.

Section RunFacts.
Context {World : Type}.
Variable smtp_session : Args -> Message -> World -> World * option exn.
Variable time_sleep : pyfloat -> option exn.
Variable header_ok : string -> bool.
Variable args : Args.
Variables subject_template body_template : string.
Variable attachments : list Attachment.

Local Abbreviation build :=
  (compose header_ok args subject_template body_template attachments).
Local Abbreviation send1 :=
  (send_one smtp_session time_sleep header_ok args subject_template body_template
     attachments).
Local Abbreviation pass :=
  (recipients_pass smtp_session time_sleep header_ok args subject_template
     body_template attachments).
Local Abbreviation run :=
  (send_messages smtp_session time_sleep header_ok args subject_template
     body_template attachments).

Lemma send_one_quiet (recipient : dict string string) (w w' : World)
    (log log' : list event) (r : result unit) :
  send1 recipient w log = Some (w', log', r) ->
  progress_emails log' = progress_emails log.
Proof.
  unfold send_one. destruct (build recipient) as [msg|e].
  - intros H. apply attempt_loop_sessions in H as (extra & n & -> & _ & Ho & _).
    by rewrite progress_emails_app, (outcomes_progress _ Ho), app_nil_r.
  - by intros [= <- <- <-].
Qed.

Lemma sleep_quiet (d : pyfloat) (log log' : list event) (r : result unit) :
  sleep time_sleep d log = (log', r) -> progress_emails log' = progress_emails log.
Proof.
  intros H. apply sleep_events in H as (extra & -> & _ & Ho & _).
  by rewrite progress_emails_app, (outcomes_progress _ Ho), app_nil_r.
Qed.

(** The progress lines of a pass name the recipients in their order, one
    line each, as far as the pass gets. *)
Lemma recipients_pass_progress (recipients : list (dict string string))
    (idx total : nat) (w w' : World) (log log' : list event) (t : Tally)
    (r : result Tally) :
  pass recipients idx total w log t = Some (w', log', r) ->
  exists done_,
    done_ `prefix_of` recipients /\
    (is_ok r = true -> done_ = recipients) /\
    progress_emails log' = (progress_emails log ++ (context_email <$> done_))%list.
Proof.
  revert idx w log t. induction recipients as [|recipient rest IH];
    intros idx w log t; cbn [recipients_pass].
  - intros [= <- <- <-]. exists []. by rewrite app_nil_r.
  - destruct (send1 recipient w log) as [[[w1 log1] r1]|] eqn:Esend; [|done].
    apply send_one_quiet in Esend.
    destruct (Dict.get recipient "email") as [email|] eqn:Eemail.
    2:{ destruct r1; intros [= <- <- <-]; exists [];
        (split; [apply prefix_nil|]); by rewrite app_nil_r. }
    assert (context_email recipient = email) as Hce
      by (unfold context_email, Dict.get_default; by rewrite Eemail).
    set (line := match r1 with
                 | Ok _ => Sent idx total email
                 | Raise exc => Failed idx total email (exn_str exc)
                 end).
    assert (progress_emails (log1 ++ [line])
            = (progress_emails log ++ [email])%list) as Hline.
    { rewrite progress_emails_app, Esend. by destruct r1. }
    assert (forall log3 t1 (rp : result unit),
              progress_emails log3 = (progress_emails log ++ [email])%list ->
              match rp with
              | Raise e => Some (w1, log3, Raise e)
              | Ok _ => pass rest (S idx) total w1 log3 t1
              end = Some (w', log', r) ->
              exists done_,
                done_ `prefix_of` (recipient :: rest) /\
                (is_ok r = true -> done_ = recipient :: rest) /\
                progress_emails log'
                = (progress_emails log ++ (context_email <$> done_))%list) as Hgo.
    { intros log3 t1 rp H3 Hnext.
      destruct rp as [[]|e].
      - apply IH in Hnext as (done_ & Hpre & Hall & Hprog).
        exists (recipient :: done_). split; [by apply prefix_cons|].
        split; [intros Hok; by rewrite (Hall Hok)|].
        rewrite Hprog, H3, fmap_cons, Hce. by rewrite <- app_assoc.
      - injection Hnext as <- <- <-. exists [recipient].
        split; [apply prefix_cons, prefix_nil|]. split; [done|].
        by rewrite H3, fmap_cons, Hce. }
    assert (progress_emails
              (if float_truthy (pause args) && (idx <? total)%nat
               then sleep time_sleep (pause args) (log1 ++ [line])%list
               else ((log1 ++ [line])%list, Ok ())).1
            = (progress_emails log ++ [email])%list) as Hp.
    { destruct (float_truthy _ && _); [|done].
      destruct (sleep _ _ _) as [log3 rp] eqn:Ep.
      apply sleep_quiet in Ep. simpl. by rewrite Ep. }
    subst line. destruct r1 as [[]|exc];
      (destruct (if float_truthy _ && _ then _ else _) as [log3 rp];
       intros Hnext; eapply Hgo; [exact Hp|]; exact Hnext).
Qed.

(** X22. In a run of [send_messages], whether it ends with its tally or with
    an exception, the progress lines name the recipients in their order, one
    line per recipient and none for anyone else; a run that ends with its
    tally has a line for every recipient. *)
Theorem send_messages_progress (recipients : list (dict string string))
    (w w' : World) (log : list event) (r : result Tally) :
  run recipients w = Some (w', log, r) ->
  exists done_,
    done_ `prefix_of` recipients /\
    (is_ok r = true -> done_ = recipients) /\
    progress_emails log = context_email <$> done_.
Proof.
  unfold send_messages.
  destruct (pass recipients 1 (length recipients) w [] _)
    as [[[w1 log1] r1]|] eqn:Epass; [|done].
  apply recipients_pass_progress in Epass as (done_ & Hpre & Hall & Hprog).
  destruct r1 as [t|e]; intros [= <- <- <-]; exists done_.
  - destruct (summary_quiet t) as (_ & _ & Hq).
    by rewrite progress_emails_app, Hq, app_nil_r.
  - done.
Qed.


End RunFacts.

(** ** The program *)

Lemma select_recipients_sublist {A} (skip : Z) (limit : option Z) (l : list A) :
  select_recipients skip limit l `sublist_of` l.
Proof.
  unfold select_recipients.
  assert ((if skip =? 0 then l else slice_from l skip) `sublist_of` l) as H1.
  { destruct (skip =? 0); [done|]. unfold slice_from.
    destruct (0 <=? skip); apply sublist_drop. }
  destruct limit as [n|]; [|done].
  etrans; [|exact H1]. unfold slice_to. destruct (0 <=? n); apply sublist_take.
Qed.

(** X24. Whatever [--skip] and [--limit] are, negative values included, the
    recipients [main] goes on with are one run of consecutive recipients of
    the loaded list, in the same order: a non-negative skip leaves out that
    many at the front (all when there are fewer), a negative one keeps that
    many at the end; a non-negative limit keeps that many of what remains, a
    negative one leaves out that many at the end. *)
Theorem select_recipients_segment {A} (skip : Z) (limit : option Z)
    (recipients : list A) :
  exists before after,
    recipients
    = (before ++ select_recipients skip limit recipients ++ after)%list /\
    length before
    = (if skip <? 0 then (length recipients - Z.to_nat (- skip))%nat
       else Nat.min (Z.to_nat skip) (length recipients)) /\
    length after
    = match limit with
      | None => 0%nat
      | Some n =>
          if n <? 0
          then Nat.min (Z.to_nat (- n)) (length recipients - length before)
          else (length recipients - length before - Z.to_nat n)%nat
      end.
Proof.
  set (k := if skip =? 0 then 0%nat
            else if 0 <=? skip then Z.to_nat skip
                 else Z.to_nat (Z.of_nat (length recipients) + skip)).
  assert ((if skip =? 0 then recipients else slice_from recipients skip)
          = drop k recipients) as Hrest.
  { subst k. unfold slice_from. destruct (skip =? 0); [done|].
    by destruct (0 <=? skip). }
  assert (length (take k recipients)
          = (if skip <? 0 then (length recipients - Z.to_nat (- skip))%nat
             else Nat.min (Z.to_nat skip) (length recipients))) as Hbefore.
  { rewrite length_take. subst k.
    destruct (Z.eqb_spec skip 0), (Z.leb_spec 0 skip), (Z.ltb_spec skip 0); lia. }
  unfold select_recipients. rewrite Hrest. destruct limit as [n|].
  - set (j := if 0 <=? n then Z.to_nat n
              else Z.to_nat (Z.of_nat (length (drop k recipients)) + n)).
    assert (slice_to (drop k recipients) n = take j (drop k recipients)) as ->.
    { subst j. unfold slice_to. by destruct (0 <=? n). }
    exists (take k recipients), (drop j (drop k recipients)).
    split; [by rewrite !take_drop|]. split; [exact Hbefore|].
    rewrite !length_drop, length_take. subst j. rewrite length_drop.
    destruct (Z.leb_spec 0 n), (Z.ltb_spec n 0); lia.
  - exists (take k recipients), []. by rewrite app_nil_r, take_drop.
Qed.

Lemma select_recipients_none {A} (skip : Z) (limit : option Z) (l : list A) :
  l = [] \/ limit = Some 0 \/ (0 < skip /\ Z.of_nat (length l) <= skip) ->
  select_recipients skip limit l = [].
Proof.
  unfold select_recipients, slice_from, slice_to. intros [->|[->|[Hpos Hlen]]].
  - rewrite !drop_nil.
    assert ((if skip =? 0 then [] else if 0 <=? skip then [] else []) = @nil A)
      as -> by (by destruct (skip =? 0), (0 <=? skip)).
    destruct limit as [n|]; [|done]. destruct (0 <=? n); apply take_nil.
  - simpl. apply take_0.
  - destruct (Z.eqb_spec skip 0); [lia|]. destruct (Z.leb_spec 0 skip); [|lia].
    rewrite drop_ge by lia. destruct limit as [count|]; [|done].
    destruct (0 <=? count); apply take_nil.
Qed.

Lemma context_email_build (row : dict string string) :
  context_email (build_context row) = row_email row.
Proof. unfold context_email, Dict.get_default. by rewrite build_context_email. Qed.

Lemma keys_of_contexts (rows : list (dict string string)) :
  (fun c => Py.lower (context_email c)) <$> List.map build_context rows
  = email_key <$> rows.
Proof.
  induction rows as [|row rows IH]; [done|].
  cbn [List.map]. by rewrite !fmap_cons, IH, context_email_build.
Qed.

(** What any selection from the loaded recipients inherits from the loader. *)
Lemma load_recipients_selected (workbook : Workbook)
    (loaded sel : list (dict string string)) :
  load_recipients workbook = Ok loaded -> sel `sublist_of` loaded ->
  Forall (fun c => Dict.get c "email" = Some (context_email c) /\
                   usable_email (context_email c) = true) sel /\
  NoDup ((fun c => Py.lower (context_email c)) <$> sel).
Proof.
  unfold load_recipients. destruct (iter_sheet_rows workbook) as [rows [e|]]; [done|].
  intros [= <-] Hsub. rewrite recipients_loop_kept in Hsub. simpl in Hsub. split.
  - apply Forall_forall. intros c Hc.
    eapply elem_of_sublist in Hc; [|exact Hsub].
    apply list_elem_of_In, in_map_iff in Hc as (row & <- & Hrow).
    rewrite context_email_build. split; [apply build_context_email|].
    pose proof (kept_rows_usable rows ∅) as Hall. rewrite Forall_forall in Hall.
    by apply Hall, list_elem_of_In.
  - eapply sublist_NoDup; [|apply fmap_sublist, Hsub].
    rewrite keys_of_contexts. apply kept_rows_nodup.
Qed.


Section RunInvariants.
Context {World : Type}.
Variable smtp_session : Args -> Message -> World -> World * option exn.
Variable time_sleep : pyfloat -> option exn.
Variable header_ok : string -> bool.
Variable args : Args.
Variables subject_template body_template : string.
Variable attachments : list Attachment.

Local Abbreviation build :=
  (compose header_ok args subject_template body_template attachments).
Local Abbreviation send1 :=
  (send_one smtp_session time_sleep header_ok args subject_template body_template
     attachments).
Local Abbreviation pass :=
  (recipients_pass smtp_session time_sleep header_ok args subject_template
     body_template attachments).
Local Abbreviation run :=
  (send_messages smtp_session time_sleep header_ok args subject_template
     body_template attachments).

(** Every session of a pass carries the message of one of its recipients. *)
Lemma recipients_pass_sessions (Q : Message -> Prop)
    (recipients : list (dict string string)) (idx total : nat) (w w' : World)
    (log log' : list event) (t : Tally) (r : result Tally) :
  (forall rc m, rc ∈ recipients -> build rc = Ok m -> Q m) ->
  Forall Q (sessions log) ->
  pass recipients idx total w log t = Some (w', log', r) ->
  Forall Q (sessions log').
Proof.
  revert idx w log t. induction recipients as [|recipient rest IH];
    intros idx w log t HQ Hlog; cbn [recipients_pass].
  - by intros [= <- <- <-].
  - destruct (send1 recipient w log) as [[[w1 log1] r1]|] eqn:Esend; [|done].
    assert (Forall Q (sessions log1)) as H1.
    { unfold send_one in Esend. destruct (build recipient) as [msg|e] eqn:Eb.
      - apply attempt_loop_sessions in Esend as (extra & n & -> & Hs & _).
        rewrite sessions_app, Hs. apply Forall_app. split; [done|].
        apply Forall_replicate. apply (HQ recipient); [left|done].
      - by injection Esend as <- <- <-. }
    assert (forall rc m, rc ∈ rest -> build rc = Ok m -> Q m) as HQ'
      by (intros rc m Hrc; apply HQ; by right).
    destruct (Dict.get recipient "email") as [email|].
    2:{ destruct r1; by intros [= <- <- <-]. }
    assert (forall line,
              sessions [line] = [] ->
              Forall Q (sessions
                (if float_truthy (pause args) && (idx <? total)%nat
                 then sleep time_sleep (pause args) (log1 ++ [line])%list
                 else ((log1 ++ [line])%list, Ok ())).1)) as Hp.
    { intros line Hline. destruct (float_truthy _ && _).
      - destruct (sleep _ _ _) as [log3 rp] eqn:Ep.
        apply sleep_events in Ep as (ex & -> & Hs & _). simpl.
        by rewrite !sessions_app, Hline, Hs, !app_nil_r.
      - simpl. by rewrite sessions_app, Hline, app_nil_r. }
    destruct r1 as [[]|exc];
      [specialize (Hp (Sent idx total email) eq_refl)
      |specialize (Hp (Failed idx total email (exn_str exc)) eq_refl)];
      (destruct (if float_truthy _ && _ then _ else _) as [log3 [[]|e]];
       [intros Hnext; by eapply IH|by intros [= <- <- <-]]).
Qed.

Lemma send_messages_selected (recipients : list (dict string string))
    (w w' : World) (log : list event) (r : result Tally) :
  Forall (fun c => Dict.get c "email" = Some (context_email c) /\
                   usable_email (context_email c) = true) recipients ->
  NoDup ((fun c => Py.lower (context_email c)) <$> recipients) ->
  run recipients w = Some (w', log, r) ->
  Forall (fun m => usable_email (msg_to m) = true) (sessions log) /\
  Forall (fun e => usable_email e = true) (progress_emails log) /\
  NoDup (Py.lower <$> progress_emails log).
Proof.
  intros Hus Hnd. unfold send_messages.
  destruct (pass recipients 1 (length recipients) w [] _)
    as [[[w1 log1] r1]|] eqn:Epass; [|done].
  assert (Forall (fun m => usable_email (msg_to m) = true) (sessions log1)) as Hs.
  { eapply recipients_pass_sessions with (log := []); [|constructor|exact Epass].
    intros rc m Hrc Hb. apply compose_renders in Hb as (Hto & _).
    rewrite Forall_forall in Hus. destruct (Hus rc Hrc) as [Hget Hu].
    rewrite Hget in Hto. injection Hto as <-. exact Hu. }
  apply recipients_pass_progress in Epass as (done_ & [k ->] & _ & Hprog).
  simpl in Hprog.
  assert (Forall (fun e => usable_email e = true) (progress_emails log1) /\
          NoDup (Py.lower <$> progress_emails log1)) as [Hp Hn].
  { rewrite Hprog. apply Forall_app in Hus as [Hus _].
    rewrite fmap_app in Hnd. apply NoDup_app in Hnd as [Hnd _]. split.
    - apply Forall_fmap. eapply Forall_impl; [exact Hus|]. by intros c [_ Hu].
    - by rewrite <- list_fmap_compose. }
  destruct r1 as [t|e]; intros [= <- <- <-]; [|done].
  destruct (summary_quiet t) as (Hq1 & _ & Hq3).
  by rewrite sessions_app, progress_emails_app, Hq1, Hq3, !app_nil_r.
Qed.
End RunInvariants.

Section MainFacts.
Context {World : Type}.
Variable smtp_session : Args -> Message -> World -> World * option exn.
Variable time_sleep : pyfloat -> option exn.
Variable header_ok : string -> bool.
Variable guess_type : string -> option string.
Variable fs : FileSystem.

Local Abbreviation program :=
  (main smtp_session time_sleep header_ok guess_type fs).

(** X25. In every run of the program, each session carries a message to a
    non-empty address containing ["@"], each progress line names such an
    address, and no two progress lines name the same address, ignoring
    case: nobody is processed twice, whatever [--skip] and [--limit] are and
    whatever the server does. *)
Theorem main_mails_each_once (opts : Options) (w w' : World) (log : list event)
    (shown : list preview) (out : Outcome) :
  program opts w = Some (w', log, shown, out) ->
  Forall (fun m => usable_email (msg_to m) = true) (sessions log) /\
  Forall (fun e => usable_email e = true) (progress_emails log) /\
  NoDup (Py.lower <$> progress_emails log).
Proof.
  assert (Forall (fun m => usable_email (msg_to m) = true) (sessions []) /\
          Forall (fun e => usable_email e = true) (progress_emails []) /\
          NoDup (Py.lower <$> progress_emails [])) as Hquiet
    by (repeat split; constructor).
  unfold main.
  destruct (chosen_workbook fs opts) as [path|]; [|by intros [= <- <- <- <-]].
  destruct (fs_text fs (opt_template opts)) as [text|];
    [|by intros [= <- <- <- <-]].
  destruct (load_recipients (fs_workbook fs path)) as [loaded|e] eqn:Eload;
    [|by intros [= <- <- <- <-]].
  pose proof (select_recipients_sublist (opt_skip opts) (opt_limit opts) loaded)
    as Hsub.
  destruct (load_recipients_selected _ _ _ Eload Hsub) as [Hus Hnd].
  destruct (select_recipients (opt_skip opts) (opt_limit opts) loaded)
    as [|rc sel]; [by intros [= <- <- <- <-]|].
  destruct (load_attachments guess_type _) as [atts|[]];
    try by intros [= <- <- <- <-].
  destruct (opt_dry_run opts).
  { destruct (preview_messages _ _ _ _); by intros [= <- <- <- <-]. }
  destruct (send_messages _ _ _ _ _ _ _ _ _) as [[[w1 log1] [t|e]]|] eqn:Erun;
    [| |done]; intros [= <- <- <- <-];
    exact (send_messages_selected _ _ _ _ _ _ _ _ _ _ _ _ Hus Hnd Erun).
Qed.

(** X26. A dry run, and every run that ends with an exit, leaves the
    server alone: no session is opened, the world is unchanged and the log
    is empty. Every exit after the arguments are parsed has code 1 and
    comes before any preview. *)
Theorem main_dry_run_or_exit (opts : Options) (w w' : World) (log : list event)
    (shown : list preview) (out : Outcome) :
  program opts w = Some (w', log, shown, out) ->
  opt_dry_run opts = true \/ (exists code, out = Exit code) ->
  w' = w /\ log = [] /\
  (forall code, out = Exit code -> code = 1 /\ shown = []).
Proof.
  unfold main.
  destruct (chosen_workbook fs opts) as [path|];
    [|intros [= <- <- <- <-] _; repeat split; congruence].
  destruct (fs_text fs (opt_template opts)) as [text|];
    [|intros [= <- <- <- <-] _; repeat split; congruence].
  destruct (load_recipients (fs_workbook fs path)) as [loaded|e];
    [|intros [= <- <- <- <-] _; repeat split; congruence].
  destruct (select_recipients (opt_skip opts) (opt_limit opts) loaded)
    as [|rc sel]; [intros [= <- <- <- <-] _; repeat split; congruence|].
  destruct (load_attachments guess_type _) as [atts|[]];
    try (intros [= <- <- <- <-] _; repeat split; congruence).
  destruct (opt_dry_run opts).
  { destruct (preview_messages _ _ _ _);
      intros [= <- <- <- <-] _; repeat split; congruence. }
  destruct (send_messages _ _ _ _ _ _ _ _ _) as [[[w1 log1] [t|e]]|]; [| |done];
    intros [= <- <- <- <-] [Hdry|[code Hexit]]; congruence.
Qed.


(** X28. With the workbook and the template in place, the program exits
    with code 1 before any session or preview when no recipient is left:
    when the workbook gives none, when the limit is 0, or when the skip is
    at least the number of loaded recipients. *)
Theorem main_no_recipients (opts : Options) (w : World) (path : string)
    (loaded : list (dict string string)) :
  chosen_workbook fs opts = Some path ->
  is_Some (fs_text fs (opt_template opts)) ->
  load_recipients (fs_workbook fs path) = Ok loaded ->
  loaded = [] \/ opt_limit opts = Some 0 \/
    (0 < opt_skip opts /\ Z.of_nat (length loaded) <= opt_skip opts) ->
  program opts w = Some (w, [], [], Exit 1).
Proof.
  intros Hpath [text Htext] Hload Hnone. unfold main.
  by rewrite Hpath, Htext, Hload, (select_recipients_none _ _ _ Hnone).
Qed.
End MainFacts.

(** ** Instances on the sample data *)





(** Retries used up: each recipient gets three sessions, is recorded as
    failed, and the run goes on to the next one after the pause. *)
Example exhausted_retries_recorded :
  match send_messages dead_server checked_sleep any_header (sample_args 5)
          sample_subject sample_body [] [sample_recipient; sample_recipient]
          0%nat with
  | Some (w, log, Ok t) =>
      w = 6%nat /\ successes t = 0%nat /\
      failures t = [("a@rs.id", "connection refused");
                    ("a@rs.id", "connection refused")] /\
      outcomes log = [(1%nat, false); (2%nat, false)]
  | _ => False
  end.
Proof. vm_compute. auto. Qed.

(** A pause of ten thousand million seconds does not fit the clock: the
    first recipient is sent and the run ends with [OverflowError]. *)
Example pause_too_long_ends_run :
  match send_messages willing_server checked_sleep any_header
          (sample_args_with (Finite (inject_Z 10000000000)) (Finite 5))
          sample_subject sample_body [] [sample_recipient; sample_recipient]
          0%nat with
  | Some (w, log, Raise e) =>
      w = 1%nat /\ outcomes log = [(1%nat, true)] /\
      e = OverflowError "timestamp too large to convert to C _PyTime_t"
  | _ => False
  end.
Proof. vm_compute. auto. Qed.

Lemma load_env_file_lookup_witness :
  Dict.get (load_env_file (Some sample_env) [("SMTP_USER", "me")]).1 "SMTP_HOST"
  = match Dict.get [("SMTP_USER", "me")] "SMTP_HOST" with
    | Some v => Some v
    | None => Dict.get (file_bindings (Some sample_env)) "SMTP_HOST"
    end.
Proof. apply load_env_file_lookup. vm_compute. reflexivity. Defined.

Lemma load_env_file_idempotent_witness :
  load_env_file (Some sample_env)
    (load_env_file (Some sample_env) [("SMTP_USER", "me")]).1
  = ((load_env_file (Some sample_env) [("SMTP_USER", "me")]).1, None).
Proof. apply load_env_file_idempotent. vm_compute. reflexivity. Defined.

Lemma load_attachments_sorted_files_witness :
  exists files attachments,
    load_attachments sample_guess_type (Some ("docs", Directory sample_entries))
    = Ok attachments /\
    files ≡ₚ regular_files sample_entries /\
    StronglySorted name_le files /\
    Forall2 (fun e a =>
               att_filename a = entry_name e /\ att_data a = entry_bytes e /\
               mime_parts (sample_guess_type (entry_name e))
               = Ok (att_maintype a, att_subtype a))
      files attachments.
Proof.
  apply (load_attachments_sorted_files sample_guess_type "docs" sample_entries);
    repeat constructor.
Defined.


Lemma send_one_sessions_witness :
  match compose any_header (sample_args 5) sample_subject sample_body []
          sample_recipient with
  | Raise e => 3%nat = 0%nat /\ sample_retry_log = [] /\ Ok () = Raise e
  | Ok msg =>
      exists extra n,
        sample_retry_log = ([] ++ extra)%list /\
        sessions extra = replicate n msg /\
        outcomes extra = [] /\
        (1 <= n <= S (Z.to_nat (retries (sample_args 5))))%nat /\
        length (sleeps extra) = (n - 1)%nat
  end.
Proof.
  apply (send_one_sessions flaky_server checked_sleep any_header (sample_args 5)
           sample_subject sample_body [] sample_recipient 0%nat 3%nat []
           sample_retry_log (Ok ())).
  vm_compute. reflexivity.
Defined.

Lemma send_one_succeeds_after_witness :
  send_one flaky_server checked_sleep any_header (sample_args 5) sample_subject
    sample_body [] sample_recipient 0%nat []
  = Some (3%nat,
          ([] ++ retry_events (sample_args 5) sample_message "a@rs.id" 0
                   [SMTPError "timed out"; SMTPError "timed out"]
              ++ [Session sample_message])%list,
          Ok ()) /\
  sleeps (retry_events (sample_args 5) sample_message "a@rs.id" 0
            [SMTPError "timed out"; SMTPError "timed out"]
          ++ [Session sample_message])
  = backoffs (sample_args 5) 2 /\
  length (sessions (retry_events (sample_args 5) sample_message "a@rs.id" 0
                      [SMTPError "timed out"; SMTPError "timed out"]
                    ++ [Session sample_message]))
  = 3%nat.
Proof.
  apply (send_one_succeeds_after flaky_server checked_sleep any_header
           (sample_args 5) sample_subject sample_body [] sample_recipient
           sample_message "a@rs.id"
           [SMTPError "timed out"; SMTPError "timed out"] 0%nat 2%nat 3%nat []).
  - reflexivity.
  - reflexivity.
  - repeat constructor.
  - simpl. lia.
  - eapply refused_cons; [reflexivity|].
    eapply refused_cons; [reflexivity|]. apply refused_nil.
  - reflexivity.
Defined.

Lemma send_one_gives_up_witness :
  send_one dead_server checked_sleep any_header (sample_args 5) sample_subject
    sample_body [] sample_recipient 0%nat []
  = Some (3%nat,
          ([] ++ retry_events (sample_args 5) sample_message "a@rs.id" 0
                   [SMTPError "connection refused"; SMTPError "connection refused"]
              ++ [Session sample_message])%list,
          Raise (SMTPError "connection refused")) /\
  sleeps (retry_events (sample_args 5) sample_message "a@rs.id" 0
            [SMTPError "connection refused"; SMTPError "connection refused"]
          ++ [Session sample_message])
  = backoffs (sample_args 5) 2 /\
  length (sessions (retry_events (sample_args 5) sample_message "a@rs.id" 0
                      [SMTPError "connection refused";
                       SMTPError "connection refused"]
                    ++ [Session sample_message]))
  = 3%nat.
Proof.
  apply (send_one_gives_up dead_server checked_sleep any_header (sample_args 5)
           sample_subject sample_body [] sample_recipient sample_message "a@rs.id"
           [SMTPError "connection refused"; SMTPError "connection refused"]
           (SMTPError "connection refused") 0%nat 2%nat 3%nat []).
  - reflexivity.
  - reflexivity.
  - repeat constructor.
  - reflexivity.
  - eapply refused_cons; [reflexivity|].
    eapply refused_cons; [reflexivity|]. apply refused_nil.
  - reflexivity.
Defined.

Lemma send_messages_progress_witness :
  exists done_,
    done_ `prefix_of` [sample_recipient] /\
    (is_ok (Ok {| successes := 1; failures := [] |}) = true ->
     done_ = [sample_recipient]) /\
    progress_emails (sample_retry_log ++ [Sent 1 1 "a@rs.id"; Done 1 0])
    = context_email <$> done_.
Proof.
  apply (send_messages_progress flaky_server checked_sleep any_header
           (sample_args 5) sample_subject sample_body [] [sample_recipient]
           0%nat 3%nat
           (sample_retry_log ++ [Sent 1 1 "a@rs.id"; Done 1 0])%list
           (Ok {| successes := 1; failures := [] |})).
  vm_compute. reflexivity.
Defined.


Lemma main_mails_each_once_witness :
  exists w' log shown out,
    main willing_server checked_sleep any_header sample_guess_type sample_files
      (sample_options false 0) 0%nat = Some (w', log, shown, out) /\
    Forall (fun m => usable_email (msg_to m) = true) (sessions log) /\
    Forall (fun e => usable_email e = true) (progress_emails log) /\
    NoDup (Py.lower <$> progress_emails log).
Proof.
  destruct (main willing_server checked_sleep any_header sample_guess_type
              sample_files (sample_options false 0) 0%nat)
    as [[[[w' log] shown] out]|] eqn:E; [|vm_compute in E; discriminate E].
  exists w', log, shown, out. split; [reflexivity|].
  exact (main_mails_each_once willing_server checked_sleep any_header
           sample_guess_type sample_files (sample_options false 0) 0%nat
           w' log shown out E).
Defined.

Lemma main_dry_run_or_exit_witness :
  exists w' log shown out,
    main willing_server checked_sleep any_header sample_guess_type sample_files
      (sample_options true 0) 0%nat = Some (w', log, shown, out) /\
    w' = 0%nat /\ log = [] /\
    (forall code, out = Exit code -> code = 1 /\ shown = []).
Proof.
  destruct (main willing_server checked_sleep any_header sample_guess_type
              sample_files (sample_options true 0) 0%nat)
    as [[[[w' log] shown] out]|] eqn:E; [|vm_compute in E; discriminate E].
  exists w', log, shown, out. split; [reflexivity|].
  apply (main_dry_run_or_exit willing_server checked_sleep any_header
           sample_guess_type sample_files (sample_options true 0) 0%nat
           w' log shown out E).
  left. reflexivity.
Defined.


Lemma main_no_recipients_witness :
  main willing_server checked_sleep any_header sample_guess_type sample_files
    (sample_options false 5) 0%nat = Some (0%nat, [], [], Exit 1).
Proof.
  apply (main_no_recipients willing_server checked_sleep any_header
           sample_guess_type sample_files (sample_options false 5) 0%nat
           "test.xlsx" [gap_recipient]).
  - reflexivity.
  - eexists. reflexivity.
  - vm_compute. reflexivity.
  - right. right. simpl. lia.
Defined.
